(** * Deep-Research: the plan execution engine

    A shallow embedding of the plan validator, the research and writing task
    runners, the citation registry and the orchestration graph of
    [graphs/deepsearch_graph.py], [graphs/research_executor.py],
    [graphs/writing_executor.py], [services/llama_index_service.py] and
    [angent.py], followed by the properties proved about them.

    Part I holds the definitions, Part II the lemmas. *)

From Stdlib Require Import String Ascii NArith List Lia.
From stdpp Require Import base option list gmap.
Import ListNotations.

Set Default Proof Using "Type".

(* ===================================================================== *)
(** * Part I. Definitions                                                 *)
(* ===================================================================== *)

(** ** Python strings

    A Python [str] is a sequence of Unicode code points.  The literals of the
    source are written as they stand there and decoded from their UTF-8
    bytes. *)

Definition char := N.
Definition str := list char.

Fixpoint utf8_go (s : string) (need : nat) (acc : N) : str :=
  match s with
  | EmptyString => []
  | String a rest =>
      let b := N_of_ascii a in
      match need with
      | O =>
          if (b <? 128)%N then b :: utf8_go rest 0 0%N
          else if (b <? 224)%N then utf8_go rest 1 (N.land b 31)
          else if (b <? 240)%N then utf8_go rest 2 (N.land b 15)
          else utf8_go rest 3 (N.land b 7)
      | S O => (acc * 64 + N.land b 63)%N :: utf8_go rest 0 0%N
      | S n => utf8_go rest n (acc * 64 + N.land b 63)%N
      end
  end.

Definition py (s : string) : str := utf8_go s 0 0%N.
Arguments py s%_string : simpl never.

(** [bool(s)] of a string: non-empty. *)
Definition truthy (s : str) : bool :=
  match s with [] => false | _ :: _ => true end.

(** [sep.join(parts)] *)
Fixpoint join (sep : str) (parts : list str) : str :=
  match parts with
  | [] => []
  | [p] => p
  | p :: ps => p ++ sep ++ join sep ps
  end.

(** [str(n)] of a non-negative integer, as in an f-string. *)
Definition digit (n : nat) : char := (48 + N.of_nat n)%N.

Fixpoint str_of_nat_go (fuel n : nat) (acc : str) : str :=
  match fuel with
  | O => acc
  | S fuel' =>
      let acc' := digit (n mod 10) :: acc in
      if Nat.ltb n 10 then acc' else str_of_nat_go fuel' (n / 10) acc'
  end.

Definition str_of_nat (n : nat) : str := str_of_nat_go (S n) n [].
Arguments str_of_nat : simpl never.

(** ** The data model ([schemas/graph_state.py]) *)

Inductive Status := pending | ready | in_progress | completed | failed.

#[global] Instance Status_eq_dec : EqDecision Status.
Proof. solve_decision. Defined.

Definition RESEARCH : str := py "RESEARCH".
Definition WRITING : str := py "WRITING".

Record PlanItem := mkPlanItem {
  item_id : str;
  task_type : str;
  description : str;
  dependencies : list str;
  status : Status;
  content : str;
  summary : option str;
  execution_log : list str;
  evaluation_results : option str;
  attempt_count : nat
}.

#[global] Instance PlanItem_eq_dec : EqDecision PlanItem.
Proof. solve_decision. Defined.

Definition Plan := list PlanItem.

(** [item[k] = v] on a copy of the dict. *)
Definition set_dependencies (ds : list str) (it : PlanItem) : PlanItem :=
  mkPlanItem (item_id it) (task_type it) (description it) ds (status it)
    (content it) (summary it) (execution_log it) (evaluation_results it)
    (attempt_count it).

Definition set_status (st : Status) (it : PlanItem) : PlanItem :=
  mkPlanItem (item_id it) (task_type it) (description it) (dependencies it) st
    (content it) (summary it) (execution_log it) (evaluation_results it)
    (attempt_count it).

Definition set_content (c : str) (it : PlanItem) : PlanItem :=
  mkPlanItem (item_id it) (task_type it) (description it) (dependencies it)
    (status it) c (summary it) (execution_log it) (evaluation_results it)
    (attempt_count it).

(** [item['execution_log'].append(line)] *)
Definition log_append (line : str) (it : PlanItem) : PlanItem :=
  mkPlanItem (item_id it) (task_type it) (description it) (dependencies it)
    (status it) (content it) (summary it) (execution_log it ++ [line])
    (evaluation_results it) (attempt_count it).

(** ** PlanValidator: [DeepSearchGraph._validate_and_correct_plan] *)

Definition research_task_ids (plan : Plan) : gset str :=
  list_to_set (item_id <$> List.filter (fun it => bool_decide (task_type it = RESEARCH)) plan).

Definition all_task_ids (plan : Plan) : gset str :=
  list_to_set (item_id <$> plan).

Definition err_missing (dep_id : str) : str :=
  py "依赖 '" ++ dep_id ++ py "' 不存在，已移除。".

Definition err_not_research (wid dep_id : str) : str :=
  py "写作任务 '" ++ wid ++ py "' 错误地依赖了非研究任务 '" ++ dep_id ++ py "'，已移除。".

(** The inner loop over [original_deps]: the kept ids and the errors, both in
    order. *)
Fixpoint correct_deps (rids aids : gset str) (wid : str) (deps : list str)
  : list str * list str :=
  match deps with
  | [] => ([], [])
  | dep_id :: rest =>
      let '(kept, errs) := correct_deps rids aids wid rest in
      if bool_decide (dep_id ∈ aids) then
        if bool_decide (dep_id ∈ rids) then (dep_id :: kept, errs)
        else (kept, err_not_research wid dep_id :: errs)
      else (kept, err_missing dep_id :: errs)
  end.

(** The outer loop, over the items of the plan the two id sets were taken
    from. *)
Fixpoint correct_items (rids aids : gset str) (items : Plan) : Plan * list str :=
  match items with
  | [] => ([], [])
  | it :: rest =>
      let '(rest', errs_rest) := correct_items rids aids rest in
      if bool_decide (task_type it = WRITING) then
        let '(kept, errs) := correct_deps rids aids (item_id it) (dependencies it) in
        (set_dependencies kept it :: rest', errs ++ errs_rest)
      else (it :: rest', errs_rest)
  end.

Definition _validate_and_correct_plan (plan : Plan) : Plan * list str :=
  correct_items (research_task_ids plan) (all_task_ids plan) plan.

(** ** Exceptions and collaborator results

    The search, indexing and generation back ends are external; a call to one
    of them either returns a value or raises. *)

Inductive exn :=
| ValueError (msg : str)
| AttributeError (msg : str)
| Exception (msg : str).

(** [str(e)] *)
Definition str_of_exn (e : exn) : str :=
  match e with ValueError m | AttributeError m | Exception m => m end.

Inductive outcome (A : Type) :=
| Return (a : A)
| Raise (e : exn).
Arguments Return {A} a.
Arguments Raise {A} e.

#[global] Instance outcome_ret : MRet outcome := fun A a => Return a.

#[global] Instance outcome_bind : MBind outcome := fun A B k m =>
  match m with
  | Return a => k a
  | Raise e => Raise e
  end.

(** A search record as the executor sees it: an object that may or may not
    carry each attribute ([hasattr(res, 'snippet')]).  [tools/search_tools.py]
    returns [SearchResult] instances, which carry all three. *)
Record pyrecord := mkRecord {
  class_name : str;
  attr_title : option str;
  attr_url : option str;
  attr_snippet : option str
}.

Record SearchResult := mkSearchResult {
  sr_title : str;
  sr_url : str;
  sr_snippet : str
}.

Definition of_SearchResult (r : SearchResult) : pyrecord :=
  mkRecord (py "SearchResult") (Some (sr_title r)) (Some (sr_url r)) (Some (sr_snippet r)).

(** [res.name] *)
Definition getattr (res : pyrecord) (name : str) (field : option str) : outcome str :=
  match field with
  | Some v => Return v
  | None =>
      Raise (AttributeError (py "'" ++ class_name res ++ py "' object has no attribute '"
                               ++ name ++ py "'"))
  end.

(** ** The run state ([AgentState]) and node results

    A node returns a partial state; LangGraph writes each returned key into
    the state, adding to [error_log] (its reducer is [operator.add]) and
    replacing every other key. *)

Inductive ErrorEntry :=
| NodeError (node error : str)
| NodeErrors (node : str) (errors : list str).

Record Citation := mkCitation {
  number : nat;
  title : str;
  url : str
}.

(** A [dict] keeps its keys in insertion order. *)
Definition citation_map := list (str * Citation).

Record SharedContext := mkSharedContext {
  citations : citation_map;
  next_citation_number : nat
}.

Record AgentState := mkAgentState {
  input : str;
  overall_outline : option str;
  plan : Plan;
  final_answer : str;
  final_sources : list Citation;
  current_plan_item_id : option str;
  error_log : list ErrorEntry;
  shared_context : SharedContext
}.

Record StateUpdate := mkUpdate {
  upd_plan : option Plan;
  upd_overall_outline : option (option str);
  upd_current_plan_item_id : option (option str);
  upd_error_log : list ErrorEntry;
  upd_shared_context : option SharedContext;
  upd_final : option (str * list Citation)
}.

Definition no_update : StateUpdate := mkUpdate None None None [] None None.

Definition update_plan (p : Plan) : StateUpdate :=
  mkUpdate (Some p) None None [] None None.

Definition update_errors (es : list ErrorEntry) : StateUpdate :=
  mkUpdate None None None es None None.

Definition update_plan_errors (p : Plan) (es : list ErrorEntry) : StateUpdate :=
  mkUpdate (Some p) None None es None None.

Definition update_current (id : option str) : StateUpdate :=
  mkUpdate None None (Some id) [] None None.

Definition apply_update (u : StateUpdate) (s : AgentState) : AgentState :=
  mkAgentState
    (input s)
    (default (overall_outline s) (upd_overall_outline u))
    (default (plan s) (upd_plan u))
    (default (final_answer s) (fst <$> upd_final u))
    (default (final_sources s) (snd <$> upd_final u))
    (default (current_plan_item_id s) (upd_current_plan_item_id u))
    (error_log s ++ upd_error_log u)
    (default (shared_context s) (upd_shared_context u)).

(** [if not current_item_id]: [None] and the empty string are both false. *)
Definition truthy_id (id : option str) : option str :=
  match id with
  | Some (c :: s) => Some (c :: s)
  | _ => None
  end.

(** [_find_plan_item]: the first item with this id and its index. *)
Fixpoint find_from (i : nat) (plan : Plan) (id : str) : option (PlanItem * nat) :=
  match plan with
  | [] => None
  | it :: rest =>
      if bool_decide (item_id it = id) then Some (it, i)
      else find_from (S i) rest id
  end.

Definition _find_plan_item (plan : Plan) (id : str) : option (PlanItem * nat) :=
  find_from 0 plan id.

(** ** ResearchTaskRunner: [execute_research_task] *)

Definition research_node : str := py "execute_research_task".
Definition sentinel_no_information : str := py "没有找到相关信息。".
Definition snippet_separator : str := [10; 10]%N ++ py "---" ++ [10; 10]%N.

Definition snippet_block (url title snippet : str) : str :=
  py "来源: " ++ url ++ [10%N] ++ py "标题: " ++ title ++ [10%N] ++ py "片段: " ++ snippet.

(** The list comprehension over [search_results]: a record counts when it has
    a non-empty [snippet]; reading [url] or [title] off a record that lacks
    it raises. *)
Fixpoint build_snippets (results : list pyrecord) : outcome (list str) :=
  match results with
  | [] => Return []
  | res :: rest =>
      match attr_snippet res with
      | Some (c :: s) =>
          u ← getattr res (py "url") (attr_url res);
          t ← getattr res (py "title") (attr_title res);
          blocks ← build_snippets rest;
          Return (snippet_block u t (c :: s) :: blocks)
      | _ => build_snippets rest
      end
  end.

Definition raw_content_of (snippets : list str) : str :=
  match snippets with
  | [] => sentinel_no_information
  | _ => join snippet_separator snippets
  end.

Definition log_search_done (n : nat) : str :=
  py "成功执行搜索，获得 " ++ str_of_nat n ++ py " 条结果。".
Definition log_research_done : str := py "研究任务完成，已存储原始网页片段。".
Definition research_error_msg (desc : str) (e : exn) : str :=
  py "执行研究任务 '" ++ desc ++ py "' 时出错: " ++ str_of_exn e.

(** What the search and indexing collaborators answer to one task. *)
Record ResearchWorld := mkResearchWorld {
  search_invoke : str -> outcome (list pyrecord);
  add_search_results_to_index : list pyrecord -> str -> outcome unit
}.

(** The body of the [try] block, on the item already marked in progress.
    The item comes back with the exception because the log line of the search
    is appended before the later steps can raise. *)
Definition research_try (w : ResearchWorld) (id : str) (current_item : PlanItem)
  : PlanItem * option exn :=
  match search_invoke w (description current_item) with
  | Raise e => (current_item, Some e)
  | Return search_results =>
      let current_item := log_append (log_search_done (length search_results)) current_item in
      match add_search_results_to_index w search_results id with
      | Raise e => (current_item, Some e)
      | Return _ =>
          match build_snippets search_results with
          | Raise e => (current_item, Some e)
          | Return snippets =>
              (log_append log_research_done
                 (set_status completed (set_content (raw_content_of snippets) current_item)),
               None)
          end
      end
  end.

Definition execute_research_task (w : ResearchWorld) (state : AgentState) : StateUpdate :=
  match truthy_id (current_plan_item_id state) with
  | None => update_errors [NodeError research_node (py "current_plan_item_id 缺失")]
  | Some current_item_id =>
      match _find_plan_item (plan state) current_item_id with
      | None =>
          update_errors
            [NodeError research_node
               (py "未找到ID为 " ++ current_item_id ++ py " 的任务。")]
      | Some (item, item_index) =>
          let current_item := set_status in_progress item in
          match research_try w current_item_id current_item with
          | (done, None) => update_plan (<[item_index := done]> (plan state))
          | (partial, Some e) =>
              let failed_item :=
                log_append (research_error_msg (description item) e)
                  (set_status failed partial) in
              update_plan_errors (<[item_index := failed_item]> (plan state))
                [NodeError research_node (str_of_exn e)]
          end
      end
  end.

(** ** CitationRegistry: [_process_citations_and_update_state]

    The pattern is [\[ref:(https?://[^\s\]]+)\]].  [\s] on a [str] pattern is
    the Unicode white space of [str.isspace]. *)

Definition is_space (c : char) : bool :=
  ((9 <=? c) && (c <=? 13) || (28 <=? c) && (c <=? 32)
   || (c =? 133) || (c =? 160) || (c =? 5760)
   || (8192 <=? c) && (c <=? 8202)
   || (c =? 8232) || (c =? 8233) || (c =? 8239) || (c =? 8287) || (c =? 12288))%N.

(** [[^\s\]]] *)
Definition url_char (c : char) : bool := negb (is_space c) && negb (c =? 93)%N.

Fixpoint strip_prefix (p s : str) : option str :=
  match p, s with
  | [], _ => Some s
  | a :: p', b :: s' => if (a =? b)%N then strip_prefix p' s' else None
  | _ :: _, [] => None
  end.

(** The longest run of [url_char]s and what follows it. *)
Fixpoint span_url (s : str) : str * str :=
  match s with
  | c :: s' =>
      if url_char c then let '(u, r) := span_url s' in (c :: u, r) else ([], s)
  | [] => ([], [])
  end.

(** [://[^\s\]]+\]] at the head of [s].  The [+] is greedy; giving characters
    back cannot help, since the character after a shorter run is a
    [url_char], never the closing bracket. *)
Definition match_tail (s : str) : option (str * str) :=
  s1 ← strip_prefix (py "://") s;
  match span_url s1 with
  | (c :: body, b :: rest) =>
      if (b =? 93)%N then Some (py "://" ++ c :: body, rest) else None
  | _ => None
  end.

(** The whole pattern at the head of [s]: group 1 and the text after the
    match.  [s?] first tries to take the [s]. *)
Definition match_marker (s : str) : option (str * str) :=
  s1 ← strip_prefix (py "[ref:http") s;
  match strip_prefix (py "s") s1 ≫= match_tail with
  | Some (t, rest) => Some (py "https" ++ t, rest)
  | None => '(t, rest) ← match_tail s1; Some (py "http" ++ t, rest)
  end.

(** What the source lookup may hand back: a plain [dict] (key to inner dict),
    or an object that carries a [metadata] attribute. *)
Inductive pyobj :=
| PyDict (items : list (str * list (str * str)))
| PyNode (metadata : list (str * str)).

(** [LlamaIndexService.get_document_by_source_url]: [None] when the index is
    unset, otherwise a dict with one key, ["metadata"]. *)
Definition get_document_by_source_url (index_ready : bool) (url : str) : option pyobj :=
  if index_ready then
    Some (PyDict [(py "metadata",
                   [(py "title", py "搜索结果"); (py "url", url); (py "source", py "web")])])
  else None.

Definition unknown_title : str := py "未知标题".

(** [d.get(key, default)] *)
Fixpoint dict_get {V} (d : list (str * V)) (key : str) : option V :=
  match d with
  | [] => None
  | (k, v) :: rest => if bool_decide (k = key) then Some v else dict_get rest key
  end.

(** [source_node.metadata.get('title', '未知标题') if source_node else '未知标题'] *)
Definition resolve_title (source_node : option pyobj) : outcome str :=
  match source_node with
  | None => Return unknown_title
  | Some (PyDict []) => Return unknown_title
  | Some (PyDict (_ :: _)) =>
      Raise (AttributeError (py "'dict' object has no attribute 'metadata'"))
  | Some (PyNode metadata) => Return (default unknown_title (dict_get metadata (py "title")))
  end.

Definition citation_link (n : nat) (u : str) : str :=
  py "[" ++ str_of_nat n ++ py "](" ++ u ++ py ")".

Section Citations.
Variable get_document : str -> option pyobj.

(** The callback of [citation_pattern.sub], on the url of one match. *)
Definition replace_and_update_map (u : str) (sc : SharedContext)
  : outcome (str * SharedContext) :=
  match dict_get (citations sc) u with
  | Some c => Return (citation_link (number c) u, sc)
  | None =>
      t ← resolve_title (get_document u);
      let n := next_citation_number sc in
      Return (citation_link n u,
              mkSharedContext (citations sc ++ [(u, mkCitation n t u)]) (S n))
  end.

(** [citation_pattern.sub(replace_and_update_map, raw_content)]: the matches
    are taken left to right and do not overlap.  Every round consumes at
    least one character, so [length text] rounds are enough. *)
Fixpoint citation_sub (fuel : nat) (text : str) (sc : SharedContext)
  : outcome (str * SharedContext) :=
  match fuel, text with
  | O, _ => Return (text, sc)
  | _, [] => Return ([], sc)
  | S fuel', c :: tl =>
      match match_marker text with
      | Some (u, rest) =>
          '(link, sc1) ← replace_and_update_map u sc;
          '(out, sc2) ← citation_sub fuel' rest sc1;
          Return (link ++ out, sc2)
      | None =>
          '(out, sc1) ← citation_sub fuel' tl sc;
          Return (c :: out, sc1)
      end
  end.

Definition rewrite_citations (raw_content : str) (sc : SharedContext)
  : outcome (str * SharedContext) :=
  citation_sub (length raw_content) raw_content sc.

Definition _process_citations_and_update_state (raw_content : str)
    (updated_plan : Plan) (item_index : nat) (sc : SharedContext)
  : outcome StateUpdate :=
  '(processed_content, sc') ← rewrite_citations raw_content sc;
  let updated_plan :=
    alter (fun it => set_status completed (set_content processed_content it))
      item_index updated_plan in
  Return (mkUpdate (Some updated_plan) None None [] (Some sc') None).

End Citations.

(** ** WritingTaskRunner: [execute_writing_task] *)

Record AgentInput := mkAgentInput {
  ai_input : str;
  ai_task_description : str;
  ai_overall_outline : option str;
  ai_all_chapter_summaries : str;
  ai_previous_chapter_content : str;
  ai_revision_notes : str;
  ai_rag_scope : list str;
  ai_max_iterations : nat
}.

Definition is_writing (t : PlanItem) : bool := bool_decide (task_type t = WRITING).
Definition is_research (t : PlanItem) : bool := bool_decide (task_type t = RESEARCH).

Definition chapter_summary (t : PlanItem) : str :=
  py "章节目标: " ++ description t ++ [10%N] ++ py "核心内容摘要: " ++ content t.

Definition chapter_separator : str := [10; 10]%N ++ py "---" ++ [10; 10]%N.

Definition first_chapter_note : str := py "这是报告的第一章。".

Fixpoint index_of_id (i : nat) (tasks : Plan) (id : str) : option nat :=
  match tasks with
  | [] => None
  | t :: rest => if bool_decide (item_id t = id) then Some i else index_of_id (S i) rest id
  end.

Definition previous_chapter_content (plan : Plan) (current_item_id : str) : str :=
  let all_writing_tasks := List.filter is_writing plan in
  match index_of_id 0 all_writing_tasks current_item_id with
  | Some (S k) =>
      match all_writing_tasks !! k with
      | Some previous_task =>
          match _find_plan_item plan (item_id previous_task) with
          | Some (prev_item, _) =>
              if bool_decide (status prev_item = completed) then content prev_item
              else first_chapter_note
          | None => first_chapter_note
          end
      | None => first_chapter_note
      end
  | _ => first_chapter_note
  end.

Definition agent_input_of (state : AgentState) (item : PlanItem) (current_item_id : str)
  : AgentInput :=
  mkAgentInput (input state) (description item) (overall_outline state)
    (join chapter_separator (chapter_summary <$> List.filter is_writing (plan state)))
    (previous_chapter_content (plan state) current_item_id)
    [] (dependencies item) 7.

(** What the generation and source-lookup collaborators answer to one task. *)
Record WritingWorld := mkWritingWorld {
  agent_executor_invoke : AgentInput -> outcome str;
  get_document : str -> option pyobj
}.

Definition execute_writing_task (w : WritingWorld) (state : AgentState)
  : outcome StateUpdate :=
  match truthy_id (current_plan_item_id state) with
  | None => Raise (ValueError (py "execute_writing_task: current_plan_item_id 缺失。"))
  | Some current_item_id =>
      match _find_plan_item (plan state) current_item_id with
      | None =>
          Raise (ValueError (py "execute_writing_task: 未找到ID为 " ++ current_item_id
                               ++ py " 的任务。"))
      | Some (item, item_index) =>
          raw_content ← agent_executor_invoke w (agent_input_of state item current_item_id);
          _process_citations_and_update_state (get_document w) raw_content
            (plan state) item_index (shared_context state)
      end
  end.

(** ** ResultAssembler: [final_assembler] *)

Fixpoint insert_by_number (c : Citation) (l : list Citation) : list Citation :=
  match l with
  | [] => [c]
  | d :: rest =>
      if Nat.ltb (number c) (number d) then c :: d :: rest
      else d :: insert_by_number c rest
  end.

(** [sorted(citation_map.values(), key=lambda c: c['number'])]; the sort is
    stable. *)
Definition sorted_citations (m : citation_map) : list Citation :=
  foldr insert_by_number [] (snd <$> m).

Definition reference_line (c : Citation) : str :=
  py "[" ++ str_of_nat (number c) ++ py "] " ++ title c ++ py ". Available: " ++ url c.

Definition references_header : str := [10; 10]%N ++ py "---" ++ [10; 10]%N ++ py "## 参考文献".

Definition final_assembler (state : AgentState) : StateUpdate :=
  match citations (shared_context state) with
  | [] => mkUpdate None None None [] None (Some ([], []))
  | m =>
      let sorted := sorted_citations m in
      mkUpdate None None None [] None
        (Some (join [10%N] (references_header :: (reference_line <$> sorted)), sorted))
  end.

(** ** OrchestrationController: the nodes of [DeepSearchGraph] *)

Inductive LlmRequest :=
| ResearchSummarizerPrompt (topic search_results_content : str)
| OverallSummarizerPrompt (all_chapter_summaries : str).

Record RawItem := mkRawItem {
  raw_item_id : str;
  raw_task_type : str;
  raw_description : str;
  raw_dependencies : list str
}.

(** The planner's reply after [json.loads]: not JSON, or a plan and an
    outline. *)
Inductive PlannerReply :=
| InvalidJson
| PlanData (raw_plan_list : list RawItem) (overall_outline : str).

Definition complete_item_data (item : RawItem) : PlanItem :=
  mkPlanItem (raw_item_id item) (raw_task_type item) (raw_description item)
    (raw_dependencies item) pending [] None [] None 0.

Definition call_planner (reply : outcome PlannerReply) (state : AgentState)
  : outcome StateUpdate :=
  r ← reply;
  match r with
  | InvalidJson =>
      Return (mkUpdate (Some []) (Some (Some [])) None
                [NodeError (py "planner") (py "无法解析计划")] None None)
  | PlanData raw_plan_list outline =>
      let '(corrected_plan, validation_errors) :=
        _validate_and_correct_plan (complete_item_data <$> raw_plan_list) in
      let error_log :=
        match validation_errors with
        | [] => error_log state
        | _ => error_log state ++ [NodeErrors (py "planner_validator") validation_errors]
        end in
      Return (mkUpdate (Some corrected_plan) (Some (Some outline)) None error_log None None)
  end.

(** [next((task for task in plan if task_type == ty and status != "completed"), None)] *)
Definition eligible (ty : str) (task : PlanItem) : bool :=
  bool_decide (task_type task = ty) && negb (bool_decide (status task = completed)).

Definition next_task (ty : str) (plan : Plan) : option PlanItem :=
  List.find (eligible ty) plan.

Definition research_supervisor (state : AgentState) : StateUpdate :=
  update_current (item_id <$> next_task RESEARCH (plan state)).

Definition writing_supervisor (state : AgentState) : StateUpdate :=
  update_current (item_id <$> next_task WRITING (plan state)).

(** [dep_description], [dep_content]: the [next(..., '')] lookups of the
    summarizer. *)
Definition dep_field (f : PlanItem -> str) (plan : Plan) (dep_id : str) : str :=
  match _find_plan_item plan dep_id with
  | Some (p, _) => f p
  | None => []
  end.

Definition research_content_of (plan : Plan) (deps : list str) : list str :=
  (fun dep_id =>
     py "研究任务 '" ++ dep_field description plan dep_id ++ py "':" ++ [10%N]
       ++ dep_field content plan dep_id) <$> deps.

(** [any(research_content)] *)
Definition any_truthy (l : list str) : bool := existsb truthy l.

Definition no_material_stub (desc : str) : str :=
  py "本章旨在探讨 '" ++ desc ++ py "'，但未能找到相关的研究资料。".

(** The loop of [call_plan_summarizer] over the indices still to visit.  The
    items are updated as the loop goes, and later lookups read the updated
    ones. *)
Fixpoint summarize_loop (llm : nat -> LlmRequest -> outcome str)
    (todo : list nat) (updated_plan : Plan) : outcome Plan :=
  match todo with
  | [] => Return updated_plan
  | i :: rest =>
      match updated_plan !! i with
      | None => summarize_loop llm rest updated_plan
      | Some item =>
          if is_writing item then
            let research_content := research_content_of updated_plan (dependencies item) in
            if negb (any_truthy research_content) then
              summarize_loop llm rest
                (<[i := set_content (no_material_stub (description item)) item]> updated_plan)
            else
              response ← llm i (ResearchSummarizerPrompt (description item)
                                  (join [10; 10]%N research_content));
              summarize_loop llm rest (<[i := set_content response item]> updated_plan)
          else summarize_loop llm rest updated_plan
      end
  end.

Definition call_plan_summarizer (llm : nat -> LlmRequest -> outcome str)
    (state : AgentState) : outcome StateUpdate :=
  updated_plan ← summarize_loop llm (seq 0 (length (plan state))) (plan state);
  Return (update_plan updated_plan).

Definition generate_overall_summary (llm : nat -> LlmRequest -> outcome str)
    (state : AgentState) : outcome StateUpdate :=
  match List.filter is_writing (plan state) with
  | [] => Return no_update
  | all_writing_tasks =>
      response ← llm 0 (OverallSummarizerPrompt
                          (join chapter_separator (chapter_summary <$> all_writing_tasks)));
      Return (mkUpdate None (Some (Some response)) None [] None None)
  end.

(** ** The graph ([_build_graph]) *)

Inductive node :=
| n_planner
| n_research_supervisor
| n_research_executor
| n_plan_summarizer
| n_generate_overall_summary
| n_writing_supervisor
| n_writing_executor
| n_final_assembler
| n_END.

#[global] Instance node_eq_dec : EqDecision node.
Proof. solve_decision. Defined.

Definition route_research_action (state : AgentState) : node :=
  match truthy_id (current_plan_item_id state) with
  | Some _ => n_research_executor
  | None => n_plan_summarizer
  end.

Definition route_writing_action (state : AgentState) : node :=
  match truthy_id (current_plan_item_id state) with
  | Some _ => n_writing_executor
  | None => n_final_assembler
  end.

(** The edges: where the run goes after node [n] has left state [state]. *)
Definition next_node (n : node) (state : AgentState) : node :=
  match n with
  | n_planner => n_research_supervisor
  | n_research_supervisor => route_research_action state
  | n_research_executor => n_research_supervisor
  | n_plan_summarizer => n_generate_overall_summary
  | n_generate_overall_summary => n_writing_supervisor
  | n_writing_supervisor => route_writing_action state
  | n_writing_executor => n_writing_supervisor
  | n_final_assembler => n_END
  | n_END => n_END
  end.

(** The collaborators of a whole run.  The step number tells one call of a
    node from the next, so that a collaborator may fail now and answer
    later. *)
Record World := mkWorld {
  planner_reply : str -> outcome PlannerReply;
  llm_invoke : nat -> nat -> LlmRequest -> outcome str;
  research_world : nat -> ResearchWorld;
  writing_world : nat -> WritingWorld
}.

Definition run_node (w : World) (t : nat) (n : node) (state : AgentState)
  : outcome StateUpdate :=
  match n with
  | n_planner => call_planner (planner_reply w (input state)) state
  | n_research_supervisor => Return (research_supervisor state)
  | n_research_executor => Return (execute_research_task (research_world w t) state)
  | n_plan_summarizer => call_plan_summarizer (llm_invoke w t) state
  | n_generate_overall_summary => generate_overall_summary (llm_invoke w t) state
  | n_writing_supervisor => Return (writing_supervisor state)
  | n_writing_executor => execute_writing_task (writing_world w t) state
  | n_final_assembler => Return (final_assembler state)
  | n_END => Return no_update
  end.

Record config := mkConfig {
  clock : nat;
  at_node : node;
  state_of : AgentState
}.

(** One node runs at a time: the graph has a single active node after every
    step. *)
Definition step (w : World) (c : config) : outcome config :=
  u ← run_node w (clock c) (at_node c) (state_of c);
  let state' := apply_update u (state_of c) in
  Return (mkConfig (S (clock c)) (next_node (at_node c) state') state').

Inductive run_result :=
| Finished (state : AgentState)
| Faulted (e : exn)
| Running (c : config).

(** [app.ainvoke]: steps until [END]; an exception of a node ends the run.
    [fuel] bounds the number of steps looked at. *)
Fixpoint run (w : World) (fuel : nat) (c : config) : run_result :=
  match at_node c with
  | n_END => Finished (state_of c)
  | _ =>
      match fuel with
      | O => Running c
      | S fuel' =>
          match step w c with
          | Raise e => Faulted e
          | Return c' => run w fuel' c'
          end
      end
  end.

(** ** The invocation surface: [DeepSearchAgent.search_and_generate_report] *)

Record Report := mkReport {
  success : bool;
  error : option str;
  report : str;
  sources : list Citation;
  outline : option str;
  report_plan : Plan;
  errors : list ErrorEntry
}.

Definition initial_state (query : str) : AgentState :=
  mkAgentState query None [] [] [] None [] (mkSharedContext [] 1).

Definition initial_config (query : str) : config :=
  mkConfig 0 n_planner (initial_state query).

Definition report_of (r : run_result) : option Report :=
  match r with
  | Finished result =>
      Some (mkReport true None (final_answer result) (final_sources result)
              (overall_outline result) (plan result) (error_log result))
  | Faulted e =>
      Some (mkReport false (Some (str_of_exn e)) [] [] (Some []) []
              [NodeError (py "main") (str_of_exn e)])
  | Running _ => None
  end.

Definition search_and_generate_report (w : World) (fuel : nat) (query : str)
  : option Report :=
  report_of (run w fuel (initial_config query)).

(** ** The plan as Python holds it: dicts and lists behind references

    A plan is a list of references to dict objects; the [execution_log] of a
    dict is a reference to a list object.  [list(plan)] copies the list of
    references, [p.copy()] makes a new dict whose fields hold the same values,
    so the same log list.  A [dependencies] list is only ever replaced by a
    new one, never changed in place, and is kept as a value. *)

Module Store.

Definition loc := nat.

Record item_obj := mkObj {
  o_item_id : str;
  o_task_type : str;
  o_description : str;
  o_dependencies : list str;
  o_status : Status;
  o_content : str;
  o_summary : option str;
  o_execution_log : loc;
  o_evaluation_results : option str;
  o_attempt_count : nat
}.

Record heap := mkHeap {
  dicts : gmap loc item_obj;
  lists : gmap loc (list str)
}.

Definition plan_ref := list loc.

(** A computation on the heap; [None] stands for a dangling reference. *)
Definition H (A : Type) : Type := heap -> option (A * heap).

Definition hret {A} (a : A) : H A := fun h => Some (a, h).

Definition hbind {A B} (m : H A) (k : A -> H B) : H B :=
  fun h => match m h with
           | Some (a, h') => k a h'
           | None => None
           end.

Notation "'let*' x ':=' m 'in' k" := (hbind m (fun x => k))
  (at level 10, x pattern, m at level 100, k at level 200).

Definition get_dict (l : loc) : H item_obj :=
  fun h => o ← dicts h !! l; Some (o, h).

Definition put_dict (l : loc) (o : item_obj) : H unit :=
  fun h => Some (tt, mkHeap (<[l := o]> (dicts h)) (lists h)).

Definition get_list (l : loc) : H (list str) :=
  fun h => v ← lists h !! l; Some (v, h).

(** [lst.append(x)] on the list object at [l]. *)
Definition list_append (l : loc) (x : str) : H unit :=
  fun h => v ← lists h !! l; Some (tt, mkHeap (dicts h) (<[l := v ++ [x]]> (lists h))).

Definition new_dict (o : item_obj) : H loc :=
  fun h => let l := fresh (dom (dicts h)) in
           Some (l, mkHeap (<[l := o]> (dicts h)) (lists h)).

Definition new_list (v : list str) : H loc :=
  fun h => let l := fresh (dom (lists h)) in
           Some (l, mkHeap (dicts h) (<[l := v]> (lists h))).

(** [p.copy()] *)
Definition copy_dict (l : loc) : H loc :=
  let* o := get_dict l in new_dict o.

Fixpoint hmap {A B} (f : A -> H B) (l : list A) : H (list B) :=
  match l with
  | [] => hret []
  | a :: rest => let* b := f a in let* bs := hmap f rest in hret (b :: bs)
  end.

(** [d[k] = v] on the dict object at [l]. *)
Definition o_set_dependencies (ds : list str) (o : item_obj) : item_obj :=
  mkObj (o_item_id o) (o_task_type o) (o_description o) ds (o_status o) (o_content o)
    (o_summary o) (o_execution_log o) (o_evaluation_results o) (o_attempt_count o).

Definition o_set_status (st : Status) (o : item_obj) : item_obj :=
  mkObj (o_item_id o) (o_task_type o) (o_description o) (o_dependencies o) st (o_content o)
    (o_summary o) (o_execution_log o) (o_evaluation_results o) (o_attempt_count o).

Definition o_set_content (c : str) (o : item_obj) : item_obj :=
  mkObj (o_item_id o) (o_task_type o) (o_description o) (o_dependencies o) (o_status o) c
    (o_summary o) (o_execution_log o) (o_evaluation_results o) (o_attempt_count o).

Definition modify_dict (f : item_obj -> item_obj) (l : loc) : H unit :=
  let* o := get_dict l in put_dict l (f o).

(** What a reader of the snapshot sees: the item behind a reference, its log
    read through. *)
Definition read_item (l : loc) : H PlanItem :=
  let* o := get_dict l in
  let* log := get_list (o_execution_log o) in
  hret (mkPlanItem (o_item_id o) (o_task_type o) (o_description o) (o_dependencies o)
          (o_status o) (o_content o) (o_summary o) log (o_evaluation_results o)
          (o_attempt_count o)).

Definition read_plan (p : plan_ref) : H Plan := hmap read_item p.

(** The snapshot [p] as seen in heap [h]. *)
Definition snapshot (h : heap) (p : plan_ref) : option Plan := fst <$> read_plan p h.

(** Building a plan in an empty heap, one fresh dict and one fresh log list per
    item, as [call_planner] does. *)
Definition store_item (it : PlanItem) : H loc :=
  let* log := new_list (execution_log it) in
  new_dict (mkObj (item_id it) (task_type it) (description it) (dependencies it)
              (status it) (content it) (summary it) log (evaluation_results it)
              (attempt_count it)).

Definition store_plan (items : Plan) : H plan_ref := hmap store_item items.

Definition empty_heap : heap := mkHeap ∅ ∅.

(** *** [_validate_and_correct_plan] on references *)

Fixpoint correct_items_ref (rids aids : gset str) (corrected_plan : plan_ref) : H (list str) :=
  match corrected_plan with
  | [] => hret []
  | l :: rest =>
      let* item := get_dict l in
      let* errs :=
        (if bool_decide (o_task_type item = WRITING) then
           let '(corrected_deps, errs) :=
             correct_deps rids aids (o_item_id item) (o_dependencies item) in
           let* _ := modify_dict (o_set_dependencies corrected_deps) l in
           hret errs
         else hret []) in
      let* errs_rest := correct_items_ref rids aids rest in
      hret (errs ++ errs_rest)
  end.

Definition _validate_and_correct_plan_ref (plan : plan_ref) : H (plan_ref * list str) :=
  let corrected_plan := plan in
  let* items := hmap get_dict corrected_plan in
  let rids : gset str :=
    list_to_set (o_item_id <$> List.filter (fun o => bool_decide (o_task_type o = RESEARCH)) items) in
  let aids : gset str := list_to_set (o_item_id <$> items) in
  let* errors := correct_items_ref rids aids corrected_plan in
  hret (corrected_plan, errors).

(** *** [execute_research_task] on references *)

Fixpoint find_ref (i : nat) (plan : plan_ref) (id : str) : H (option (loc * nat)) :=
  match plan with
  | [] => hret None
  | l :: rest =>
      let* item := get_dict l in
      if bool_decide (o_item_id item = id) then hret (Some (l, i))
      else find_ref (S i) rest id
  end.

Record update_ref := mkUpdateRef {
  ref_plan : option plan_ref;
  ref_error_log : list ErrorEntry
}.

(** The body of the [try] block on the copied dict at [cur]; the exception, if
    one was raised, is handed to the handler. *)
Definition research_try_ref (w : ResearchWorld) (id : str) (cur : loc) : H (option exn) :=
  let* current_item := get_dict cur in
  match search_invoke w (o_description current_item) with
  | Raise e => hret (Some e)
  | Return search_results =>
      let* _ := list_append (o_execution_log current_item)
                  (log_search_done (length search_results)) in
      match add_search_results_to_index w search_results id with
      | Raise e => hret (Some e)
      | Return _ =>
          match build_snippets search_results with
          | Raise e => hret (Some e)
          | Return snippets =>
              let* _ := modify_dict (o_set_content (raw_content_of snippets)) cur in
              let* _ := modify_dict (o_set_status completed) cur in
              let* _ := list_append (o_execution_log current_item) log_research_done in
              hret None
          end
      end
  end.

Definition execute_research_task_ref (w : ResearchWorld)
    (plan : plan_ref) (current_plan_item_id : option str) : H update_ref :=
  match truthy_id current_plan_item_id with
  | None =>
      hret (mkUpdateRef None [NodeError research_node (py "current_plan_item_id 缺失")])
  | Some current_item_id =>
      let* found := find_ref 0 plan current_item_id in
      match found with
      | None =>
          hret (mkUpdateRef None
                  [NodeError research_node
                     (py "未找到ID为 " ++ current_item_id ++ py " 的任务。")])
      | Some (item, item_index) =>
          let* updated_plan := hmap copy_dict plan in
          match updated_plan !! item_index with
          | None => fun _ => None
          | Some cur =>
              let* _ := modify_dict (o_set_status in_progress) cur in
              let* raised := research_try_ref w current_item_id cur in
              match raised with
              | None => hret (mkUpdateRef (Some updated_plan) [])
              | Some e =>
                  let* o := get_dict item in
                  let* _ := modify_dict (o_set_status failed) cur in
                  let* c := get_dict cur in
                  let* _ := list_append (o_execution_log c)
                              (research_error_msg (o_description o) e) in
                  hret (mkUpdateRef (Some updated_plan)
                          [NodeError research_node (str_of_exn e)])
              end
          end
      end
  end.

(** *** [call_plan_summarizer] on references *)

Fixpoint dep_field_ref (f : item_obj -> str) (plan : plan_ref) (dep_id : str) : H str :=
  match plan with
  | [] => hret []
  | l :: rest =>
      let* p := get_dict l in
      if bool_decide (o_item_id p = dep_id) then hret (f p)
      else dep_field_ref f rest dep_id
  end.

Definition research_content_ref (plan : plan_ref) (deps : list str) : H (list str) :=
  hmap (fun dep_id =>
          let* d := dep_field_ref o_description plan dep_id in
          let* c := dep_field_ref o_content plan dep_id in
          hret (py "研究任务 '" ++ d ++ py "':" ++ [10%N] ++ c)) deps.

(** The loop; an exception of the model call leaves the heap as the loop had
    it by then. *)
Fixpoint summarize_loop_ref (llm : nat -> LlmRequest -> outcome str)
    (updated_plan : plan_ref) (i : nat) (todo : plan_ref) : H (option exn) :=
  match todo with
  | [] => hret None
  | l :: rest =>
      let* item := get_dict l in
      if bool_decide (o_task_type item = WRITING) then
        let* research_content := research_content_ref updated_plan (o_dependencies item) in
        if negb (any_truthy research_content) then
          let* _ := modify_dict (o_set_content (no_material_stub (o_description item))) l in
          summarize_loop_ref llm updated_plan (S i) rest
        else
          match llm i (ResearchSummarizerPrompt (o_description item)
                         (join [10; 10]%N research_content)) with
          | Raise e => hret (Some e)
          | Return response =>
              let* _ := modify_dict (o_set_content response) l in
              summarize_loop_ref llm updated_plan (S i) rest
          end
      else summarize_loop_ref llm updated_plan (S i) rest
  end.

Definition call_plan_summarizer_ref (llm : nat -> LlmRequest -> outcome str)
    (plan : plan_ref) : H (outcome plan_ref) :=
  let updated_plan := plan in
  let* raised := summarize_loop_ref llm updated_plan 0 updated_plan in
  match raised with
  | None => hret (Return updated_plan)
  | Some e => hret (Raise e)
  end.

(** *** [execute_writing_task] on references: the plan part

    The generated text is handed in already rewritten; the citation registry
    is not part of the plan. *)
Definition execute_writing_task_ref (processed_content : str)
    (plan : plan_ref) (current_plan_item_id : option str) : H (outcome plan_ref) :=
  match truthy_id current_plan_item_id with
  | None => hret (Raise (ValueError (py "execute_writing_task: current_plan_item_id 缺失。")))
  | Some current_item_id =>
      let* found := find_ref 0 plan current_item_id in
      match found with
      | None =>
          hret (Raise (ValueError (py "execute_writing_task: 未找到ID为 " ++ current_item_id
                                     ++ py " 的任务。")))
      | Some (_, item_index) =>
          let* updated_plan := hmap copy_dict plan in
          match updated_plan !! item_index with
          | None => fun _ => None
          | Some cur =>
              let* _ := modify_dict (o_set_content processed_content) cur in
              let* _ := modify_dict (o_set_status completed) cur in
              hret (Return updated_plan)
          end
      end
  end.

End Store.

(** ** The words of the specification

    The vocabulary the statements of Part II use: what it means for a
    dependency id to exist in a plan and to name a research task, and the plan
    and the errors the validator is specified to give. *)

Definition exists_in_plan (P : Plan) (d : str) : Prop :=
  Exists (fun it => item_id it = d) P.

Definition names_research (P : Plan) (d : str) : Prop :=
  Exists (fun it => item_id it = d ∧ task_type it = RESEARCH) P.

Definition names_non_research (P : Plan) (d : str) : Prop :=
  Exists (fun it => item_id it = d ∧ task_type it ≠ RESEARCH) P.

#[global] Instance exists_in_plan_dec P d : Decision (exists_in_plan P d).
Proof. unfold exists_in_plan. apply _. Defined.

#[global] Instance names_research_dec P d : Decision (names_research P d).
Proof. unfold names_research. apply _. Defined.

(** Item ids are keys: no two items of the plan share one. *)
Definition unique_ids (P : Plan) : Prop := NoDup (item_id <$> P).

(** The error recorded for a dropped id. *)
Definition dep_error (P : Plan) (wid d : str) : str :=
  if decide (exists_in_plan P d) then err_not_research wid d else err_missing d.

(** The item a WRITING item is corrected to: its dependencies that name a
    research task of [P], in order.  Any other item stays as it is. *)
Definition validated_item (P : Plan) (it : PlanItem) : PlanItem :=
  if decide (task_type it = WRITING) then
    set_dependencies (filter (names_research P) (dependencies it)) it
  else it.

(** One error per dropped id, in order. *)
Definition validation_errors (P : Plan) (it : PlanItem) : list str :=
  if decide (task_type it = WRITING) then
    dep_error P (item_id it) <$> filter (fun d => ¬ names_research P d) (dependencies it)
  else [].

Definition scenario_r1 : PlanItem :=
  mkPlanItem (py "r1") RESEARCH (py "background") [] pending [] None [] None 0.

Definition scenario_w1 : PlanItem :=
  mkPlanItem (py "w1") WRITING (py "chapter one") [py "r1"; py "ghost"] pending []
    None [] None 0.

(** The current-item precondition of both executors fails: the id is absent
    (or empty), or it names no item of the plan. *)
Definition current_item_missing (state : AgentState) : Prop :=
  match truthy_id (current_plan_item_id state) with
  | None => True
  | Some id => _find_plan_item (plan state) id = None
  end.

(** One of the three steps of a research task raises [e]: the search, or the
    indexing of its records, or the building of the content. *)
Definition research_step_raises (w : ResearchWorld) (id desc : str) (e : exn) : Prop :=
  search_invoke w desc = Raise e
  ∨ (∃ rs, search_invoke w desc = Return rs
           ∧ add_search_results_to_index w rs id = Raise e)
  ∨ (∃ rs, search_invoke w desc = Return rs
           ∧ add_search_results_to_index w rs id = Return ()
           ∧ build_snippets rs = Raise e).

(** The content the specification gives a finished research task: one block
    per record with a non-empty snippet, joined by the separator, or the
    sentinel when no record has one. *)
Definition has_snippet (r : SearchResult) : Prop := sr_snippet r ≠ [].

#[global] Instance has_snippet_dec r : Decision (has_snippet r).
Proof. unfold has_snippet. apply _. Defined.

Definition research_content (results : list SearchResult) : str :=
  match filter has_snippet results with
  | [] => sentinel_no_information
  | rs => join snippet_separator
            ((fun r => snippet_block (sr_url r) (sr_title r) (sr_snippet r)) <$> rs)
  end.

(** [n] steps of the graph. *)
Fixpoint steps (w : World) (n : nat) (c : config) : outcome config :=
  match n with
  | O => Return c
  | S n' => c' ← step w c; steps w n' c'
  end.

(** ** Collaborators for the examples *)

Definition search_returns (rs : list pyrecord) : ResearchWorld :=
  mkResearchWorld (fun _ => Return rs) (fun _ _ => Return ()).

Definition search_fails (e : exn) : ResearchWorld :=
  mkResearchWorld (fun _ => Raise e) (fun _ _ => Return ()).

Definition agent_writes (text : str) (index_ready : bool) : WritingWorld :=
  mkWritingWorld (fun _ => Return text) (get_document_by_source_url index_ready).

Definition agent_fails (e : exn) (index_ready : bool) : WritingWorld :=
  mkWritingWorld (fun _ => Raise e) (get_document_by_source_url index_ready).

Definition timeout_error : exn := Exception (py "search timed out").

Definition state_with (p : Plan) (cur : option str) : AgentState :=
  mkAgentState (py "query") None p [] [] cur [] (mkSharedContext [] 1).

(** ** Example runs *)

Definition citation_scenario : str :=
  py "See [ref:https://a.com] and [ref:https://b.com] and again [ref:https://a.com]".

Definition fresh_registry : SharedContext := mkSharedContext [] 1.

Definition scenario_chapter : PlanItem :=
  mkPlanItem (py "w1") WRITING (py "chapter one") [] pending [] None [] None 0.

(** A world whose planner plans [raw], whose searches find nothing, whose
    model answers [py "summary"] and whose writer answers [text] or raises. *)
Definition demo_world (raw : list RawItem) (writer : outcome str) (index_ready : bool)
  : World :=
  mkWorld (fun _ => Return (PlanData raw (py "outline")))
          (fun _ _ _ => Return (py "summary"))
          (fun _ => search_returns [])
          (fun _ => mkWritingWorld (fun _ => writer)
                      (get_document_by_source_url index_ready)).

Definition raw_chapter : RawItem := mkRawItem (py "w1") WRITING (py "chapter one") [].

Definition generation_error : exn := Exception (py "model unavailable").

(** A research item whose id is the empty string, and a chapter that depends
    on it. *)
Definition raw_unnamed_research : RawItem := mkRawItem [] RESEARCH (py "background") [].
Definition raw_dependent_chapter : RawItem :=
  mkRawItem (py "w1") WRITING (py "chapter one") [[]].

Definition unnamed_research : PlanItem := complete_item_data raw_unnamed_research.
Definition dependent_chapter : PlanItem := complete_item_data raw_dependent_chapter.

Definition failed_r1 : PlanItem := set_status failed scenario_r1.

Definition chapter_on_r1 : PlanItem :=
  mkPlanItem (py "w1") WRITING (py "chapter one") [py "r1"] pending [] None [] None 0.

Definition model_says_summary : nat -> LlmRequest -> outcome str :=
  fun _ _ => Return (py "summary").

Definition attribute_error_metadata : exn :=
  AttributeError (py "'dict' object has no attribute 'metadata'").

Definition url_a : str := py "https://a.com".
Definition url_b : str := py "https://b.com".


(* ===================================================================== *)
(** * Part I, continued. Definitions for the further properties           *)
(* ===================================================================== *)

From Stdlib Require Import Sorted.

(** ** The registry's numbering, in the words of the specification

    A text read as the pattern reads it: the characters outside the markers
    and the urls of the markers, left to right. *)

Inductive token :=
| Lit (c : char)
| Marker (u : str).

Fixpoint tokenize (fuel : nat) (text : str) : list token :=
  match fuel, text with
  | O, _ => Lit <$> text
  | _, [] => []
  | S fuel', c :: tl =>
      match match_marker text with
      | Some (u, rest) => Marker u :: tokenize fuel' rest
      | None => Lit c :: tokenize fuel' tl
      end
  end.

Definition tokens (text : str) : list token := tokenize (length text) text.

Definition marker_urls (toks : list token) : list str :=
  omap (fun t => match t with Marker u => Some u | Lit _ => None end) toks.

(** The urls of the markers of a text, in order, with repetitions. *)
Definition markers (text : str) : list str := marker_urls (tokens text).

(** The number the registry holds for a url. *)
Definition number_of (m : citation_map) (u : str) : nat :=
  match dict_get m u with
  | Some c => number c
  | None => 0
  end.

(** The text with every marker replaced by the link that carries the number
    registry [m] holds for its url. *)
Definition render (m : citation_map) (toks : list token) : str :=
  concat ((fun t => match t with
                    | Lit c => [c]
                    | Marker u => citation_link (number_of m u) u
                    end) <$> toks).

(** First sight: a url joins the end of the known urls unless it is known. *)
Definition note (known : list str) (u : str) : list str :=
  if decide (u ∈ known) then known else known ++ [u].

Definition known_urls (sc : SharedContext) : list str := fst <$> citations sc.

(** The invariant of the registry: the numbers of its entries, in insertion
    order, are 1, 2, ..., the counter is the next one, no url has two entries,
    and every entry records its own url. *)
Definition registry_ok (sc : SharedContext) : Prop :=
  next_citation_number sc = S (length (citations sc))
  ∧ (fun e => number (snd e)) <$> citations sc = seq 1 (length (citations sc))
  ∧ NoDup (known_urls sc)
  ∧ Forall (fun e => url (snd e) = fst e) (citations sc).

(** A registry extends another: it has the same entries, then new ones. *)
Definition extends (sc sc' : SharedContext) : Prop :=
  ∃ new, citations sc' = citations sc ++ new.

(** A source lookup the callback can read a title from: [None], an empty
    dict, or an object with [metadata], never a dict with keys. *)
Definition answers_title (get_document : str -> option pyobj) : Prop :=
  ∀ u, ∃ t, resolve_title (get_document u) = Return t.

(** The rewrite calls of one run, in order, on the registry they share. *)
Fixpoint rewrite_all (get_document : str -> option pyobj) (texts : list str)
    (sc : SharedContext) : outcome (list str * SharedContext) :=
  match texts with
  | [] => Return ([], sc)
  | text :: rest =>
      '(out, sc1) ← rewrite_citations get_document text sc;
      '(outs, sc2) ← rewrite_all get_document rest sc1;
      Return (out :: outs, sc2)
  end.

(** The order of the reference list: ascending numbers. *)
Definition by_number (c d : Citation) : Prop := number c ≤ number d.

(** An item as another one with, at most, a new content. *)
Definition restaged (a b : PlanItem) : Prop := b = set_content (content b) a.

(** What a transition leaves of an item whatever it does to it: its id, type,
    description and dependencies, and the fields no transition writes. *)
Definition same_task (a b : PlanItem) : Prop :=
  item_id b = item_id a ∧ task_type b = task_type a
  ∧ description b = description a ∧ dependencies b = dependencies a
  ∧ summary b = summary a ∧ evaluation_results b = evaluation_results a
  ∧ attempt_count b = attempt_count a.

(** ** Phases of a run *)

(** Every task of type [ty] is completed. *)
Definition all_completed (ty : str) (P : Plan) : Prop :=
  ∀ it, it ∈ P → task_type it = ty → status it = completed.

(** No item has the empty id. *)
Definition ids_nonempty (P : Plan) : Prop := ∀ it, it ∈ P → item_id it ≠ [].

(** The nodes after the research loop, and the nodes after the writing
    loop. *)
Definition past_research (n : node) : bool :=
  match n with
  | n_planner | n_research_supervisor | n_research_executor => false
  | _ => true
  end.

Definition past_writing (n : node) : bool :=
  match n with
  | n_final_assembler | n_END => true
  | _ => false
  end.

(** The state an executor is entered in: the current item id is the id of the
    first unfinished task of the executor's type. *)
Definition dispatched (ty : str) (state : AgentState) : Prop :=
  ∃ t, next_task ty (plan state) = Some t
       ∧ current_plan_item_id state = Some (item_id t).

Definition phase_invariant (c : config) : Prop :=
  ids_nonempty (plan (state_of c))
  ∧ (past_research (at_node c) = true → all_completed RESEARCH (plan (state_of c)))
  ∧ (past_writing (at_node c) = true → all_completed WRITING (plan (state_of c)))
  ∧ (at_node c = n_research_executor → dispatched RESEARCH (state_of c))
  ∧ (at_node c = n_writing_executor → dispatched WRITING (state_of c)).

(** The planner gives every task an id that is not empty. *)
Definition plans_named_tasks (W : World) : Prop :=
  ∀ query raw outline,
    planner_reply W query = Return (PlanData raw outline) →
    Forall (fun r => raw_item_id r ≠ []) raw.

Definition raw_r1 : RawItem := mkRawItem (py "r1") RESEARCH (py "background") [].

(** Two plans with the same tasks: item by item the same id and type. *)
Definition same_tasks_as (P P' : Plan) : Prop :=
  Forall2 (fun a b => item_id b = item_id a ∧ task_type b = task_type a) P P'.

(** ... and no completed item loses its status. *)
Definition keeps_completed (P P' : Plan) : Prop :=
  Forall2 (fun a b => item_id b = item_id a ∧ task_type b = task_type a
                      ∧ (status a = completed → status b = completed)) P P'.

(** ** A run with collaborators that answer *)

(** Every search returns result records, every indexing call returns, every
    model call and every generation returns a text, and the source lookup
    yields titles the callback can read. *)
Definition reliable (W : World) : Prop :=
  (∀ t desc, ∃ results : list SearchResult,
      search_invoke (research_world W t) desc = Return (of_SearchResult <$> results))
  ∧ (∀ t rs id, add_search_results_to_index (research_world W t) rs id = Return ())
  ∧ (∀ t i req, ∃ s, llm_invoke W t i req = Return s)
  ∧ (∀ t inp, ∃ s, agent_executor_invoke (writing_world W t) inp = Return s)
  ∧ (∀ t, answers_title (get_document (writing_world W t))).

(** The tasks of type [ty] the loop of that type still has to run. *)
Definition unfinished (ty : str) (P : Plan) : nat := length (List.filter (eligible ty) P).

(** The plan the planner node stores for the items of the model's reply. *)
Definition planned (raw : list RawItem) : Plan :=
  (_validate_and_correct_plan (complete_item_data <$> raw)).1.

(** The number of tasks an executor exists for. *)
Definition executable_tasks (P : Plan) : nat :=
  length (List.filter is_research P) + length (List.filter is_writing P).

(** A second chapter, for the examples. *)
Definition scenario_chapter_two : PlanItem :=
  mkPlanItem (py "w2") WRITING (py "chapter two") [] pending [] None [] None 0.

(** ** Text helpers of the standard library the code calls *)

(** [s.lstrip()], [s.rstrip()] and [s.strip()]: the white space of
    [str.isspace] taken off the ends. *)
Fixpoint lstrip (s : str) : str :=
  match s with
  | c :: s' => if is_space c then lstrip s' else s
  | [] => []
  end.

Fixpoint rstrip (s : str) : str :=
  match s with
  | [] => []
  | c :: s' =>
      match rstrip s' with
      | [] => if is_space c then [] else [c]
      | r => c :: r
      end
  end.

Definition strip (s : str) : str := rstrip (lstrip s).

(** ** BaseLLM ([llms/base.py]) *)

Definition no_valid_reply : str := py "抱歉，我无法生成有效的回复。".

(** [validate_response]; [None] stands for a response that is [None]. *)
Definition validate_response (response : option str) : str :=
  match response with
  | None => no_valid_reply
  | Some r =>
      if negb (truthy r) || negb (truthy (strip r)) then no_valid_reply
      else strip r
  end.

(** ** [_clean_json_from_llm]

    The pattern, with [re.DOTALL]: a fence of three backticks, an optional
    [json], a greedy group of any characters, and a fence. *)

Definition fence : str := py "```".

(** The group and the closing fence at the head of [s]: group 1.  The star
    is greedy, so the group is the longest prefix that a fence follows. *)
Fixpoint match_group (s : str) : option str :=
  match s with
  | [] => None
  | c :: s' =>
      match match_group s' with
      | Some g => Some (c :: g)
      | None => match strip_prefix fence s with Some _ => Some [] | None => None end
      end
  end.

(** The whole pattern at the head of [s].  The optional [json] is first
    taken, and given back when the rest cannot match then. *)
Definition match_fenced (s : str) : option str :=
  s1 ← strip_prefix fence s;
  match strip_prefix (py "json") s1 ≫= match_group with
  | Some g => Some g
  | None => match_group s1
  end.

(** [re.search]: the match at the leftmost position that has one. *)
Fixpoint re_search_fenced (s : str) : option str :=
  match match_fenced s with
  | Some g => Some g
  | None =>
      match s with
      | [] => None
      | _ :: s' => re_search_fenced s'
      end
  end.

Definition _clean_json_from_llm (llm_output : str) : str :=
  match re_search_fenced llm_output with
  | Some group1 => strip group1
  | None => strip llm_output
  end.

Definition backtick : char := 96%N.

(** The body of a fenced block without the tag the pattern takes off. *)
Definition drop_json (body : str) : str :=
  match strip_prefix (py "json") body with
  | Some b => b
  | None => body
  end.

(** A text that does not begin with white space. *)
Definition starts_clean (s : str) : Prop :=
  match s with
  | [] => True
  | c :: _ => is_space c = false
  end.

(** ** SearchTool ([tools/search_tools.py]) *)

(** [try: body except Exception: handler] *)
Definition try_except {A} (body : outcome A) (handler : exn → outcome A) : outcome A :=
  match body with
  | Return a => Return a
  | Raise e => handler e
  end.

(** [l[:n]]; a negative [n] counts from the end. *)
Definition slice_to {A} (n : Z) (l : list A) : list A :=
  if (n <? 0)%Z then take (length l - Z.to_nat (- n)) l else take (Z.to_nat n) l.

(** A result link as the HTML parser hands it over: the text of the link, its
    [href] if it has one, and the text of the snippet element that follows
    it, if there is one. *)
Record result_link := mkLink {
  link_text : str;
  link_href : option str;
  link_snippet : option str
}.

(** What lies outside the repository: the session and its GET request (a
    status and a body to read, or an exception) and the HTML parser (the
    links of class [result__a], each of which reads or raises). *)
Record Web := mkWeb {
  http_get : str → outcome (nat * outcome str);
  find_result_links : str → outcome (list (outcome result_link))
}.

Definition duckduckgo_url (query : str) : str :=
  py "https://html.duckduckgo.com/html/?q=" ++ query.

(** The body of the loop of [_parse_duckduckgo_results] on one link: the
    result to append, if any. *)
Definition parse_link (l : outcome result_link) : outcome (option SearchResult) :=
  link ← l;
  let title := strip (link_text link) in
  let url := default [] (link_href link) in
  let snippet := match link_snippet link with
                 | Some text => strip text
                 | None => []
                 end in
  if truthy title && truthy url then Return (Some (mkSearchResult title url snippet))
  else Return None.

(** The loop; a link whose reading raises is skipped. *)
Fixpoint parse_links (links : list (outcome result_link)) (results : list SearchResult)
  : list SearchResult :=
  match links with
  | [] => results
  | l :: rest =>
      match try_except (parse_link l) (fun _ => Return None) with
      | Return (Some r) => parse_links rest (results ++ [r])
      | _ => parse_links rest results
      end
  end.

Definition _parse_duckduckgo_results (web : Web) (html : str) (num_results : Z)
  : outcome (list SearchResult) :=
  try_except
    (result_links ← find_result_links web html;
     Return (parse_links (slice_to num_results result_links) []))
    (fun _ => Return []).

Definition _duckduckgo_search (web : Web) (query : str) (num_results : Z)
  : outcome (list SearchResult) :=
  try_except
    ('(status, body) ← http_get web (duckduckgo_url query);
     if Nat.eqb status 200 then
       html ← body;
       _parse_duckduckgo_results web html num_results
     else Return [])
    (fun _ => Return []).

Definition search (web : Web) (query : str) (num_results : Z) : outcome (list SearchResult) :=
  try_except (_duckduckgo_search web query num_results) (fun _ => Return []).

(** [invoke]; [None] stands for input data without the key ["query"]. *)
Definition invoke (web : Web) (query : option str) : outcome (list SearchResult) :=
  let query := default [] query in
  if negb (truthy query) then Return [] else search web query 5.

(** ** LlamaIndexService ([services/llama_index_service.py]) *)

(** [add_search_results_to_index].  A document is made of every record that
    carries a title and a snippet; the documents are stood for by these
    records.  Making and inserting them is the index's; it may raise. *)
Definition indexable (r : pyrecord) : bool :=
  match attr_title r, attr_snippet r with
  | Some _, Some _ => true
  | _, _ => false
  end.

Definition index_search_results (insert_nodes : list pyrecord → str → outcome unit)
    (search_results : list pyrecord) (research_task_id : str) : outcome unit :=
  try_except
    (match search_results with
     | [] => Return ()
     | _ =>
         match List.filter indexable search_results with
         | [] => Return ()
         | documents => insert_nodes documents research_task_id
         end
     end)
    (fun _ => Return ()).

(** The collaborators of the research executor as the repository has them. *)
Definition repo_research_world (web : Web)
    (insert_nodes : list pyrecord → str → outcome unit) : ResearchWorld :=
  mkResearchWorld
    (fun description =>
       match invoke web (Some description) with
       | Return search_results => Return (of_SearchResult <$> search_results)
       | Raise e => Raise e
       end)
    (index_search_results insert_nodes).

(** A search result as the parser makes them. *)
Definition well_formed_result (r : SearchResult) : Prop :=
  sr_title r ≠ [] ∧ sr_url r ≠ []
  ∧ strip (sr_title r) = sr_title r ∧ strip (sr_snippet r) = sr_snippet r.

(** The request for [query] does not come back with status 200 and a page
    the parser reads. *)
Definition request_fails (web : Web) (query : str) : Prop :=
  match http_get web (duckduckgo_url query) with
  | Raise _ => True
  | Return (status, body) =>
      status ≠ 200
      ∨ match body with
        | Raise _ => True
        | Return html =>
            match find_result_links web html with
            | Raise _ => True
            | Return _ => False
            end
        end
  end.

(** ** Plans behind references: what a transition leaves alone *)

(** Every object of [h] is in [h'] as it was. *)
Definition heap_keeps (h h' : Store.heap) : Prop :=
  Store.dicts h ⊆ Store.dicts h' ∧ Store.lists h ⊆ Store.lists h'.

(** The item a reader sees in dict [o] when its log list holds [log]. *)
Definition item_of (o : Store.item_obj) (log : list str) : PlanItem :=
  mkPlanItem (Store.o_item_id o) (Store.o_task_type o) (Store.o_description o)
    (Store.o_dependencies o) (Store.o_status o) (Store.o_content o) (Store.o_summary o)
    log (Store.o_evaluation_results o) (Store.o_attempt_count o).

(** An item with another log. *)
Definition with_log (log : list str) (it : PlanItem) : PlanItem :=
  mkPlanItem (item_id it) (task_type it) (description it) (dependencies it) (status it)
    (content it) (summary it) log (evaluation_results it) (attempt_count it).

(** [b] is [a] with lines added to its log. *)
Definition log_grown (a b : PlanItem) : Prop :=
  ∃ lines, b = with_log (execution_log a ++ lines) a.

(** From [h] to [h'] no dict but the one at [c] has changed, and the list
    objects have only grown at the end. *)
Definition touches_only (c : Store.loc) (h h' : Store.heap) : Prop :=
  (∀ l, l ≠ c → Store.dicts h' !! l = Store.dicts h !! l)
  ∧ (∀ l v, Store.lists h !! l = Some v →
       ∃ added, Store.lists h' !! l = Some (v ++ added)).

(** A computation that changes the heap in this way only. *)
Definition writes_only {A} (c : Store.loc) (m : Store.H A) : Prop :=
  ∀ h a h', m h = Some (a, h') → touches_only c h h'.
(* ===================================================================== *)
(** * Part II. Properties                                                 *)
(* ===================================================================== *)

(** ** Strings and task types *)

Lemma RESEARCH_neq_WRITING : RESEARCH ≠ WRITING.
Proof. by vm_compute. Qed.

(** ** PlanValidator *)

Section Validator.
Implicit Types (P : Plan) (d wid : str) (it : PlanItem).

Lemma elem_of_all_task_ids P d : d ∈ all_task_ids P ↔ exists_in_plan P d.
Proof.
  unfold all_task_ids, exists_in_plan.
  rewrite elem_of_list_to_set, list_elem_of_fmap, Exists_exists.
  split; intros (it & H1 & H2); exists it; auto.
Qed.

Lemma elem_of_research_task_ids P d : d ∈ research_task_ids P ↔ names_research P d.
Proof.
  unfold research_task_ids, names_research.
  rewrite elem_of_list_to_set, list_elem_of_fmap, Exists_exists.
  split.
  - intros (it & -> & Hin). apply list_elem_of_In, filter_In in Hin as [Hin Ht].
    apply bool_decide_eq_true in Ht. exists it. by rewrite list_elem_of_In.
  - intros (it & Hin & <- & Ht). exists it. split; [done|].
    apply list_elem_of_In, filter_In. split; [by apply list_elem_of_In|].
    by apply bool_decide_eq_true.
Qed.

Lemma names_research_exists P d : names_research P d → exists_in_plan P d.
Proof.
  unfold names_research, exists_in_plan. rewrite !Exists_exists.
  intros (it & ? & ? & ?); eauto.
Qed.

(** The inner loop keeps the ids that name a research task and records the
    error of every other id. *)
Lemma dep_error_exists P wid d :
  exists_in_plan P d → dep_error P wid d = err_not_research wid d.
Proof. intros. unfold dep_error. by destruct (decide _). Qed.

Lemma dep_error_missing P wid d :
  ¬ exists_in_plan P d → dep_error P wid d = err_missing d.
Proof. intros. unfold dep_error. by destruct (decide _). Qed.

Lemma correct_deps_spec P wid deps :
  correct_deps (research_task_ids P) (all_task_ids P) wid deps
  = (filter (names_research P) deps,
     dep_error P wid <$> filter (fun d => ¬ names_research P d) deps).
Proof.
  induction deps as [|d deps IH]; [done|].
  cbn [correct_deps]. rewrite IH. clear IH.
  destruct (decide (names_research P d)) as [Hr|Hr].
  - rewrite (filter_cons_True (names_research P)) by done.
    rewrite (filter_cons_False (fun d => ¬ names_research P d)) by tauto.
    rewrite (bool_decide_eq_true_2 (d ∈ all_task_ids P))
      by (by apply elem_of_all_task_ids, names_research_exists).
    by rewrite (bool_decide_eq_true_2 (d ∈ research_task_ids P))
      by (by apply elem_of_research_task_ids).
  - rewrite (filter_cons_False (names_research P)) by done.
    rewrite (filter_cons_True (fun d => ¬ names_research P d)) by done.
    rewrite (bool_decide_eq_false_2 (d ∈ research_task_ids P))
      by (by rewrite elem_of_research_task_ids).
    rewrite fmap_cons.
    destruct (decide (exists_in_plan P d)) as [He|He].
    + rewrite (bool_decide_eq_true_2 (d ∈ all_task_ids P))
        by (by apply elem_of_all_task_ids).
      by rewrite dep_error_exists.
    + rewrite (bool_decide_eq_false_2 (d ∈ all_task_ids P))
        by (by rewrite elem_of_all_task_ids).
      by rewrite dep_error_missing.
Qed.

Lemma validated_item_writing P it :
  task_type it = WRITING →
  validated_item P it = set_dependencies (filter (names_research P) (dependencies it)) it
  ∧ validation_errors P it
    = dep_error P (item_id it) <$> filter (fun d => ¬ names_research P d) (dependencies it).
Proof. intros. unfold validated_item, validation_errors. by destruct (decide _). Qed.

Lemma validated_item_other P it :
  task_type it ≠ WRITING → validated_item P it = it ∧ validation_errors P it = [].
Proof. intros. unfold validated_item, validation_errors. by destruct (decide _). Qed.

Lemma correct_items_spec P items :
  correct_items (research_task_ids P) (all_task_ids P) items
  = (validated_item P <$> items, concat (validation_errors P <$> items)).
Proof.
  induction items as [|it items IH]; [done|].
  cbn [correct_items]. rewrite IH, correct_deps_spec, !fmap_cons. cbn [concat].
  destruct (decide (task_type it = WRITING)) as [Hw|Hw].
  - rewrite (bool_decide_eq_true_2 _ Hw).
    by destruct (validated_item_writing P it Hw) as [-> ->].
  - rewrite (bool_decide_eq_false_2 _ Hw).
    by destruct (validated_item_other P it Hw) as [-> ->].
Qed.

Lemma validate_spec P :
  _validate_and_correct_plan P
  = (validated_item P <$> P, concat (validation_errors P <$> P)).
Proof. apply correct_items_spec. Qed.

Lemma validated_item_id P it : item_id (validated_item P it) = item_id it.
Proof. unfold validated_item. by destruct (decide _). Qed.

Lemma validated_item_type P it : task_type (validated_item P it) = task_type it.
Proof. unfold validated_item. by destruct (decide _). Qed.

(** Validation changes neither ids nor task types, so the validated plan
    names the same research tasks. *)
Lemma names_research_validated P Q d :
  names_research (validated_item Q <$> P) d ↔ names_research P d.
Proof.
  unfold names_research. rewrite !Exists_exists. split.
  - intros (it' & Hin & Hid & Ht). apply list_elem_of_fmap in Hin as (it & -> & Hin).
    exists it. by rewrite validated_item_id, validated_item_type in *.
  - intros (it & Hin & Hid & Ht). exists (validated_item Q it).
    rewrite validated_item_id, validated_item_type. split_and!; [|done..].
    apply list_elem_of_fmap. eauto.
Qed.

Lemma exists_in_plan_validated P Q d :
  exists_in_plan (validated_item Q <$> P) d ↔ exists_in_plan P d.
Proof.
  unfold exists_in_plan. rewrite !Exists_exists. split.
  - intros (it' & Hin & Hid). apply list_elem_of_fmap in Hin as (it & -> & Hin).
    exists it. by rewrite validated_item_id in *.
  - intros (it & Hin & Hid). exists (validated_item Q it).
    rewrite validated_item_id. split; [|done]. apply list_elem_of_fmap. eauto.
Qed.

(** A dropped id does not exist in the plan or names an item that is no
    research task. *)
Lemma dropped_why P d :
  ¬ names_research P d → ¬ exists_in_plan P d ∨ names_non_research P d.
Proof.
  intros Hn. destruct (decide (exists_in_plan P d)) as [He|He]; [right|by left].
  unfold exists_in_plan, names_non_research, names_research in *.
  rewrite Exists_exists in *. destruct He as (it & Hin & Hid).
  exists it. split_and!; [done..|]. intros Ht. apply Hn. eauto.
Qed.

(** With ids as keys, the converse: an id that names a non-research item
    names no research task. *)
Lemma non_research_dropped P d :
  unique_ids P → ¬ exists_in_plan P d ∨ names_non_research P d → ¬ names_research P d.
Proof.
  intros Hu [He|Hn] Hr.
  - by apply He, names_research_exists.
  - unfold names_non_research, names_research in *. rewrite Exists_exists in *.
    destruct Hn as (a & Ha & Hida & Hta), Hr as (b & Hb & Hidb & Htb).
    assert (a = b); [|congruence].
    apply list_elem_of_lookup in Ha as [i Hi], Hb as [j Hj].
    assert (i = j); [|congruence].
    eapply NoDup_lookup; [exact Hu| |].
    + by rewrite list_lookup_fmap, Hi.
    + rewrite list_lookup_fmap, Hj. cbn. congruence.
Qed.

End Validator.

Section ValidatorClaims.
Implicit Types (P : Plan) (d : str) (it w : PlanItem).

Lemma filter_all {A} (Q : A → Prop) `{!∀ x, Decision (Q x)} (l : list A) :
  Forall Q l → filter Q l = l.
Proof.
  induction 1 as [|x l Hx _ IH]; [done|]. by rewrite filter_cons_True, IH.
Qed.

Lemma filter_none {A} (Q : A → Prop) `{!∀ x, Decision (Q x)} (l : list A) :
  Forall (fun x => ¬ Q x) l → filter Q l = [].
Proof.
  induction 1 as [|x l Hx _ IH]; [done|]. by rewrite filter_cons_False, IH.
Qed.

Lemma validated_deps_name_research P w d :
  w ∈ (_validate_and_correct_plan P).1 → task_type w = WRITING →
  d ∈ dependencies w → names_research P d.
Proof.
  rewrite validate_spec. cbn [fst]. intros Hin Hw Hd.
  apply list_elem_of_fmap in Hin as (it & -> & _).
  rewrite validated_item_type in Hw.
  destruct (validated_item_writing P it Hw) as [Heq _]. rewrite Heq in Hd.
  cbn in Hd. by apply list_elem_of_filter in Hd as [? _].
Qed.

(** An item that is already validated against [P] is left alone when it is
    validated against any plan that names the same research tasks. *)
Lemma validated_item_again P Q it :
  (∀ d, names_research Q d ↔ names_research P d) →
  validated_item Q (validated_item P it) = validated_item P it
  ∧ validation_errors Q (validated_item P it) = [].
Proof.
  intros Hiff. destruct (decide (task_type it = WRITING)) as [Hw|Hw].
  - assert (task_type (validated_item P it) = WRITING) as Hw'
      by by rewrite validated_item_type.
    destruct (validated_item_writing Q _ Hw') as [-> ->].
    destruct (validated_item_writing P it Hw) as [-> _]. cbn [dependencies set_dependencies].
    rewrite (filter_all (names_research Q)), (filter_none (fun d => ¬ names_research Q d)).
    + done.
    + apply Forall_forall. intros d [Hd _]%list_elem_of_filter. rewrite Hiff. tauto.
    + apply Forall_forall. intros d [Hd _]%list_elem_of_filter. by rewrite Hiff.
  - destruct (validated_item_other P it Hw) as [-> _].
    by apply validated_item_other.
Qed.

(** C3.  Plan validation postcondition.  For every plan [P] the validator
    returns [P] with each WRITING item's dependencies cut down, in order, to
    the ids that name a RESEARCH item of [P], and one error per id it
    dropped, in order; every other item, so every RESEARCH item, is returned
    as it was.  A dropped id is one that does not exist in [P] or names an
    item that is not a RESEARCH item, and with ids as keys every such id is
    dropped.  Hence every dependency of a WRITING item of the result names a
    RESEARCH item of [P].  On the plan [r1 (RESEARCH), w1 (WRITING, deps r1
    and ghost)] the result gives w1 the dependencies [r1] and the single
    error that the dependency ghost does not exist. *)
Theorem validate_postcondition (P : Plan) :
  _validate_and_correct_plan P
    = (validated_item P <$> P, concat (validation_errors P <$> P))
  ∧ (∀ it, task_type it = WRITING →
       validated_item P it
         = set_dependencies (filter (names_research P) (dependencies it)) it
       ∧ validation_errors P it
         = dep_error P (item_id it)
             <$> filter (fun d => ¬ names_research P d) (dependencies it))
  ∧ (∀ it, task_type it ≠ WRITING →
       validated_item P it = it ∧ validation_errors P it = [])
  ∧ (∀ it, task_type it = RESEARCH → validated_item P it = it)
  ∧ (∀ d, ¬ names_research P d →
       (¬ exists_in_plan P d ∧ ∀ wid, dep_error P wid d = err_missing d)
       ∨ (names_non_research P d ∧ ∀ wid, dep_error P wid d = err_not_research wid d))
  ∧ (unique_ids P →
     ∀ d, ¬ exists_in_plan P d ∨ names_non_research P d → ¬ names_research P d)
  ∧ (∀ w d, w ∈ (_validate_and_correct_plan P).1 → task_type w = WRITING →
       d ∈ dependencies w → names_research P d)
  ∧ _validate_and_correct_plan [scenario_r1; scenario_w1]
    = ([scenario_r1; set_dependencies [py "r1"] scenario_w1], [err_missing (py "ghost")]).
Proof.
  split_and!.
  - apply validate_spec.
  - apply validated_item_writing.
  - apply validated_item_other.
  - intros it Ht. apply validated_item_other. rewrite Ht. apply RESEARCH_neq_WRITING.
  - intros d Hn. destruct (decide (exists_in_plan P d)) as [He|He].
    + right. split; [|intros; by apply dep_error_exists].
      destruct (dropped_why P d Hn); [done|done].
    + left. split; [done|]. intros; by apply dep_error_missing.
  - intros Hu d. by apply non_research_dropped.
  - apply validated_deps_name_research.
  - by vm_compute.
Qed.

(** C4.  Plan validation is idempotent: validating the corrected plan of
    [P] gives that corrected plan again and records no error. *)
Theorem validate_idempotent (P : Plan) :
  _validate_and_correct_plan (_validate_and_correct_plan P).1
  = ((_validate_and_correct_plan P).1, []).
Proof.
  rewrite (validate_spec P). cbn [fst]. rewrite validate_spec.
  set (Q := validated_item P <$> P).
  assert (∀ it, validated_item Q (validated_item P it) = validated_item P it
                ∧ validation_errors Q (validated_item P it) = []) as Hagain.
  { intros it. apply validated_item_again. intros d. apply names_research_validated. }
  f_equal.
  - unfold Q at 2 3. rewrite <- list_fmap_compose.
    apply list_fmap_ext. intros _ it _. cbn. apply Hagain.
  - unfold Q at 2. generalize P at 2. intros l.
    induction l as [|it l IH]; [done|]. rewrite !fmap_cons. cbn [concat].
    destruct (Hagain it) as [_ ->]. apply IH.
Qed.

End ValidatorClaims.

(** ** ResearchTaskRunner *)

Section Research.
Implicit Types (w : ResearchWorld) (state : AgentState) (id desc : str)
  (item : PlanItem) (idx : nat) (e : exn).

Lemma find_from_Some i (l : Plan) id item idx :
  find_from i l id = Some (item, idx) →
  i ≤ idx ∧ l !! (idx - i) = Some item ∧ item_id item = id.
Proof.
  revert i. induction l as [|h l IH]; intros i; [done|]. cbn [find_from].
  case_bool_decide as Hh.
  - intros [= -> ->]. rewrite Nat.sub_diag. split_and!; [lia|done|done].
  - intros Hf. apply IH in Hf as (Hle & Hl & Hid). split_and!; [lia| |done].
    replace (idx - i) with (S (idx - S i)) by lia. done.
Qed.

Lemma find_plan_item_Some (l : Plan) id item idx :
  _find_plan_item l id = Some (item, idx) →
  l !! idx = Some item ∧ item_id item = id ∧ idx < length l.
Proof.
  intros (_ & Hl & Hid)%find_from_Some. rewrite Nat.sub_0_r in Hl.
  split_and!; [done..|]. by eapply lookup_lt_Some.
Qed.

Lemma build_snippets_SearchResult (rs : list SearchResult) :
  build_snippets (of_SearchResult <$> rs)
  = Return ((fun r => snippet_block (sr_url r) (sr_title r) (sr_snippet r))
              <$> filter has_snippet rs).
Proof.
  induction rs as [|r rs IH]; [done|].
  rewrite fmap_cons. cbn [build_snippets of_SearchResult attr_snippet attr_url attr_title].
  destruct (sr_snippet r) as [|c s] eqn:Hs.
  - rewrite IH, filter_cons_False; [done|]. unfold has_snippet. congruence.
  - rewrite IH, filter_cons_True; [|unfold has_snippet; by rewrite Hs].
    cbn. by rewrite Hs.
Qed.

Lemma raw_content_of_blocks (rs : list SearchResult) :
  raw_content_of ((fun r => snippet_block (sr_url r) (sr_title r) (sr_snippet r))
                    <$> filter has_snippet rs)
  = research_content rs.
Proof. unfold research_content. by destruct (filter has_snippet rs). Qed.

(** When a step raises, the [try] block hands the exception on, with the item
    as it stood: status and content untouched, the log longer by at most the
    line of the search. *)
Lemma research_try_raises w id cur e :
  research_step_raises w id (description cur) e →
  ∃ partial, research_try w id cur = (partial, Some e)
    ∧ item_id partial = item_id cur ∧ task_type partial = task_type cur
    ∧ description partial = description cur
    ∧ dependencies partial = dependencies cur
    ∧ status partial = status cur ∧ content partial = content cur
    ∧ (execution_log partial = execution_log cur
       ∨ ∃ n, execution_log partial = execution_log cur ++ [log_search_done n]).
Proof.
  unfold research_step_raises, research_try.
  intros [Hs | [(rs & Hs & Hi) | (rs & Hs & Hi & Hb)]]; rewrite Hs.
  - exists cur. split_and!; auto.
  - cbn [description log_append]. rewrite Hi. eexists. split_and!; try done.
    right. by eexists.
  - cbn [description log_append]. rewrite Hi, Hb. eexists. split_and!; try done.
    right. by eexists.
Qed.

(** The first eligible task of a plan is again the task of that id after the
    first item of that id has been replaced by an unfinished item of the same
    id and type. *)
Lemma next_task_after_failure ty (l : Plan) i id item idx item' :
  item_id <$> next_task ty l = Some id →
  find_from i l id = Some (item, idx) →
  item_id item' = id → task_type item' = task_type item → status item' ≠ completed →
  item_id <$> next_task ty (<[idx - i := item']> l) = Some id.
Proof.
  unfold next_task. intros Hnext Hfind Hid Hty Hst. revert i Hnext Hfind.
  induction l as [|h l IH]; intros i Hnext Hfind; [done|].
  cbn [find_from] in Hfind. case_bool_decide as Hh.
  - injection Hfind as -> ->. rewrite Nat.sub_diag. cbn [insert list_insert List.find] in *.
    unfold eligible in *. rewrite Hty.
    rewrite (bool_decide_eq_false_2 (status item' = completed)) by done.
    case_bool_decide; [cbn; by rewrite Hid | done].
  - apply find_from_Some in Hfind as Hf. destruct Hf as (Hle & _ & _).
    replace (idx - i) with (S (idx - S i)) by lia.
    cbn [insert list_insert List.find] in *.
    destruct (eligible ty h).
    + cbn in Hnext. congruence.
    + by apply IH.
Qed.

End Research.

(** ** The research loop of the graph *)

Section ResearchLoop.
Implicit Types (state : AgentState) (id : str) (item : PlanItem) (idx : nat) (e : exn).

Lemma truthy_id_Some cur id : truthy_id cur = Some id → cur = Some id ∧ id ≠ [].
Proof. destruct cur as [[|c s]|]; cbn; intros [= <-]; done. Qed.

Lemma truthy_id_nonempty id : id ≠ [] → truthy_id (Some id) = Some id.
Proof. by destruct id. Qed.

(** The id the scan selects is the id of an item of the plan. *)
Lemma next_task_find ty (l : Plan) i id :
  item_id <$> next_task ty l = Some id → ∃ item idx, find_from i l id = Some (item, idx).
Proof.
  unfold next_task. revert i. induction l as [|h l IH]; intros i; [done|].
  cbn [List.find find_from]. case_bool_decide as Hh; [eauto|].
  destruct (eligible ty h); [cbn; congruence|]. apply IH.
Qed.

(** What the executor returns when a step of the current task raises. *)
Lemma execute_research_task_fails (w : ResearchWorld) state id item idx e :
  truthy_id (current_plan_item_id state) = Some id →
  _find_plan_item (plan state) id = Some (item, idx) →
  research_step_raises w id (description item) e →
  ∃ failed_item,
    execute_research_task w state
      = update_plan_errors (<[idx := failed_item]> (plan state))
          [NodeError research_node (str_of_exn e)]
    ∧ item_id failed_item = id ∧ task_type failed_item = task_type item
    ∧ status failed_item = failed
    ∧ content failed_item = content item
    ∧ (∃ lines, execution_log failed_item
                = execution_log item ++ lines ++ [research_error_msg (description item) e]).
Proof.
  intros Hid Hfind Hraise. unfold execute_research_task. rewrite Hid, Hfind.
  destruct (research_try_raises w id (set_status in_progress item) e Hraise)
    as (partial & -> & Hpid & Hpty & Hpd & _ & Hpst & Hpc & Hlog).
  apply find_plan_item_Some in Hfind as (_ & Hitem & _).
  eexists. split; [reflexivity|]. cbn. split_and!; try done.
  - by rewrite Hpid.
  - destruct Hlog as [-> | [n ->]]; cbn.
    + by exists [].
    + exists [log_search_done n]. by rewrite <- !app_assoc.
Qed.

(** What the updates of the research loop leave in the state. *)
Lemma apply_update_current c state :
  plan (apply_update (update_current c) state) = plan state
  ∧ current_plan_item_id (apply_update (update_current c) state) = c
  ∧ error_log (apply_update (update_current c) state) = error_log state.
Proof. split_and!; [done..|]. cbn. apply app_nil_r. Qed.

Lemma apply_update_plan_errors p es state :
  plan (apply_update (update_plan_errors p es) state) = p
  ∧ current_plan_item_id (apply_update (update_plan_errors p es) state)
    = current_plan_item_id state
  ∧ error_log (apply_update (update_plan_errors p es) state) = error_log state ++ es.
Proof. done. Qed.

(** The steps of the graph at its nodes. *)
Lemma step_research_executor (W : World) t state :
  step W (mkConfig t n_research_executor state)
  = Return (mkConfig (S t) n_research_supervisor
              (apply_update (execute_research_task (research_world W t) state) state)).
Proof. reflexivity. Qed.

Lemma step_research_supervisor (W : World) t state :
  step W (mkConfig t n_research_supervisor state)
  = Return (mkConfig (S t)
              (route_research_action (apply_update (research_supervisor state) state))
              (apply_update (research_supervisor state) state)).
Proof. reflexivity. Qed.

Lemma step_writing_supervisor (W : World) t state :
  step W (mkConfig t n_writing_supervisor state)
  = Return (mkConfig (S t)
              (route_writing_action (apply_update (writing_supervisor state) state))
              (apply_update (writing_supervisor state) state)).
Proof. reflexivity. Qed.

Lemma step_writing_executor (W : World) t state :
  step W (mkConfig t n_writing_executor state)
  = (u ← execute_writing_task (writing_world W t) state;
     Return (mkConfig (S t) n_writing_supervisor (apply_update u state))).
Proof. reflexivity. Qed.

Lemma step_final_assembler (W : World) t state :
  step W (mkConfig t n_final_assembler state)
  = Return (mkConfig (S t) n_END (apply_update (final_assembler state) state)).
Proof. reflexivity. Qed.

(** One round of the loop on a task whose search raises: the executor, then
    the scan, and the run is at the executor again on the same id. *)
Lemma retry_round (W : World) e t state id :
  (∀ t' desc, search_invoke (research_world W t') desc = Raise e) →
  current_plan_item_id state = Some id → id ≠ [] →
  item_id <$> next_task RESEARCH (plan state) = Some id →
  ∃ state2,
    steps W 2 (mkConfig t n_research_executor state)
      = Return (mkConfig (S (S t)) n_research_executor state2)
    ∧ current_plan_item_id state2 = Some id
    ∧ item_id <$> next_task RESEARCH (plan state2) = Some id
    ∧ error_log state2 = error_log state ++ [NodeError research_node (str_of_exn e)].
Proof.
  intros Hfail Hcur Hne Hnext.
  destruct (next_task_find RESEARCH (plan state) 0 id Hnext) as (item & idx & Hfind).
  assert (truthy_id (current_plan_item_id state) = Some id) as Hid
    by (rewrite Hcur; by apply truthy_id_nonempty).
  destruct (execute_research_task_fails (research_world W t) state id item idx e Hid Hfind)
    as (failed_item & Hexec & Hfid & Hfty & Hfst & _ & _).
  { left. apply Hfail. }
  assert (item_id <$> next_task RESEARCH (<[idx := failed_item]> (plan state)) = Some id)
    as Hnext'.
  { replace idx with (idx - 0) by lia.
    eapply next_task_after_failure; eauto. rewrite Hfst. done. }
  set (state1 := apply_update (update_plan_errors (<[idx := failed_item]> (plan state))
                                 [NodeError research_node (str_of_exn e)]) state).
  destruct (apply_update_plan_errors (<[idx := failed_item]> (plan state))
              [NodeError research_node (str_of_exn e)] state) as (Hp1 & _ & He1).
  fold state1 in Hp1, He1.
  destruct (apply_update_current (Some id) state1) as (Hp2 & Hc2 & He2).
  exists (apply_update (update_current (Some id)) state1).
  rewrite Hc2, Hp2, He2, Hp1, He1. split_and!; try done.
  cbn [steps]. rewrite step_research_executor. cbn [mbind outcome_bind].
  rewrite step_research_supervisor. cbn [mbind outcome_bind]. rewrite Hexec.
  fold state1. unfold research_supervisor, route_research_action.
  by rewrite Hp1, Hnext', Hc2, (truthy_id_nonempty id Hne).
Qed.

Lemma retry_rounds (W : World) e n :
  (∀ t' desc, search_invoke (research_world W t') desc = Raise e) →
  ∀ t state id,
  current_plan_item_id state = Some id → id ≠ [] →
  item_id <$> next_task RESEARCH (plan state) = Some id →
  ∃ state_n,
    steps W (2 * n) (mkConfig t n_research_executor state)
      = Return (mkConfig (t + 2 * n) n_research_executor state_n)
    ∧ current_plan_item_id state_n = Some id
    ∧ error_log state_n
      = error_log state ++ replicate n (NodeError research_node (str_of_exn e)).
Proof.
  intros Hfail. induction n as [|n IH]; intros t state id Hcur Hne Hnext.
  - exists state. cbn. rewrite Nat.add_0_r, app_nil_r. done.
  - destruct (retry_round W e t state id Hfail Hcur Hne Hnext)
      as (state2 & Hsteps & Hcur2 & Hnext2 & Hlog2).
    destruct (IH (S (S t)) state2 id Hcur2 Hne Hnext2) as (state_n & Hn & Hcurn & Hlogn).
    exists state_n. split_and!; [|done|].
    + replace (2 * S n) with (S (S (2 * n))) by lia.
      cbn [steps] in *.
      destruct (step W (mkConfig t n_research_executor state)) as [c1|]; [|done].
      cbn [mbind outcome_bind] in *.
      destruct (step W c1) as [c2|]; [|done]. cbn [mbind outcome_bind] in *.
      injection Hsteps as ->. rewrite Hn. f_equal. f_equal. lia.
    + rewrite Hlogn, Hlog2. rewrite <- app_assoc. done.
Qed.

End ResearchLoop.

Section ResearchClaims.
Implicit Types (state : AgentState) (id desc : str) (item : PlanItem) (idx : nat) (e : exn).

(** C7.  Research content postcondition.  When the search of the current
    research task returns its records and indexing them goes through, the
    executor returns the plan with that task replaced by an item whose
    content is one source/title/snippet block per record with a non-empty
    snippet, joined by the separator, or the "no information found" sentinel
    when no record has one (so also when the search returned nothing), and
    whose status is completed; nothing is added to the error list. *)
Theorem research_content_postcondition (w : ResearchWorld) state id item idx
    (results : list SearchResult) :
  truthy_id (current_plan_item_id state) = Some id →
  _find_plan_item (plan state) id = Some (item, idx) →
  search_invoke w (description item) = Return (of_SearchResult <$> results) →
  add_search_results_to_index w (of_SearchResult <$> results) id = Return () →
  ∃ done,
    execute_research_task w state = update_plan (<[idx := done]> (plan state))
    ∧ plan (apply_update (execute_research_task w state) state) !! idx = Some done
    ∧ error_log (apply_update (execute_research_task w state) state) = error_log state
    ∧ status done = completed
    ∧ content done = research_content results
    ∧ (filter has_snippet results = [] → content done = sentinel_no_information)
    ∧ (results = [] → content done = sentinel_no_information)
    ∧ (∀ r rs, filter has_snippet results = r :: rs →
         content done
         = join snippet_separator
             ((fun r => snippet_block (sr_url r) (sr_title r) (sr_snippet r)) <$> r :: rs)).
Proof.
  intros Hid Hfind Hsearch Hindex.
  unfold execute_research_task. rewrite Hid, Hfind. unfold research_try.
  cbn [description set_status]. rewrite Hsearch. cbn [description log_append].
  rewrite Hindex, build_snippets_SearchResult, raw_content_of_blocks.
  eexists. split; [reflexivity|].
  apply find_plan_item_Some in Hfind as (_ & _ & Hlt).
  split_and!.
  - cbn. by apply list_lookup_insert_eq.
  - cbn. by rewrite app_nil_r.
  - done.
  - done.
  - cbn. unfold research_content. by intros ->.
  - cbn. by intros ->.
  - cbn. unfold research_content. by intros r rs ->.
Qed.


End ResearchClaims.

(** ** The plan behind references *)

Section StoreFacts.
Import Store.
Implicit Types (h : heap) (p : plan_ref) (l : loc) (P : Plan) (id : str).

Lemma read_item_pure l h it h' :
  read_item l h = Some (it, h') →
  h' = h ∧ ∃ o, dicts h !! l = Some o ∧ item_id it = o_item_id o
                ∧ lists h !! o_execution_log o = Some (execution_log it).
Proof.
  unfold read_item, hbind, get_dict, get_list, hret.
  destruct (dicts h !! l) as [o|] eqn:Ho; [|done]. cbn.
  destruct (lists h !! o_execution_log o) as [v|] eqn:Hv; [|done]. cbn.
  intros [= <- <-]. split; [done|]. exists o. done.
Qed.

Lemma read_plan_cons l p h P h' :
  read_plan (l :: p) h = Some (P, h') →
  ∃ it P', P = it :: P' ∧ read_item l h = Some (it, h) ∧ read_plan p h = Some (P', h').
Proof.
  unfold read_plan. cbn [hmap]. unfold hbind at 1.
  destruct (read_item l h) as [[it h1]|] eqn:Hit; [|done].
  apply read_item_pure in Hit as Hpure. destruct Hpure as [-> _].
  unfold hbind at 1. destruct (hmap read_item p h) as [[P' h2]|] eqn:HP; [|done].
  unfold hret. intros [= <- <-]. eauto.
Qed.

(** Looking an id up through the references finds the index the lookup in
    the snapshot finds, and changes nothing. *)
Lemma find_ref_snapshot p : ∀ i id h P,
  snapshot h p = Some P →
  ∃ r, find_ref i p id h = Some (r, h) ∧ snd <$> r = snd <$> find_from i P id.
Proof.
  induction p as [|l p IH]; intros i id h P; unfold snapshot.
  - cbn. intros [= <-]. by exists None.
  - destruct (read_plan (l :: p) h) as [[P0 h0]|] eqn:Hread; [|done].
    cbn. intros [= <-].
    apply read_plan_cons in Hread as (it & P' & -> & Hit & Hrest).
    apply read_item_pure in Hit as (_ & o & Ho & Hid & _).
    cbn [find_ref find_from]. unfold hbind at 1, get_dict. rewrite Ho. cbn.
    rewrite Hid. case_bool_decide.
    + eexists. split; [reflexivity|done].
    + apply IH. unfold snapshot. by rewrite Hrest.
Qed.

End StoreFacts.

Section PreconditionClaim.
Import Store.

(** C10.  Research-executor precondition violation.  When the current item
    id is absent (or empty) or names no item of the plan, the research
    executor returns a state update that holds one error-log entry and no
    plan: the state after it differs from the state before only by that one
    entry at the end of the error list, so no item changes its status.  On
    the references the executor leaves the heap as it was, whatever
    snapshot the plan is.  The writing executor raises a [ValueError] in the
    same state. *)
Theorem research_precondition_violation (w : ResearchWorld) (ww : WritingWorld)
    (state : AgentState) :
  current_item_missing state →
  ∃ msg,
    execute_research_task w state = update_errors [NodeError research_node msg]
    ∧ apply_update (execute_research_task w state) state
      = mkAgentState (input state) (overall_outline state) (plan state)
          (final_answer state) (final_sources state) (current_plan_item_id state)
          (error_log state ++ [NodeError research_node msg]) (shared_context state)
    ∧ (∀ (h : heap) (p : plan_ref),
         snapshot h p = Some (plan state) →
         execute_research_task_ref w p (current_plan_item_id state) h
         = Some (mkUpdateRef None [NodeError research_node msg], h))
    ∧ ∃ msg', execute_writing_task ww state = Raise (ValueError msg').
Proof.
  unfold current_item_missing, execute_research_task, execute_writing_task,
    execute_research_task_ref.
  destruct (truthy_id (current_plan_item_id state)) as [id|] eqn:Hid.
  - intros Hfind. rewrite Hfind. eexists. split_and!; [reflexivity|done| |by eexists].
    intros h p Hsnap.
    destruct (find_ref_snapshot p 0 id h _ Hsnap) as (r & Hr & Hsnd).
    unfold _find_plan_item in Hfind. rewrite Hfind in Hsnd.
    destruct r; [done|]. unfold hbind. by rewrite Hr.
  - intros _. eexists. split_and!; [reflexivity|done|done|by eexists].
Qed.

End PreconditionClaim.

(** ** Instances of the research claims *)

Lemma research_content_postcondition_witness :
  ∃ done,
    plan (apply_update
            (execute_research_task (search_returns [])
               (state_with [scenario_r1] (Some (py "r1"))))
            (state_with [scenario_r1] (Some (py "r1")))) !! 0 = Some done
    ∧ status done = completed
    ∧ content done = sentinel_no_information.
Proof.
  destruct (research_content_postcondition (search_returns [])
              (state_with [scenario_r1] (Some (py "r1"))) (py "r1") scenario_r1 0 []
              eq_refl eq_refl eq_refl eq_refl)
    as (done & _ & Hplan & _ & Hst & _ & _ & Hc & _).
  exists done. split_and!; [exact Hplan|exact Hst|exact (Hc eq_refl)].
Defined.


Lemma research_precondition_violation_witness :
  ∃ msg,
    execute_research_task (search_returns []) (state_with [scenario_r1] None)
    = update_errors [NodeError research_node msg]
    ∧ ∃ msg', execute_writing_task (agent_writes [] false) (state_with [scenario_r1] None)
              = Raise (ValueError msg').
Proof.
  destruct (research_precondition_violation (search_returns []) (agent_writes [] false)
              (state_with [scenario_r1] None) I)
    as (msg & Hr & _ & _ & Hw).
  exists msg. split; [exact Hr|exact Hw].
Defined.

(** ** Runs of the graph *)

Section Runs.
Implicit Types (W : World) (c : config) (state : AgentState) (e : exn).

Lemma step_at_END W c c' : at_node c = n_END → step W c = Return c' → at_node c' = n_END.
Proof.
  destruct c as [t n s]. cbn. intros ->. unfold step. cbn. by intros [= <-].
Qed.

(** [END] is final: a run that is somewhere else after [k] steps was nowhere
    at [END] on the way. *)
Lemma steps_from_END W k c c' :
  at_node c = n_END → steps W k c = Return c' → at_node c' = n_END.
Proof.
  revert c. induction k as [|k IH]; intros c Hend; cbn [steps].
  - by intros [= <-].
  - destruct (step W c) as [c1|] eqn:Hstep; [|done]. cbn [mbind outcome_bind].
    apply IH. by eapply step_at_END.
Qed.

Lemma run_not_END W fuel c :
  at_node c ≠ n_END →
  run W (S fuel) c
  = match step W c with
    | Raise e => Faulted e
    | Return c' => run W fuel c'
    end.
Proof. intros Hne. cbn [run]. by destruct (at_node c). Qed.

(** A run that reaches [c'] in [k] steps, not yet at [END], goes on from
    [c']. *)
Lemma run_steps W k : ∀ c c' fuel,
  steps W k c = Return c' → at_node c' ≠ n_END → run W (k + fuel) c = run W fuel c'.
Proof.
  induction k as [|k IH]; intros c c' fuel; cbn [steps].
  - by intros [= <-].
  - intros Hsteps Hne.
    assert (at_node c ≠ n_END) as Hc.
    { intros Hend. by apply Hne, (steps_from_END W (S k) c). }
    cbn [Nat.add]. rewrite (run_not_END W _ c Hc).
    destruct (step W c) as [c1|]; [|done]. by apply IH.
Qed.

Lemma execute_writing_task_missing (ww : WritingWorld) state :
  current_item_missing state →
  ∃ msg, execute_writing_task ww state = Raise (ValueError msg).
Proof.
  unfold current_item_missing, execute_writing_task.
  destruct (truthy_id _); [intros ->|]; by eexists.
Qed.

Lemma execute_writing_task_generation (ww : WritingWorld) state id item idx e :
  truthy_id (current_plan_item_id state) = Some id →
  _find_plan_item (plan state) id = Some (item, idx) →
  agent_executor_invoke ww (agent_input_of state item id) = Raise e →
  execute_writing_task ww state = Raise e.
Proof. unfold execute_writing_task. by intros -> -> ->. Qed.

(** C6.  Writing-task failures are not contained.  The writing executor
    raises when the current item id is absent or names no item of the plan
    (a [ValueError]) and when the generation raises (that exception).  An
    exception of the writing executor at any point of a run is the outcome
    of the run: no node runs after it, and the invocation surface returns
    the result with success false, the message of the exception, an empty
    report and no sources. *)
Theorem writing_failure_not_contained (W : World) (query : str) (k t : nat) state e :
  steps W k (initial_config query) = Return (mkConfig t n_writing_executor state) →
  execute_writing_task (writing_world W t) state = Raise e →
  (current_item_missing state → ∃ msg, e = ValueError msg)
  ∧ (∀ id item idx,
       truthy_id (current_plan_item_id state) = Some id →
       _find_plan_item (plan state) id = Some (item, idx) →
       ∀ e', agent_executor_invoke (writing_world W t) (agent_input_of state item id)
             = Raise e' → e = e')
  ∧ step W (mkConfig t n_writing_executor state) = Raise e
  ∧ ∀ fuel, k < fuel →
      run W fuel (initial_config query) = Faulted e
      ∧ search_and_generate_report W fuel query
        = Some (mkReport false (Some (str_of_exn e)) [] [] (Some []) []
                  [NodeError (py "main") (str_of_exn e)]).
Proof.
  intros Hsteps Hraise. split_and!.
  - intros Hmiss. destruct (execute_writing_task_missing (writing_world W t) state Hmiss)
      as [msg Hmsg]. exists msg. congruence.
  - intros id item idx Hid Hfind e' Hgen.
    pose proof (execute_writing_task_generation _ _ _ _ _ _ Hid Hfind Hgen). congruence.
  - rewrite step_writing_executor, Hraise. done.
  - intros fuel Hlt.
    assert (run W fuel (initial_config query) = Faulted e) as Hrun.
    { replace fuel with (k + S (fuel - S k)) by lia.
      rewrite (run_steps W k _ _ _ Hsteps) by done.
      rewrite run_not_END by done.
      by rewrite step_writing_executor, Hraise. }
    split; [done|]. unfold search_and_generate_report. by rewrite Hrun.
Qed.

End Runs.

Lemma writing_failure_not_contained_witness :
  search_and_generate_report (demo_world [raw_chapter] (Raise generation_error) true)
    6 (py "q")
  = Some (mkReport false (Some (py "model unavailable")) [] [] (Some []) []
            [NodeError (py "main") (py "model unavailable")]).
Proof.
  refine (proj2 (proj2 (proj2 (proj2
    (writing_failure_not_contained
       (demo_world [raw_chapter] (Raise generation_error) true) (py "q") 5 5
       (mkAgentState (py "q") (Some (py "summary"))
          [set_content (no_material_stub (py "chapter one")) scenario_chapter]
          [] [] (Some (py "w1")) [] fresh_registry)
       generation_error _ _))) 6 _)).
  - vm_compute. reflexivity.
  - vm_compute. reflexivity.
  - lia.
Defined.

(** ** CitationRegistry on the source lookup of the repository *)

Lemma resolve_title_dict index_ready u :
  resolve_title (get_document_by_source_url index_ready u)
  = if index_ready then Raise attribute_error_metadata else Return unknown_title.
Proof. by destruct index_ready. Qed.

(** C1.  Citation rewriting on the source lookup of the repository.  With the
    index set, [get_document_by_source_url] hands back a dict, and reading
    [.metadata] off it raises: the callback raises [AttributeError] on every
    url that is not yet in the registry, so rewriting the scenario text on a
    fresh registry raises before any number is assigned, and so does the
    writing task that produced the text.  Only with the index unset does the
    scenario give citation 1 for a.com (both times), 2 for b.com and a
    registry of two entries. *)
Theorem citation_rewrite_raises_on_new_url :
  (∀ u sc, dict_get (citations sc) u = None →
     replace_and_update_map (get_document_by_source_url true) u sc
     = Raise attribute_error_metadata)
  ∧ rewrite_citations (get_document_by_source_url true) citation_scenario fresh_registry
    = Raise attribute_error_metadata
  ∧ execute_writing_task (agent_writes citation_scenario true)
      (state_with [scenario_chapter] (Some (py "w1")))
    = Raise attribute_error_metadata
  ∧ rewrite_citations (get_document_by_source_url false) citation_scenario fresh_registry
    = Return (py "See [1](https://a.com) and [2](https://b.com) and again [1](https://a.com)",
              mkSharedContext
                [(url_a, mkCitation 1 unknown_title url_a);
                 (url_b, mkCitation 2 unknown_title url_b)] 3).
Proof.
  split_and!.
  - intros u sc Hnew. unfold replace_and_update_map. by rewrite Hnew.
  - by vm_compute.
  - by vm_compute.
  - by vm_compute.
Qed.

(** ** The summarizer's test for research material *)

Lemma any_truthy_research_content (P : Plan) (deps : list str) :
  any_truthy (research_content_of P deps) = negb (bool_decide (deps = [])).
Proof. by destruct deps. Qed.

(** C8.  The plan summarizer on a chapter whose only research dependency has
    no content.  The test [any(research_content)] runs over the formatted
    blocks, and a block is never empty, so the test fails only for a chapter
    without dependencies: here the chapter's content becomes the answer of
    the model, not the "no relevant material found" stub.  The same happens
    in a whole run, when the research task has the empty id and is never
    run. *)
Theorem summarizer_stub_only_without_dependencies :
  (∀ (P : Plan) (deps : list str),
     any_truthy (research_content_of P deps) = negb (bool_decide (deps = [])))
  ∧ content failed_r1 = []
  ∧ call_plan_summarizer model_says_summary (state_with [failed_r1; chapter_on_r1] None)
    = Return (update_plan [failed_r1; set_content (py "summary") chapter_on_r1])
  ∧ py "summary" ≠ no_material_stub (description chapter_on_r1)
  ∧ steps (demo_world [raw_unnamed_research; raw_dependent_chapter] (Return (py "text")) true)
      3 (initial_config (py "q"))
    = Return (mkConfig 3 n_generate_overall_summary
                (mkAgentState (py "q") (Some (py "outline"))
                   [unnamed_research; set_content (py "summary") dependent_chapter]
                   [] [] (Some []) [] fresh_registry)).
Proof.
  split_and!.
  - apply any_truthy_research_content.
  - done.
  - by vm_compute.
  - by vm_compute.
  - by vm_compute.
Qed.

(** ** A task with the empty id *)

(** C2.  Phase ordering on a plan whose research task has the empty id.
    The scan selects the task, but the route tests the truth of its id and
    goes on to the summarizer: after five steps the run is at the writing
    executor on chapter w1 while the research task is still pending, never
    run, and the run then finishes through the assembler with the research
    task still pending. *)
Theorem empty_id_research_task_never_runs :
  let W := demo_world [raw_unnamed_research; raw_dependent_chapter] (Return (py "text")) true in
  next_task RESEARCH [unnamed_research; dependent_chapter] = Some unnamed_research
  ∧ route_research_action
      (apply_update (research_supervisor (state_with [unnamed_research; dependent_chapter] None))
         (state_with [unnamed_research; dependent_chapter] None))
    = n_plan_summarizer
  ∧ steps W 5 (initial_config (py "q"))
    = Return (mkConfig 5 n_writing_executor
                (mkAgentState (py "q") (Some (py "summary"))
                   [unnamed_research; set_content (py "summary") dependent_chapter]
                   [] [] (Some (py "w1")) [] fresh_registry))
  ∧ status unnamed_research = pending
  ∧ run W 9 (initial_config (py "q"))
    = Finished (mkAgentState (py "q") (Some (py "summary"))
                  [unnamed_research;
                   set_status completed (set_content (py "text") dependent_chapter)]
                  [] [] None [] fresh_registry).
Proof. cbv zeta. split_and!; by vm_compute. Qed.

(** ** Snapshots of the plan across the transitions *)

Section Snapshots.
Import Store.

(** C9.  Plan snapshots across the transitions, on references.  Validation
    works on [list(plan)], which shares the dicts: after it, the snapshot it
    was given shows w1 without the dropped dependency.  The research executor
    copies the dicts, and a copy shares the log list: after it, the prior
    snapshot shows r1, still pending and without content, with the two log
    lines of the run.  The summarizer works on [list(plan)] too: after it the
    prior snapshot shows the chapter with the staged content.  Only the
    writing executor, which copies the dicts and assigns to the copies,
    leaves the prior snapshot as it was. *)
Theorem prior_snapshot_mutated :
  (∃ p h0 r h1,
     store_plan [scenario_r1; scenario_w1] empty_heap = Some (p, h0)
     ∧ _validate_and_correct_plan_ref p h0 = Some (r, h1)
     ∧ snapshot h0 p = Some [scenario_r1; scenario_w1]
     ∧ snapshot h1 p = Some [scenario_r1; set_dependencies [py "r1"] scenario_w1])
  ∧ (∃ p h0 p' h1,
       store_plan [scenario_r1] empty_heap = Some (p, h0)
       ∧ execute_research_task_ref (search_returns []) p (Some (py "r1")) h0
         = Some (mkUpdateRef (Some p') [], h1)
       ∧ snapshot h0 p = Some [scenario_r1]
       ∧ snapshot h1 p
         = Some [log_append log_research_done (log_append (log_search_done 0) scenario_r1)]
       ∧ snapshot h1 p'
         = Some [log_append log_research_done
                   (log_append (log_search_done 0)
                      (set_status completed
                         (set_content sentinel_no_information scenario_r1)))])
  ∧ (∃ p h0 h1,
       store_plan [scenario_chapter] empty_heap = Some (p, h0)
       ∧ call_plan_summarizer_ref model_says_summary p h0 = Some (Return p, h1)
       ∧ snapshot h0 p = Some [scenario_chapter]
       ∧ snapshot h1 p
         = Some [set_content (no_material_stub (py "chapter one")) scenario_chapter])
  ∧ (∃ p h0 p' h1,
       store_plan [scenario_chapter] empty_heap = Some (p, h0)
       ∧ execute_writing_task_ref (py "text") p (Some (py "w1")) h0 = Some (Return p', h1)
       ∧ snapshot h0 p = Some [scenario_chapter]
       ∧ snapshot h1 p = Some [scenario_chapter]
       ∧ snapshot h1 p'
         = Some [set_status completed (set_content (py "text") scenario_chapter)]).
Proof.
  split_and!.
  - do 4 eexists. split_and!; [by vm_compute..|by vm_compute].
  - do 4 eexists. split_and!; [by vm_compute..|by vm_compute].
  - do 3 eexists. split_and!; [by vm_compute..|by vm_compute].
  - do 4 eexists. split_and!; [by vm_compute..|by vm_compute].
Qed.

End Snapshots.

(* ===================================================================== *)
(** * Part II, continued. Further properties                              *)
(* ===================================================================== *)

#[local] Set Warnings "-clear-no-such-hyp".
#[local] Unset Default Proof Using.

(** ** CitationRegistry: the numbering *)

Section Registry.
Implicit Types (m : citation_map) (sc : SharedContext) (u : str) (c : Citation)
  (toks : list token).

Lemma dict_get_None m u : dict_get m u = None ↔ u ∉ fst <$> m.
Proof.
  induction m as [|[k v] m IH]; cbn [dict_get].
  - split; [intros _; apply not_elem_of_nil|done].
  - rewrite fmap_cons, not_elem_of_cons. cbn [fst]. case_bool_decide; [|rewrite IH]; naive_solver.
Qed.

Lemma dict_get_Some_known m u c : dict_get m u = Some c → u ∈ fst <$> m.
Proof.
  intros Hget. destruct (decide (u ∈ fst <$> m)) as [|Hn]; [done|].
  apply dict_get_None in Hn. congruence.
Qed.

Lemma dict_get_app_l m new u c :
  dict_get m u = Some c → dict_get (m ++ new) u = Some c.
Proof.
  induction m as [|[k v] m IH]; [done|]. cbn [dict_get app].
  by case_bool_decide.
Qed.

Lemma dict_get_app_new m u c :
  dict_get m u = None → dict_get (m ++ [(u, c)]) u = Some c.
Proof.
  induction m as [|[k v] m IH]; cbn [dict_get app].
  - intros _. by rewrite bool_decide_eq_true_2.
  - by case_bool_decide.
Qed.

Lemma number_of_extends m new u :
  u ∈ fst <$> m → number_of (m ++ new) u = number_of m u.
Proof.
  intros Hin. unfold number_of. destruct (dict_get m u) as [c|] eqn:Hget.
  - by rewrite (dict_get_app_l _ _ _ _ Hget).
  - by apply dict_get_None in Hget.
Qed.

Lemma extends_refl sc : extends sc sc.
Proof. exists []. by rewrite app_nil_r. Qed.

Lemma extends_trans sc1 sc2 sc3 : extends sc1 sc2 → extends sc2 sc3 → extends sc1 sc3.
Proof.
  intros [n1 H1] [n2 H2]. exists (n1 ++ n2). by rewrite H2, H1, app_assoc.
Qed.

Lemma extends_known sc sc' u : extends sc sc' → u ∈ known_urls sc → u ∈ known_urls sc'.
Proof.
  intros [new Hnew]. unfold known_urls. rewrite Hnew, fmap_app. set_solver.
Qed.

Lemma extends_number_of sc sc' u :
  extends sc sc' → u ∈ known_urls sc →
  number_of (citations sc') u = number_of (citations sc) u.
Proof. intros [new ->]. apply number_of_extends. Qed.

(** An assignment never changes: a url the registry holds keeps its entry in
    every registry that extends it. *)
Lemma extends_stable sc sc' u c :
  extends sc sc' → dict_get (citations sc) u = Some c →
  dict_get (citations sc') u = Some c.
Proof. intros [new ->]. apply dict_get_app_l. Qed.

Lemma fresh_registry_ok : registry_ok fresh_registry.
Proof. split_and!; [done|done|apply NoDup_nil_2|apply Forall_nil_2]. Qed.

Lemma note_known known u : u ∈ note known u ∧ known ⊆ note known u.
Proof. unfold note. destruct (decide _); set_solver. Qed.

Lemma foldl_note_known us : ∀ known,
  known ⊆ foldl note known us ∧ ∀ u, u ∈ us → u ∈ foldl note known us.
Proof.
  induction us as [|u us IH]; intros known; cbn [foldl].
  - split; [done|]. intros u Hu. by apply elem_of_nil in Hu.
  - destruct (IH (note known u)) as [Hsub Hin].
    destruct (note_known known u) as [Hu Hk]. split; [set_solver|].
    intros v [->|Hv]%elem_of_cons; [by apply Hsub|by apply Hin].
Qed.

Section Callback.
Variable get_document : str -> option pyobj.
Hypothesis Hanswers : answers_title get_document.

(** The callback on one url: it returns the link with the number the
    registry then holds for the url, notes the url at first sight, and keeps
    the registry's invariant. *)
Lemma replace_and_update_map_ok u sc :
  registry_ok sc →
  ∃ sc', replace_and_update_map get_document u sc
         = Return (citation_link (number_of (citations sc') u) u, sc')
    ∧ registry_ok sc' ∧ extends sc sc'
    ∧ known_urls sc' = note (known_urls sc) u.
Proof.
  intros (Hnext & Hnums & Hnodup & Hurls). unfold replace_and_update_map.
  destruct (dict_get (citations sc) u) as [c|] eqn:Hget.
  - exists sc. unfold number_of. rewrite Hget. split_and!; [done|done|apply extends_refl|].
    unfold note. rewrite decide_True; [done|]. by eapply dict_get_Some_known.
  - destruct (Hanswers u) as [t ->]. cbn [mbind outcome_bind].
    set (c := mkCitation (next_citation_number sc) t u).
    exists (mkSharedContext (citations sc ++ [(u, c)]) (S (next_citation_number sc))).
    split; [|split_and!].
    + unfold number_of. cbn [citations]. by rewrite (dict_get_app_new _ _ _ Hget).
    + split_and!; cbn [citations next_citation_number].
      * rewrite length_app. cbn. lia.
      * rewrite fmap_app, length_app, Hnums. cbn [length fmap list_fmap snd number].
        rewrite Nat.add_1_r, seq_S. subst c. cbn [number]. by rewrite Hnext.
      * unfold known_urls. cbn [citations]. rewrite fmap_app. cbn.
        apply NoDup_app. split_and!; [done| |apply NoDup_singleton].
        intros v Hv ->%list_elem_of_singleton. by apply dict_get_None in Hget.
      * apply Forall_app. split; [done|]. by apply Forall_singleton.
    + by eexists.
    + unfold known_urls, note. cbn [citations]. rewrite fmap_app. cbn.
      rewrite decide_False; [done|]. by apply dict_get_None.
Qed.

Lemma render_extends sc sc' toks :
  extends sc sc' → (∀ u, u ∈ marker_urls toks → u ∈ known_urls sc) →
  render (citations sc') toks = render (citations sc) toks.
Proof.
  intros Hext. unfold render. induction toks as [|[c|u] toks IH]; intros Hknown; [done|..].
  - rewrite !fmap_cons. cbn [concat]. f_equal. apply IH. intros v Hv. by apply Hknown.
  - rewrite !fmap_cons. cbn [concat]. f_equal.
    + rewrite (extends_number_of sc sc'); [done..|]. apply Hknown. cbn. set_solver.
    + apply IH. intros v Hv. apply Hknown. cbn. set_solver.
Qed.

(** The substitution, for any fuel: every marker is replaced by the link with
    the number the registry holds at the end, the urls are noted in the order
    of their first sight, and the registry is extended, never changed. *)
Lemma citation_sub_ok fuel : ∀ text sc,
  registry_ok sc →
  ∃ out sc', citation_sub get_document fuel text sc = Return (out, sc')
    ∧ registry_ok sc' ∧ extends sc sc'
    ∧ known_urls sc' = foldl note (known_urls sc) (marker_urls (tokenize fuel text))
    ∧ out = render (citations sc') (tokenize fuel text).
Proof.
  induction fuel as [|fuel IH]; intros text sc Hok.
  - exists text, sc. destruct text as [|c tl]; cbn [citation_sub tokenize].
    + split_and!; [done|done|apply extends_refl|done|done].
    + split_and!; [done|done|apply extends_refl| |].
      * replace (marker_urls (Lit <$> c :: tl)) with (@nil str); [done|].
        unfold marker_urls. generalize (c :: tl). intros l. by induction l.
      * unfold render. generalize (c :: tl). intros l.
        induction l as [|x l IHl]; [done|]. rewrite !fmap_cons. cbn [concat app].
        by f_equal.
  - destruct text as [|c tl]; cbn [citation_sub tokenize].
    { exists [], sc. split_and!; [done|done|apply extends_refl|done|done]. }
    destruct (match_marker (c :: tl)) as [[u rest]|].
    + destruct (replace_and_update_map_ok u sc Hok) as (sc1 & -> & Hok1 & Hext1 & Hk1).
      cbn [mbind outcome_bind].
      destruct (IH rest sc1 Hok1) as (out & sc2 & -> & Hok2 & Hext2 & Hk2 & ->).
      cbn [mbind outcome_bind]. eexists _, sc2. split; [reflexivity|].
      split_and!; [done|by eapply extends_trans| |].
      * by rewrite Hk2, Hk1.
      * unfold render at 2. rewrite fmap_cons. cbn [concat]. f_equal.
        rewrite (extends_number_of sc1 sc2); [done..|].
        rewrite Hk1. apply (proj1 (note_known _ _)).
    + destruct (IH tl sc Hok) as (out & sc2 & -> & Hok2 & Hext2 & Hk2 & ->).
      cbn [mbind outcome_bind]. eexists _, sc2. split; [reflexivity|].
      split_and!; [done|done|done|done].
Qed.

Lemma rewrite_citations_ok text sc :
  registry_ok sc →
  ∃ out sc', rewrite_citations get_document text sc = Return (out, sc')
    ∧ registry_ok sc' ∧ extends sc sc'
    ∧ known_urls sc' = foldl note (known_urls sc) (markers text)
    ∧ out = render (citations sc') (tokens text).
Proof. apply citation_sub_ok. Qed.

(** All the rewrite calls of a run. *)
Lemma rewrite_all_ok texts : ∀ sc,
  registry_ok sc →
  ∃ outs sc', rewrite_all get_document texts sc = Return (outs, sc')
    ∧ registry_ok sc' ∧ extends sc sc'
    ∧ known_urls sc' = foldl note (known_urls sc) (concat (markers <$> texts))
    ∧ outs = (fun text => render (citations sc') (tokens text)) <$> texts.
Proof.
  induction texts as [|text texts IH]; intros sc Hok; cbn [rewrite_all].
  - exists [], sc. split_and!; [done|done|apply extends_refl|done|done].
  - destruct (rewrite_citations_ok text sc Hok) as (out & sc1 & -> & Hok1 & Hext1 & Hk1 & ->).
    cbn [mbind outcome_bind].
    destruct (IH sc1 Hok1) as (outs & sc2 & -> & Hok2 & Hext2 & Hk2 & ->).
    cbn [mbind outcome_bind]. eexists _, sc2. split; [reflexivity|].
    split_and!; [done|by eapply extends_trans| |].
    + rewrite fmap_cons. cbn [concat]. by rewrite foldl_app, <- Hk1.
    + rewrite fmap_cons. f_equal. symmetry. apply render_extends; [done|].
      intros u Hu. rewrite Hk1. by apply foldl_note_known.
Qed.

End Callback.

(** The numbers of a registry that keeps the invariant: the entry at
    position [k] holds number [k + 1], so two urls with the same number are
    the same url. *)
Lemma dict_get_lookup m : ∀ k u c,
  NoDup (fst <$> m) → m !! k = Some (u, c) → dict_get m u = Some c.
Proof.
  induction m as [|[v d] m IH]; intros k u c Hnodup Hk; [done|].
  rewrite fmap_cons in Hnodup. apply NoDup_cons in Hnodup as [Hv Hnodup].
  cbn [dict_get]. destruct k as [|k].
  - injection Hk as -> ->. by rewrite bool_decide_eq_true_2.
  - cbn in Hk. rewrite bool_decide_eq_false_2; [by eapply IH|].
    intros ->. apply Hv. apply list_elem_of_fmap. exists (u, c).
    split; [done|]. by eapply list_elem_of_lookup_2.
Qed.

Lemma registry_ok_position sc k u c :
  registry_ok sc → (citations sc : list (str * Citation)) !! k = Some (u, c) →
  number c = S k ∧ url c = u ∧ dict_get (citations sc) u = Some c.
Proof.
  intros (_ & Hnums & Hnodup & Hurls) Hk. split_and!.
  - assert (((fun e => number (snd e)) <$> citations sc) !! k = Some (number c)) as Hn
      by by rewrite list_lookup_fmap, Hk.
    rewrite Hnums in Hn. apply lookup_seq in Hn as [-> _]. done.
  - by apply (Forall_lookup_1 _ _ _ _ Hurls Hk).
  - by eapply dict_get_lookup.
Qed.

Lemma registry_ok_injective sc u v :
  registry_ok sc → u ∈ known_urls sc → v ∈ known_urls sc →
  number_of (citations sc) u = number_of (citations sc) v → u = v.
Proof.
  intros Hok Hu Hv. unfold known_urls in *.
  apply list_elem_of_fmap in Hu as ([u' c] & -> & Hu), Hv as ([v' d] & -> & Hv).
  apply list_elem_of_lookup in Hu as [i Hi], Hv as [j Hj]. cbn [fst].
  destruct (registry_ok_position sc i u' c Hok Hi) as (Hni & _ & Hgi).
  destruct (registry_ok_position sc j v' d Hok Hj) as (Hnj & _ & Hgj).
  unfold number_of. rewrite Hgi, Hgj, Hni, Hnj. intros [= ->]. congruence.
Qed.

(** ** The fuel of the substitution *)

Lemma strip_prefix_length (p s r : str) :
  strip_prefix p s = Some r → length s = length p + length r.
Proof.
  revert s. induction p as [|a p IH]; intros s; cbn [strip_prefix].
  - by intros [= ->].
  - destruct s as [|b s]; [done|]. destruct (a =? b)%N; [|done].
    intros Hr%IH. cbn. lia.
Qed.

Lemma span_url_length (s a b : str) :
  span_url s = (a, b) → length s = length a + length b.
Proof.
  revert a b. induction s as [|c s IH]; intros a b; cbn [span_url].
  - by intros [= <- <-].
  - destruct (url_char c).
    + destruct (span_url s) as [u r]. intros [= <- <-]. cbn. rewrite (IH u r eq_refl). lia.
    + by intros [= <- <-].
Qed.

Lemma match_tail_shorter (s t rest : str) :
  match_tail s = Some (t, rest) → length rest < length s.
Proof.
  unfold match_tail. destruct (strip_prefix (py "://") s) as [s1|] eqn:Hp; [|done].
  cbn [mbind option_bind]. destruct (span_url s1) as [body after] eqn:Hs.
  apply strip_prefix_length in Hp. apply span_url_length in Hs.
  destruct body as [|c body]; [done|]. destruct after as [|b after]; [done|].
  destruct (b =? 93)%N; [|done]. intros [= _ <-]. cbn in *. lia.
Qed.

Lemma match_marker_shorter (s u rest : str) :
  match_marker s = Some (u, rest) → length rest < length s.
Proof.
  unfold match_marker. destruct (strip_prefix (py "[ref:http") s) as [s1|] eqn:Hp; [|done].
  cbn [mbind option_bind]. apply strip_prefix_length in Hp.
  destruct (strip_prefix (py "s") s1) as [s2|] eqn:Hs; cbn [mbind option_bind].
  - apply strip_prefix_length in Hs.
    destruct (match_tail s2) as [[t r]|] eqn:Ht.
    + apply match_tail_shorter in Ht. intros [= _ <-]. lia.
    + destruct (match_tail s1) as [[t r]|] eqn:Ht1; [|done].
      apply match_tail_shorter in Ht1. intros [= _ <-]. lia.
  - destruct (match_tail s1) as [[t r]|] eqn:Ht1; [|done].
    apply match_tail_shorter in Ht1. intros [= _ <-]. lia.
Qed.

(** Every round consumes a character: with fuel for the length of the text
    the substitution never stops short, and more fuel changes nothing. *)
Lemma citation_sub_fuel get_document n : ∀ text sc f1 f2,
  length text ≤ n → n ≤ f1 → n ≤ f2 →
  citation_sub get_document f1 text sc = citation_sub get_document f2 text sc.
Proof.
  induction n as [|n IH]; intros text sc f1 f2 Hlen H1 H2.
  - destruct text; [|cbn in Hlen; lia]. by destruct f1, f2.
  - destruct text as [|c tl]; [by destruct f1, f2|].
    destruct f1 as [|f1]; [lia|]. destruct f2 as [|f2]; [lia|].
    cbn [citation_sub]. cbn in Hlen.
    destruct (match_marker (c :: tl)) as [[u rest]|] eqn:Hm.
    + apply match_marker_shorter in Hm. cbn in Hm.
      destruct (replace_and_update_map get_document u sc) as [[link sc1]|]; [|done].
      cbn [mbind outcome_bind]. by rewrite (IH rest sc1 f1 f2) by lia.
    + by rewrite (IH tl sc f1 f2) by lia.
Qed.

Lemma citation_sub_enough_fuel get_document fuel text sc :
  length text ≤ fuel →
  citation_sub get_document fuel text sc = rewrite_citations get_document text sc.
Proof. intros. unfold rewrite_citations. by apply (citation_sub_fuel _ (length text)). Qed.

Lemma tokenize_fuel n : ∀ text f1 f2,
  length text ≤ n → n ≤ f1 → n ≤ f2 → tokenize f1 text = tokenize f2 text.
Proof.
  induction n as [|n IH]; intros text f1 f2 Hlen H1 H2.
  - destruct text; [|cbn in Hlen; lia]. by destruct f1, f2.
  - destruct text as [|c tl]; [by destruct f1, f2|].
    destruct f1 as [|f1]; [lia|]. destruct f2 as [|f2]; [lia|].
    cbn [tokenize]. cbn in Hlen.
    destruct (match_marker (c :: tl)) as [[u rest]|] eqn:Hm.
    + apply match_marker_shorter in Hm. cbn in Hm. by rewrite (IH rest f1 f2) by lia.
    + by rewrite (IH tl f1 f2) by lia.
Qed.

(** Citation numbering.  With a source lookup the callback can read a title
    from, the rewrite calls of a run, on a registry that keeps the invariant
    (the fresh one does), all return; the registry they leave keeps the
    invariant and extends the one they started from, so no assignment
    changes; its urls are the urls of the markers in the order of their first
    sight; and every text comes back with each marker replaced by the link
    that carries the number the final registry holds for its url, so the
    same url has the same number in every text. *)
Theorem citation_numbering (get_document : str -> option pyobj) (texts : list str) sc :
  answers_title get_document → registry_ok sc →
  ∃ outs sc',
    rewrite_all get_document texts sc = Return (outs, sc')
    ∧ registry_ok sc'
    ∧ (fun e => number (snd e)) <$> citations sc' = seq 1 (length (citations sc'))
    ∧ extends sc sc'
    ∧ (∀ u c, dict_get (citations sc) u = Some c → dict_get (citations sc') u = Some c)
    ∧ known_urls sc' = foldl note (known_urls sc) (concat (markers <$> texts))
    ∧ outs = (fun text => render (citations sc') (tokens text)) <$> texts
    ∧ (∀ u v, u ∈ known_urls sc' → v ∈ known_urls sc' →
         number_of (citations sc') u = number_of (citations sc') v → u = v).
Proof.
  intros Hanswers Hok.
  destruct (rewrite_all_ok get_document Hanswers texts sc Hok)
    as (outs & sc' & Hrun & Hok' & Hext & Hknown & Houts).
  exists outs, sc'. split_and!; try done.
  - apply Hok'.
  - intros u c. by apply extends_stable.
  - intros u v. by apply registry_ok_injective.
Qed.

End Registry.

Lemma citation_numbering_witness :
  ∃ outs sc',
    rewrite_all (get_document_by_source_url false) [citation_scenario; citation_scenario]
      fresh_registry = Return (outs, sc')
    ∧ known_urls sc' = [url_a; url_b]
    ∧ (fun e => number (snd e)) <$> citations sc' = [1; 2].
Proof.
  destruct (citation_numbering (get_document_by_source_url false)
              [citation_scenario; citation_scenario] fresh_registry
              (fun u => ex_intro _ unknown_title eq_refl) fresh_registry_ok)
    as (outs & sc' & Hrun & _ & Hnums & _ & _ & Hknown & _).
  exists outs, sc'. split_and!; [exact Hrun| |].
  - rewrite Hknown. vm_compute. reflexivity.
  - rewrite Hnums.
    replace (length (citations sc')) with (length (known_urls sc'))
      by (unfold known_urls; apply length_fmap).
    rewrite Hknown. vm_compute. reflexivity.
Defined.

(** ** ResultAssembler *)

Section Assembler.
Implicit Types (c d : Citation) (l : list Citation) (m : citation_map).

Lemma insert_by_number_perm c l : insert_by_number c l ≡ₚ c :: l.
Proof.
  induction l as [|d l IH]; [done|]. cbn [insert_by_number].
  destruct (number c <? number d); [done|]. rewrite IH. apply Permutation_swap.
Qed.

Lemma insert_by_number_sorted c l :
  StronglySorted by_number l → StronglySorted by_number (insert_by_number c l).
Proof.
  induction 1 as [|d l Hs IH Hd]; cbn [insert_by_number].
  - repeat constructor.
  - destruct (number c <? number d) eqn:Hlt.
    + apply Nat.ltb_lt in Hlt. constructor; [by constructor|].
      constructor; [unfold by_number; lia|].
      eapply Forall_impl; [exact Hd|]. unfold by_number. intros; lia.
    + apply Nat.ltb_ge in Hlt. constructor; [done|].
      rewrite insert_by_number_perm. by constructor.
Qed.

Lemma sorted_citations_perm m : sorted_citations m ≡ₚ snd <$> m.
Proof.
  unfold sorted_citations. induction (snd <$> m) as [|c l IH]; [done|].
  cbn [foldr]. by rewrite insert_by_number_perm, IH.
Qed.

Lemma sorted_citations_sorted m : StronglySorted by_number (sorted_citations m).
Proof.
  unfold sorted_citations. induction (snd <$> m) as [|c l IH]; [constructor|].
  cbn [foldr]. by apply insert_by_number_sorted.
Qed.

(** Entries whose numbers already count up are left in their order. *)
Lemma sort_counting l : ∀ a,
  number <$> l = seq a (length l) → foldr insert_by_number [] l = l.
Proof.
  induction l as [|c l IH]; intros a Hnums; [done|].
  rewrite fmap_cons in Hnums. cbn [length seq] in Hnums.
  injection Hnums as Hc Hl. cbn [foldr]. rewrite (IH (S a) Hl).
  destruct l as [|d l]; [done|]. cbn [insert_by_number].
  rewrite fmap_cons in Hl. cbn [length seq] in Hl. injection Hl as Hd _.
  rewrite (proj2 (Nat.ltb_lt _ _)); [done|lia].
Qed.

Lemma sorted_citations_registry sc :
  registry_ok sc → sorted_citations (citations sc) = snd <$> citations sc.
Proof.
  intros (_ & Hnums & _ & _). unfold sorted_citations. apply (sort_counting _ 1).
  rewrite length_fmap, <- Hnums, <- list_fmap_compose. done.
Qed.

(** The assembler.  It writes the final answer and the final sources and
    nothing else.  The sources are the entries of the registry, each once,
    in ascending order of their numbers; for a registry that keeps the
    numbering invariant that is the order in which the urls were first
    cited.  An empty registry gives the empty answer and no sources; any
    other gives the header followed by one reference line per source. *)
Theorem final_assembler_sources (state : AgentState) :
  ∃ answer srcs,
    final_assembler state = mkUpdate None None None [] None (Some (answer, srcs))
    ∧ srcs ≡ₚ snd <$> citations (shared_context state)
    ∧ StronglySorted by_number srcs
    ∧ (citations (shared_context state) = [] → answer = [] ∧ srcs = [])
    ∧ (citations (shared_context state) ≠ [] →
       answer = join [10%N] (references_header :: (reference_line <$> srcs)))
    ∧ (registry_ok (shared_context state) →
       srcs = snd <$> citations (shared_context state)).
Proof.
  unfold final_assembler. destruct (citations (shared_context state)) as [|e m] eqn:Hm.
  - exists [], []. split_and!; [done|done|constructor|done|done|done].
  - exists (join [10%N] (references_header :: (reference_line <$> sorted_citations (e :: m)))),
      (sorted_citations (e :: m)).
    split_and!; [done|apply sorted_citations_perm|apply sorted_citations_sorted|done|done|].
    intros Hok. rewrite <- Hm. by apply sorted_citations_registry.
Qed.

End Assembler.

(** ** Lookups in the plan *)

Section PlanLookups.
Implicit Types (P : Plan) (id ty : str) (it : PlanItem) (i idx : nat).

Lemma find_from_None i P id :
  find_from i P id = None ↔ ∀ it, it ∈ P → item_id it ≠ id.
Proof.
  revert i. induction P as [|h P IH]; intros i; cbn [find_from].
  - split; [|done]. intros _ it Hin. by apply elem_of_nil in Hin.
  - case_bool_decide as Hh.
    + split; [done|]. intros Hall. exfalso. apply (Hall h); [left|done].
    + rewrite IH. split.
      * intros Hall it [->|Hin]%elem_of_cons; [done|by apply Hall].
      * intros Hall it Hin. apply Hall. by right.
Qed.

Lemma find_from_first i P id it idx :
  find_from i P id = Some (it, idx) →
  ∀ j it', j < idx - i → P !! j = Some it' → item_id it' ≠ id.
Proof.
  revert i. induction P as [|h P IH]; intros i; cbn [find_from]; [done|].
  case_bool_decide as Hh.
  - intros [= -> ->] j it' Hj. lia.
  - intros Hf j it' Hj Hl. destruct j as [|j]; [by injection Hl as ->|].
    apply find_from_Some in Hf as Hle. destruct Hle as (Hle & _).
    eapply (IH (S i) Hf j); [lia|done].
Qed.

Lemma find_from_unique i P it k :
  NoDup (item_id <$> P) → P !! k = Some it →
  find_from i P (item_id it) = Some (it, i + k).
Proof.
  revert i k. induction P as [|h P IH]; intros i k Hnd Hk; [done|].
  rewrite fmap_cons in Hnd. apply NoDup_cons in Hnd as [Hh Hnd].
  cbn [find_from]. destruct k as [|k].
  - injection Hk as ->. rewrite bool_decide_eq_true_2 by done. by rewrite Nat.add_0_r.
  - cbn in Hk. rewrite bool_decide_eq_false_2.
    + rewrite (IH (S i) k Hnd Hk). do 2 f_equal. lia.
    + intros Heq. apply Hh. rewrite Heq. apply list_elem_of_fmap. exists it.
      split; [done|]. by eapply list_elem_of_lookup_2.
Qed.

(** [_find_plan_item] finds the first item of the id: the item lies at the
    index returned, no earlier item has the id, and [None] means that no item
    has it.  With ids as keys every item of the plan is found, at its own
    index, by its id. *)
Theorem find_plan_item_first P id :
  match _find_plan_item P id with
  | Some (it, idx) =>
      P !! idx = Some it ∧ item_id it = id
      ∧ ∀ j it', j < idx → P !! j = Some it' → item_id it' ≠ id
  | None => ∀ it, it ∈ P → item_id it ≠ id
  end
  ∧ (unique_ids P → ∀ k it, P !! k = Some it → _find_plan_item P (item_id it) = Some (it, k)).
Proof.
  split.
  - destruct (_find_plan_item P id) as [[it idx]|] eqn:Hf.
    + destruct (find_plan_item_Some _ _ _ _ Hf) as (Hl & Hid & _). split_and!; [done..|].
      intros j it' Hj. apply (find_from_first 0 P id it idx Hf). lia.
    + exact (proj1 (find_from_None 0 P id) Hf).
  - intros Hu k it Hk. by apply (find_from_unique 0).
Qed.

Lemma find_eligible_None ty P :
  List.find (eligible ty) P = None ↔ ∀ it, it ∈ P → task_type it = ty → status it = completed.
Proof.
  induction P as [|h P IH]; cbn [List.find].
  - split; [|done]. intros _ it Hin. by apply elem_of_nil in Hin.
  - unfold eligible at 1. destruct (decide (task_type h = ty)) as [Ht|Ht];
      destruct (decide (status h = completed)) as [Hs|Hs];
      rewrite ?(bool_decide_eq_true_2 _ Ht), ?(bool_decide_eq_false_2 _ Ht),
        ?(bool_decide_eq_true_2 _ Hs), ?(bool_decide_eq_false_2 _ Hs); cbn [andb negb].
    all: try (rewrite IH; split;
              [intros Hall it [->|Hin]%elem_of_cons; [done|by apply Hall]
              |intros Hall it Hin; apply Hall; by right]).
    split; [done|]. intros Hall. exfalso. apply Hs, Hall; [left|done].
Qed.

Lemma find_eligible_Some ty P t :
  List.find (eligible ty) P = Some t →
  ∃ i, P !! i = Some t ∧ task_type t = ty ∧ status t ≠ completed
       ∧ ∀ j it, j < i → P !! j = Some it → task_type it = ty → status it = completed.
Proof.
  induction P as [|h P IH]; cbn [List.find]; [done|].
  destruct (eligible ty h) eqn:He.
  - intros [= ->]. exists 0. unfold eligible in He.
    apply andb_true_iff in He as [Ht Hs]. apply bool_decide_eq_true in Ht.
    apply negb_true_iff, bool_decide_eq_false in Hs.
    split_and!; [done..|]. intros j it Hj. lia.
  - intros (i & Hi & Ht & Hs & Hfirst)%IH. exists (S i). split_and!; [done..|].
    intros [|j] it Hj Hl Hty.
    + injection Hl as ->. unfold eligible in He.
      rewrite (bool_decide_eq_true_2 _ Hty) in He. cbn in He.
      apply negb_false_iff, bool_decide_eq_true in He. done.
    + eapply (Hfirst j); [lia|done..].
Qed.

(** The dispatch scan and the hand-off by id.  The scan selects the first item
    of its type that is not completed, so every earlier item of the type is
    completed, and it selects nothing exactly when every item of the type is
    completed.  With ids as keys the executor, which is handed the id alone,
    finds the very item the scan selected. *)
Theorem dispatch_hands_over_first_unfinished ty P :
  match next_task ty P with
  | Some t =>
      ∃ i, P !! i = Some t ∧ task_type t = ty ∧ status t ≠ completed
           ∧ (∀ j it, j < i → P !! j = Some it → task_type it = ty → status it = completed)
           ∧ (unique_ids P → _find_plan_item P (item_id t) = Some (t, i))
  | None => ∀ it, it ∈ P → task_type it = ty → status it = completed
  end.
Proof.
  unfold next_task. destruct (List.find (eligible ty) P) as [t|] eqn:Hf.
  - destruct (find_eligible_Some ty P t Hf) as (i & Hi & Ht & Hs & Hfirst).
    exists i. split_and!; [done..|]. intros Hu. by apply (find_from_unique 0).
  - exact (proj1 (find_eligible_None ty P) Hf).
Qed.

End PlanLookups.

(** ** What the executors and the summarizer leave alone *)

Section Frames.
Implicit Types (state : AgentState) (P : Plan) (id : str) (item : PlanItem) (idx : nat).

Lemma alter_found {A} (f : A → A) (l : list A) i x :
  l !! i = Some x → alter f i l = <[i := f x]> l.
Proof.
  intros Hi. apply list_eq. intros j. destruct (decide (i = j)) as [<-|Hne].
  - rewrite list_lookup_alter_eq, Hi, list_lookup_insert_eq; [done|].
    by eapply lookup_lt_Some.
  - by rewrite list_lookup_alter_ne, list_lookup_insert_ne.
Qed.

(** The research executor on a task it finds.  Whatever the collaborators do,
    it returns the plan with that one item replaced; the item keeps its id,
    type, description, dependencies and attempt count; its status comes out
    completed, with no error entry, or failed, with its old content and one
    error entry, never in progress; and its log only grows. *)
Theorem research_task_frame (w : ResearchWorld) state id item idx :
  truthy_id (current_plan_item_id state) = Some id →
  _find_plan_item (plan state) id = Some (item, idx) →
  ∃ item' errs,
    execute_research_task w state
      = update_plan_errors (<[idx := item']> (plan state)) errs
    ∧ same_task item item'
    ∧ (status item' = completed ∧ errs = []
       ∨ status item' = failed ∧ content item' = content item
         ∧ ∃ e, errs = [NodeError research_node (str_of_exn e)])
    ∧ (∃ line lines, execution_log item' = execution_log item ++ line :: lines)
    ∧ length (<[idx := item']> (plan state)) = length (plan state)
    ∧ (∀ j, j ≠ idx → <[idx := item']> (plan state) !! j = plan state !! j).
Proof.
  intros Hid Hfind. unfold execute_research_task. rewrite Hid, Hfind.
  assert (∀ it' errs,
    same_task item it' →
    (status it' = completed ∧ errs = []
     ∨ status it' = failed ∧ content it' = content item
       ∧ ∃ e, errs = [NodeError research_node (str_of_exn e)]) →
    (∃ line lines, execution_log it' = execution_log item ++ line :: lines) →
    ∃ item' errs',
      update_plan_errors (<[idx := it']> (plan state)) errs
        = update_plan_errors (<[idx := item']> (plan state)) errs'
      ∧ same_task item item'
      ∧ (status item' = completed ∧ errs' = []
         ∨ status item' = failed ∧ content item' = content item
           ∧ ∃ e, errs' = [NodeError research_node (str_of_exn e)])
      ∧ (∃ line lines, execution_log item' = execution_log item ++ line :: lines)
      ∧ length (<[idx := item']> (plan state)) = length (plan state)
      ∧ (∀ j, j ≠ idx → <[idx := item']> (plan state) !! j = plan state !! j)) as Hpack.
  { intros it' errs H1 H2 H3. exists it', errs. split_and!; [done..| |].
    - apply length_insert.
    - intros j Hj. by apply list_lookup_insert_ne. }
  unfold research_try. cbn [description set_status].
  destruct (search_invoke w (description item)) as [results|e].
  - cbn [description log_append].
    destruct (add_search_results_to_index w results id) as [[]|e].
    + destruct (build_snippets results) as [snippets|e].
      * apply Hpack; [done|by left|]. cbn. eexists _, _. by rewrite <- app_assoc.
      * apply Hpack; [done|right; eauto|]. cbn. eexists _, _. by rewrite <- app_assoc.
    + apply Hpack; [done|right; eauto|]. cbn. eexists _, _. by rewrite <- app_assoc.
  - apply Hpack; [done|right; eauto|]. cbn. by eexists _, _.
Qed.

(** The loop of the summarizer over the indices [i, i + n): an item keeps
    everything but its content, an item that is no WRITING item or lies
    outside the range keeps its content too, and a WRITING item without
    dependencies in the range gets the stub. *)
Lemma summarize_loop_frame llm n : ∀ i P P',
  summarize_loop llm (seq i n) P = Return P' →
  length P' = length P
  ∧ ∀ j a, P !! j = Some a →
      ∃ b, P' !! j = Some b ∧ restaged a b
        ∧ (task_type a ≠ WRITING ∨ j < i ∨ i + n ≤ j → b = a)
        ∧ (task_type a = WRITING → dependencies a = [] → i ≤ j < i + n →
           content b = no_material_stub (description a)).
Proof.
  induction n as [|n IH]; intros i P P'; cbn [seq summarize_loop].
  - intros [= <-]. split; [done|]. intros j a Hj. exists a.
    split_and!; [done|by destruct a|done|lia].
  - assert (∀ c item, P !! i = Some item → task_type item = WRITING →
              (dependencies item = [] → c = no_material_stub (description item)) →
              summarize_loop llm (seq (S i) n) (<[i := set_content c item]> P) = Return P' →
              length P' = length P
              ∧ ∀ j a, P !! j = Some a →
                  ∃ b, P' !! j = Some b ∧ restaged a b
                    ∧ (task_type a ≠ WRITING ∨ j < i ∨ i + S n ≤ j → b = a)
                    ∧ (task_type a = WRITING → dependencies a = [] → i ≤ j < i + S n →
                       content b = no_material_stub (description a))) as Hstep.
    { intros c item Hi Hw Hc Hloop. apply IH in Hloop as [Hlen Hrel].
      assert (length P' = length P) as Hlen'
        by (etransitivity; [exact Hlen|apply length_insert]).
      split; [done|]. intros j a Hj.
      destruct (decide (j = i)) as [->|Hne].
      - assert (a = item) as -> by congruence.
        destruct (Hrel i (set_content c item)) as (b & Hb & Hre & Hsame & _).
        { apply list_lookup_insert_eq. by eapply lookup_lt_Some. }
        rewrite (Hsame ltac:(lia)) in Hb. exists (set_content c item).
        split_and!; [done|done| |].
        + intros [?|[?|?]]; [done|lia|lia].
        + intros _ Hd _. cbn. by apply Hc.
      - destruct (Hrel j a) as (b & Hb & Hre & Hsame & Hstub).
        { etransitivity; [by apply list_lookup_insert_ne|done]. }
        exists b. split_and!; [done|done| |].
        + intros [?|[?|?]]; apply Hsame; [by left|right; left; lia|right; right; lia].
        + intros Hw' Hd Hr. apply Hstub; [done|done|lia]. }
    destruct (P !! i) as [item|] eqn:Hi.
    + unfold is_writing. case_bool_decide as Hw.
      * rewrite any_truthy_research_content. case_bool_decide as Hd; cbn [negb].
        -- apply Hstep; done.
        -- destruct (llm i _) as [response|e]; [|done]. cbn [mbind outcome_bind].
           apply Hstep; done.
      * intros Hloop. apply IH in Hloop as [Hlen Hrel]. split; [done|].
        intros j a Hj. destruct (Hrel j a Hj) as (b & Hb & Hre & Hsame & Hstub).
        exists b. split_and!; [done|done| |].
        -- intros [?|[?|?]]; [by apply Hsame; left| |apply Hsame; right; right; lia].
           destruct (decide (j = i)) as [->|]; [|apply Hsame; right; left; lia].
           apply Hsame. left. congruence.
        -- intros Hw' Hd Hr. destruct (decide (j = i)) as [->|]; [congruence|].
           apply Hstub; [done|done|lia].
    + intros Hloop. apply IH in Hloop as [Hlen Hrel]. split; [done|].
      intros j a Hj. destruct (Hrel j a Hj) as (b & Hb & Hre & Hsame & Hstub).
      exists b. assert (j ≠ i) by congruence. split_and!; [done|done| |].
      * intros [?|[?|?]]; apply Hsame; [by left|right; left; lia|right; right; lia].
      * intros Hw' Hd Hr. apply Hstub; [done|done|lia].
Qed.

(** The summarizer, when no call of the model raises.  It returns a plan of
    the same length in which every item is the item it was with, at most, a
    new content: ids, types, dependencies, statuses and logs stay.  An item
    that is no WRITING item is returned as it was, and a WRITING item
    without dependencies gets the "no material" stub. *)
Theorem plan_summarizer_frame (llm : nat → LlmRequest → outcome str) state u :
  call_plan_summarizer llm state = Return u →
  ∃ P', u = update_plan P'
    ∧ length P' = length (plan state)
    ∧ ∀ j a, plan state !! j = Some a →
        ∃ b, P' !! j = Some b ∧ restaged a b
          ∧ (task_type a ≠ WRITING → b = a)
          ∧ (task_type a = WRITING → dependencies a = [] →
             content b = no_material_stub (description a)).
Proof.
  unfold call_plan_summarizer.
  destruct (summarize_loop llm _ (plan state)) as [P'|e] eqn:Hloop; [|done].
  cbn [mbind outcome_bind]. intros [= <-]. exists P'. split; [done|].
  apply summarize_loop_frame in Hloop as [Hlen Hrel]. split; [done|].
  intros j a Hj. destruct (Hrel j a Hj) as (b & Hb & Hre & Hsame & Hstub).
  exists b. split_and!; [done|done|intros; apply Hsame; by left|].
  intros Hw Hd. apply Hstub; [done|done|]. apply lookup_lt_Some in Hj. lia.
Qed.

(** The writing executor on a task it finds, with a generation that returns
    and a source lookup it can read titles from.  It returns the plan with
    that one item completed, its content the generated text with every marker
    replaced by the numbered link, and the registry extended by the urls the
    text cites for the first time; no error entry is added and no other item
    changes. *)
Theorem writing_task_completes (ww : WritingWorld) state id item idx (raw : str) :
  answers_title (get_document ww) →
  registry_ok (shared_context state) →
  truthy_id (current_plan_item_id state) = Some id →
  _find_plan_item (plan state) id = Some (item, idx) →
  agent_executor_invoke ww (agent_input_of state item id) = Return raw →
  ∃ sc',
    execute_writing_task ww state
      = Return (mkUpdate
                  (Some (<[idx := set_status completed
                                    (set_content (render (citations sc') (tokens raw)) item)]>
                           (plan state)))
                  None None [] (Some sc') None)
    ∧ registry_ok sc'
    ∧ extends (shared_context state) sc'
    ∧ known_urls sc' = foldl note (known_urls (shared_context state)) (markers raw).
Proof.
  intros Hanswers Hok Hid Hfind Hgen. unfold execute_writing_task.
  rewrite Hid, Hfind, Hgen. cbn [mbind outcome_bind].
  unfold _process_citations_and_update_state.
  destruct (rewrite_citations_ok (get_document ww) Hanswers raw (shared_context state) Hok)
    as (out & sc' & -> & Hok' & Hext & Hknown & ->).
  cbn [mbind outcome_bind]. exists sc'. split_and!; [|done..].
  apply find_plan_item_Some in Hfind as (Hitem & _ & _).
  by rewrite (alter_found _ _ _ _ Hitem).
Qed.

End Frames.

Lemma research_task_frame_witness :
  ∃ item' errs,
    execute_research_task (search_fails timeout_error)
      (state_with [scenario_r1] (Some (py "r1")))
    = update_plan_errors (<[0 := item']> [scenario_r1]) errs
    ∧ same_task scenario_r1 item'.
Proof.
  destruct (research_task_frame (search_fails timeout_error)
              (state_with [scenario_r1] (Some (py "r1"))) (py "r1") scenario_r1 0
              eq_refl eq_refl)
    as (item' & errs & Hexec & Hsame & _).
  exists item', errs. split; [exact Hexec|exact Hsame].
Defined.

Lemma plan_summarizer_frame_witness :
  ∃ P', update_plan [failed_r1; set_content (py "summary") chapter_on_r1] = update_plan P'
        ∧ length P' = 2.
Proof.
  destruct (plan_summarizer_frame model_says_summary
              (state_with [failed_r1; chapter_on_r1] None)
              (update_plan [failed_r1; set_content (py "summary") chapter_on_r1]) eq_refl)
    as (P' & HP & Hlen & _).
  exists P'. split; [exact HP|exact Hlen].
Defined.

Lemma writing_task_completes_witness :
  ∃ sc',
    execute_writing_task (agent_writes citation_scenario false)
      (state_with [scenario_chapter] (Some (py "w1")))
    = Return (mkUpdate
                (Some (<[0 := set_status completed
                                (set_content
                                   (render (citations sc') (tokens citation_scenario))
                                   scenario_chapter)]> [scenario_chapter]))
                None None [] (Some sc') None)
    ∧ known_urls sc' = [url_a; url_b].
Proof.
  destruct (writing_task_completes (agent_writes citation_scenario false)
              (state_with [scenario_chapter] (Some (py "w1"))) (py "w1") scenario_chapter 0
              citation_scenario (fun u => ex_intro _ unknown_title eq_refl)
              fresh_registry_ok eq_refl eq_refl eq_refl)
    as (sc' & Hexec & _ & _ & Hknown).
  exists sc'. split; [exact Hexec|]. rewrite Hknown. vm_compute. reflexivity.
Defined.

(** ** The phases of a run *)

Section Phases.
Implicit Types (W : World) (c : config) (state : AgentState) (P : Plan) (ty : str).

Lemma keeps_completed_same_tasks P P' : keeps_completed P P' → same_tasks_as P P'.
Proof. intros H. eapply Forall2_impl; [exact H|]. naive_solver. Qed.

Lemma keeps_completed_refl P : keeps_completed P P.
Proof. apply Forall_Forall2_diag, Forall_forall. naive_solver. Qed.

Lemma same_tasks_as_refl P : same_tasks_as P P.
Proof. apply keeps_completed_same_tasks, keeps_completed_refl. Qed.

Lemma same_tasks_ids P P' :
  same_tasks_as P P' → item_id <$> P' = item_id <$> P ∧ task_type <$> P' = task_type <$> P.
Proof.
  induction 1 as [|a b P P' [Hid Hty] _ [IH1 IH2]]; [done|].
  rewrite !fmap_cons. by rewrite Hid, Hty, IH1, IH2.
Qed.

Lemma same_tasks_ids_nonempty P P' : same_tasks_as P P' → ids_nonempty P → ids_nonempty P'.
Proof.
  intros Hsame Hne b Hb.
  apply list_elem_of_lookup in Hb as [i Hi].
  destruct (Forall2_lookup_r _ _ _ _ _ Hsame Hi) as (a & Ha & Hid & _).
  rewrite Hid. apply Hne. by eapply list_elem_of_lookup_2.
Qed.

Lemma keeps_completed_all ty P P' :
  keeps_completed P P' → all_completed ty P → all_completed ty P'.
Proof.
  intros Hkeep Hall b Hb Hty.
  apply list_elem_of_lookup in Hb as [i Hi].
  destruct (Forall2_lookup_r _ _ _ _ _ Hkeep Hi) as (a & Ha & Hid & Hty' & Hst).
  apply Hst, Hall; [by eapply list_elem_of_lookup_2|congruence].
Qed.

Lemma same_tasks_insert (P : list PlanItem) i a b :
  P !! i = Some a → item_id b = item_id a → task_type b = task_type a →
  same_tasks_as P (<[i := b]> P).
Proof.
  intros Hi Hid Hty. apply Forall2_same_length_lookup. split.
  - symmetry. apply length_insert.
  - intros j x y Hx Hy. destruct (decide (i = j)) as [<-|Hne].
    + assert (<[i := b]> P !! i = Some b) as Hb
        by (apply list_lookup_insert_eq; by eapply lookup_lt_Some).
      assert (y = b) as -> by congruence. assert (x = a) as -> by congruence. done.
    + assert (<[i := b]> P !! j = P !! j) as Hj by by apply list_lookup_insert_ne.
      assert (y = x) as -> by congruence. done.
Qed.

Lemma keeps_completed_insert (P : list PlanItem) i a b :
  P !! i = Some a → item_id b = item_id a → task_type b = task_type a →
  status b = completed → keeps_completed P (<[i := b]> P).
Proof.
  intros Hi Hid Hty Hst. apply Forall2_same_length_lookup. split.
  - symmetry. apply length_insert.
  - intros j x y Hx Hy. destruct (decide (i = j)) as [<-|Hne].
    + assert (<[i := b]> P !! i = Some b) as Hb
        by (apply list_lookup_insert_eq; by eapply lookup_lt_Some).
      assert (y = b) as -> by congruence. assert (x = a) as -> by congruence. done.
    + assert (<[i := b]> P !! j = P !! j) as Hj by by apply list_lookup_insert_ne.
      assert (y = x) as -> by congruence. done.
Qed.

(** The plan after the research executor: the same tasks. *)
Lemma research_keeps_tasks (w : ResearchWorld) state :
  same_tasks_as (plan state) (plan (apply_update (execute_research_task w state) state)).
Proof.
  unfold execute_research_task.
  destruct (truthy_id _) as [id|]; [|apply same_tasks_as_refl].
  destruct (_find_plan_item _ _) as [[item idx]|] eqn:Hfind; [|apply same_tasks_as_refl].
  apply find_plan_item_Some in Hfind as (Hitem & _ & _).
  unfold research_try. cbn [description set_status].
  destruct (search_invoke w (description item)) as [results|e].
  - cbn [description log_append].
    destruct (add_search_results_to_index w results id) as [[]|e];
      [destruct (build_snippets results) as [snippets|e]|];
      by apply (same_tasks_insert _ _ item).
  - by apply (same_tasks_insert _ _ item).
Qed.

(** The plan after the summarizer: the same tasks, the same statuses. *)
Lemma summarizer_keeps_completed llm state u :
  call_plan_summarizer llm state = Return u →
  keeps_completed (plan state) (plan (apply_update u state)).
Proof.
  unfold call_plan_summarizer.
  destruct (summarize_loop llm _ (plan state)) as [P'|e] eqn:Hloop; [|done].
  cbn [mbind outcome_bind]. intros [= <-].
  apply summarize_loop_frame in Hloop as [Hlen Hrel].
  apply Forall2_same_length_lookup. split; [done|].
  intros j a b Ha Hb. destruct (Hrel j a Ha) as (b' & Hb' & Hre & _).
  change (plan (apply_update (update_plan P') state)) with P' in Hb.
  assert (b' = b) as -> by (apply (inj Some); exact (eq_trans (eq_sym Hb') Hb)).
  unfold restaged in Hre. rewrite Hre. done.
Qed.

(** The plan after the writing executor: the same tasks, one more
    completed. *)
Lemma writing_keeps_completed (ww : WritingWorld) state u :
  execute_writing_task ww state = Return u →
  keeps_completed (plan state) (plan (apply_update u state)).
Proof.
  unfold execute_writing_task.
  destruct (truthy_id _) as [id|]; [|done].
  destruct (_find_plan_item _ _) as [[item idx]|] eqn:Hfind; [|done].
  destruct (agent_executor_invoke ww _) as [raw|e]; [|done]. cbn [mbind outcome_bind].
  unfold _process_citations_and_update_state.
  destruct (rewrite_citations _ raw _) as [[out sc']|e]; [|done].
  cbn [mbind outcome_bind]. intros [= <-].
  apply find_plan_item_Some in Hfind as (Hitem & _ & _).
  rewrite (alter_found _ _ _ _ Hitem).
  by apply (keeps_completed_insert _ _ item).
Qed.

Lemma validated_ids_nonempty (raw : list RawItem) :
  Forall (fun r => raw_item_id r ≠ []) raw →
  ids_nonempty (_validate_and_correct_plan (complete_item_data <$> raw)).1.
Proof.
  intros Hraw it Hit. rewrite validate_spec in Hit. cbn [fst] in Hit.
  apply list_elem_of_fmap in Hit as (it0 & -> & Hit0).
  apply list_elem_of_fmap in Hit0 as (r & -> & Hr).
  rewrite validated_item_id. cbn. by apply (proj1 (Forall_forall _ _) Hraw).
Qed.

Lemma next_task_elem ty P t : next_task ty P = Some t → t ∈ P.
Proof.
  intros Hf. apply find_eligible_Some in Hf as (i & Hi & _).
  by eapply list_elem_of_lookup_2.
Qed.

(** One step keeps the invariant of the phases. *)
Lemma step_phase_invariant W c c' :
  plans_named_tasks W → phase_invariant c → step W c = Return c' → phase_invariant c'.
Proof.
  intros Hnamed (Hids & Hres & Hwri & _ & _).
  destruct c as [t n state]. cbn [at_node state_of] in *.
  unfold step. cbn [clock at_node state_of].
  destruct n; cbn [run_node next_node past_research past_writing] in *.
  - (* planner *)
    unfold call_planner. destruct (planner_reply W (input state)) as [[|raw outline]|e] eqn:Hr;
      cbn [mbind outcome_bind]; [| |done].
    + intros [= <-]. unfold phase_invariant. cbn [at_node state_of].
      split_and!; try done.
      intros it Hit. by apply elem_of_nil in Hit.
    + destruct (_validate_and_correct_plan (complete_item_data <$> raw))
        as [corrected errs] eqn:Hv.
      intros [= <-]. unfold phase_invariant. cbn [at_node state_of].
      split_and!; try done. cbn.
      change corrected with (corrected, errs).1. rewrite <- Hv.
      apply validated_ids_nonempty. by eapply Hnamed.
  - (* research supervisor *)
    cbn [mbind outcome_bind]. intros [= <-]. unfold phase_invariant. cbn [at_node state_of].
    unfold research_supervisor, route_research_action.
    destruct (apply_update_current (item_id <$> next_task RESEARCH (plan state)) state)
      as (Hp & Hc & _).
    rewrite Hc, Hp. destruct (next_task RESEARCH (plan state)) as [t0|] eqn:Hnext.
    + cbn [fmap option_fmap option_map].
      rewrite (truthy_id_nonempty (item_id t0)) by (by apply Hids, (next_task_elem RESEARCH)).
      split_and!; try done. intros _. exists t0. cbn [fmap option_fmap option_map] in Hp, Hc. by rewrite Hp, Hc.
    + cbn. split_and!; try done.
      intros _. exact (proj1 (find_eligible_None RESEARCH (plan state)) Hnext).
  - (* research executor *)
    cbn [mbind outcome_bind]. intros [= <-]. unfold phase_invariant. cbn [at_node state_of].
    split_and!; try done.
    eapply same_tasks_ids_nonempty; [apply research_keeps_tasks|done].
  - (* plan summarizer *)
    destruct (call_plan_summarizer _ state) as [u|e] eqn:Hu; [|done].
    cbn [mbind outcome_bind]. intros [= <-]. unfold phase_invariant. cbn [at_node state_of].
    pose proof (summarizer_keeps_completed _ _ _ Hu) as Hkeep.
    split_and!; try done.
    + eapply same_tasks_ids_nonempty; [by apply keeps_completed_same_tasks|done].
    + intros _. eapply keeps_completed_all; [done|by apply Hres].
  - (* overall summary *)
    unfold generate_overall_summary.
    destruct (List.filter is_writing (plan state)) as [|x l].
    + cbn [mbind outcome_bind]. intros [= <-]. unfold phase_invariant. cbn [at_node state_of].
      split_and!; try done; intros _; by apply Hres.
    + destruct (llm_invoke W t 0 _) as [response|e]; [|done].
      cbn [mbind outcome_bind]. intros [= <-]. unfold phase_invariant. cbn [at_node state_of].
      split_and!; try done; intros _; by apply Hres.
  - (* writing supervisor *)
    cbn [mbind outcome_bind]. intros [= <-]. unfold phase_invariant. cbn [at_node state_of].
    unfold writing_supervisor, route_writing_action.
    destruct (apply_update_current (item_id <$> next_task WRITING (plan state)) state)
      as (Hp & Hc & _).
    rewrite Hc, Hp. destruct (next_task WRITING (plan state)) as [t0|] eqn:Hnext.
    + cbn [fmap option_fmap option_map].
      rewrite (truthy_id_nonempty (item_id t0)) by (by apply Hids, (next_task_elem WRITING)).
      cbn [past_research past_writing]. split_and!; try done.
      intros _. exists t0. cbn [fmap option_fmap option_map] in Hp, Hc. by rewrite Hp, Hc.
    + cbn. split_and!; try done.
      intros _. exact (proj1 (find_eligible_None WRITING (plan state)) Hnext).
  - (* writing executor *)
    destruct (execute_writing_task _ state) as [u|e] eqn:Hu; [|done].
    cbn [mbind outcome_bind]. intros [= <-]. unfold phase_invariant. cbn [at_node state_of].
    pose proof (writing_keeps_completed _ _ _ Hu) as Hkeep.
    split_and!; try done.
    + eapply same_tasks_ids_nonempty; [by apply keeps_completed_same_tasks|done].
    + intros _. eapply keeps_completed_all; [done|by apply Hres].
  - (* final assembler *)
    cbn [mbind outcome_bind]. intros [= <-]. unfold phase_invariant. cbn [at_node state_of].
    assert (plan (apply_update (final_assembler state) state) = plan state) as ->.
    { unfold final_assembler. by destruct (citations _). }
    split_and!; done.
  - (* END *)
    cbn [mbind outcome_bind]. intros [= <-]. unfold phase_invariant. cbn [at_node state_of].
    split_and!; done.
Qed.

Lemma steps_phase_invariant W k : ∀ c c',
  plans_named_tasks W → phase_invariant c → steps W k c = Return c' → phase_invariant c'.
Proof.
  induction k as [|k IH]; intros c c' Hnamed Hinv; cbn [steps].
  - by intros [= <-].
  - destruct (step W c) as [c1|e] eqn:Hstep; [|done]. cbn [mbind outcome_bind].
    apply IH; [done|]. by eapply step_phase_invariant.
Qed.

Lemma initial_phase_invariant query : phase_invariant (initial_config query).
Proof.
  split_and!; try done. intros it Hit. by apply elem_of_nil in Hit.
Qed.

(** The order of the phases.  In a run whose planner gives every task an id
    that is not empty, wherever the run stands: past the research loop (at
    the summarizers, the writing loop, the assembler or the end) every
    RESEARCH task is completed; at the assembler or the end every WRITING
    task is completed too; and an executor is entered only on the id of the
    first task of its type that is not completed. *)
Theorem phase_order (W : World) (query : str) (k : nat) (c : config) :
  plans_named_tasks W →
  steps W k (initial_config query) = Return c →
  ids_nonempty (plan (state_of c))
  ∧ (past_research (at_node c) = true → all_completed RESEARCH (plan (state_of c)))
  ∧ (past_writing (at_node c) = true → all_completed WRITING (plan (state_of c)))
  ∧ (at_node c = n_research_executor → dispatched RESEARCH (state_of c))
  ∧ (at_node c = n_writing_executor → dispatched WRITING (state_of c)).
Proof.
  intros Hnamed Hsteps.
  exact (steps_phase_invariant W k _ _ Hnamed (initial_phase_invariant query) Hsteps).
Qed.

End Phases.

Lemma demo_world_names_tasks writer index_ready :
  plans_named_tasks (demo_world [raw_r1; raw_chapter] writer index_ready).
Proof.
  intros query raw outline [= <- _]. repeat constructor; by vm_compute.
Qed.

Lemma phase_order_witness :
  ∃ c, steps (demo_world [raw_r1; raw_chapter] (Return (py "text")) false) 7
         (initial_config (py "q")) = Return c
       ∧ at_node c = n_writing_executor
       ∧ all_completed RESEARCH (plan (state_of c)).
Proof.
  destruct (steps (demo_world [raw_r1; raw_chapter] (Return (py "text")) false) 7
              (initial_config (py "q"))) as [c|e] eqn:Hsteps.
  - exists c. split; [reflexivity|].
    assert (at_node c = n_writing_executor) as Hnode.
    { revert Hsteps. vm_compute. intros [= <-]. reflexivity. }
    split; [exact Hnode|].
    refine (proj1 (proj2 (phase_order _ (py "q") 7 c
                            (demo_world_names_tasks _ _) Hsteps)) _).
    rewrite Hnode. reflexivity.
  - exfalso. revert Hsteps. vm_compute. discriminate.
Defined.

(** ** A plan without tasks *)

Section EmptyPlan.
Implicit Types (W : World) (c : config) (state : AgentState).

Lemma steps_app W a : ∀ b c,
  steps W (a + b) c = (c' ← steps W a c; steps W b c').
Proof.
  induction a as [|a IH]; intros b c; cbn [steps Nat.add]; [done|].
  destruct (step W c) as [c1|e]; [|done]. cbn [mbind outcome_bind]. apply IH.
Qed.

Lemma steps_one W c : steps W 1 c = step W c.
Proof. cbn [steps]. by destruct (step W c). Qed.

Lemma apply_no_update state : apply_update no_update state = state.
Proof. destruct state. unfold apply_update. cbn. by rewrite app_nil_r. Qed.

Lemma steps_at_END W k : ∀ c,
  at_node c = n_END → ∃ t, steps W k c = Return (mkConfig t n_END (state_of c)).
Proof.
  induction k as [|k IH]; intros [t n state]; cbn [at_node state_of steps]; intros ->.
  - by eexists.
  - unfold step. cbn [clock at_node state_of run_node next_node mbind outcome_bind].
    rewrite apply_no_update. by apply (IH (mkConfig (S t) n_END state)).
Qed.

(** A run that is at [END] after [k] steps has finished, with the state it
    has there, whatever fuel is left. *)
Lemma run_finishes W k : ∀ c c' fuel,
  steps W k c = Return c' → at_node c' = n_END →
  run W (k + fuel) c = Finished (state_of c').
Proof.
  induction k as [|k IH]; intros c c' fuel; cbn [steps].
  - intros [= <-] Hend. destruct c as [t n state]. cbn in Hend. subst n.
    by destruct fuel.
  - intros Hsteps Hend. destruct (decide (at_node c = n_END)) as [Hc|Hc].
    + destruct (steps_at_END W (S k) c Hc) as [t Ht]. cbn [steps] in Ht.
      rewrite Ht in Hsteps. injection Hsteps as <-. cbn [state_of].
      destruct c as [t0 n state]. cbn in Hc. subst n. done.
    + cbn [Nat.add]. rewrite (run_not_END W _ c Hc).
      destruct (step W c) as [c1|]; [|done]. by apply IH.
Qed.

Lemma steps_empty_plan W t (state : AgentState) :
  plan state = [] → citations (shared_context state) = [] →
  steps W 5 (mkConfig t n_research_supervisor state)
  = Return (mkConfig (5 + t) n_END
              (mkAgentState (input state) (overall_outline state) [] [] []
                 None (error_log state) (shared_context state))).
Proof.
  destruct state as [inp out P fa fs cur el [cits next]]. cbn [plan shared_context citations].
  intros -> ->. vm_compute. do 2 f_equal. f_equal.
  change (((((el ++ []) ++ []) ++ []) ++ []) ++ [] = el). by rewrite !app_nil_r.
Qed.

(** The planner's reply is no JSON, or plans no task at all.  With any
    collaborators the run then goes through both supervisors, both
    summarizers and the assembler without calling the model again, and ends
    after six steps: the invocation surface reports success with an empty
    report, no sources, an empty plan and, for a reply that is no JSON, the
    planner's one error entry and an empty outline. *)
Theorem run_without_tasks (W : World) (query : str) (fuel : nat) :
  (planner_reply W query = Return InvalidJson →
   search_and_generate_report W (6 + fuel) query
   = Some (mkReport true None [] [] (Some []) []
             [NodeError (py "planner") (py "无法解析计划")]))
  ∧ (∀ outline, planner_reply W query = Return (PlanData [] outline) →
     search_and_generate_report W (6 + fuel) query
     = Some (mkReport true None [] [] (Some outline) [] [])).
Proof.
  assert (∀ (out : option str) errs,
    step W (initial_config query)
    = Return (mkConfig 1 n_research_supervisor
                (mkAgentState query out [] [] [] None errs fresh_registry)) →
    search_and_generate_report W (6 + fuel) query
    = Some (mkReport true None [] [] out [] errs)) as Hrun.
  { intros out errs Hstep. unfold search_and_generate_report.
    assert (steps W 6 (initial_config query)
            = Return (mkConfig 6 n_END
                        (mkAgentState query out [] [] [] None errs fresh_registry)))
      as Hsteps.
    { change 6 with (1 + 5) at 1. rewrite steps_app, steps_one, Hstep.
      cbn [mbind outcome_bind]. by rewrite steps_empty_plan. }
    by rewrite (run_finishes W 6 _ _ fuel Hsteps eq_refl). }
  split.
  - intros Hreply. apply Hrun. unfold step.
    cbn [clock at_node state_of initial_config run_node initial_state input].
    by rewrite Hreply.
  - intros outline Hreply. apply Hrun. unfold step.
    cbn [clock at_node state_of initial_config run_node initial_state input].
    by rewrite Hreply.
Qed.

End EmptyPlan.

(** ** A run with collaborators that answer *)

Lemma find_head_filter {A} (f : A → bool) (l : list A) :
  List.find f l = head (List.filter f l).
Proof. induction l as [|a l IH]; [done|]. cbn. by destruct (f a). Qed.

Lemma filter_insert_length {A} (f : A → bool) (l : list A) i a b :
  l !! i = Some a →
  length (List.filter f (<[i := b]> l)) + (if f a then 1 else 0)
  = length (List.filter f l) + (if f b then 1 else 0).
Proof.
  revert i. induction l as [|x l IH]; intros [|i]; cbn; try done.
  - intros [= ->]. destruct (f a), (f b); cbn; lia.
  - intros Hi. specialize (IH i Hi). destruct (f x); [exact (f_equal S IH)|exact IH].
Qed.

Lemma filter_length_rel {A} (f : A → bool) (l l' : list A) :
  Forall2 (fun a b => f b = f a) l l' →
  length (List.filter f l') = length (List.filter f l).
Proof. induction 1 as [|a b l l' Hab _ IH]; [done|]. cbn. rewrite Hab. destruct (f a); cbn; lia. Qed.

Lemma apply_update_plan p state :
  apply_update (update_plan p) state
  = mkAgentState (input state) (overall_outline state) p (final_answer state)
      (final_sources state) (current_plan_item_id state) (error_log state)
      (shared_context state).
Proof. unfold apply_update. cbn. by rewrite app_nil_r. Qed.

Lemma apply_update_current_id c state :
  apply_update (update_current c) state
  = mkAgentState (input state) (overall_outline state) (plan state) (final_answer state)
      (final_sources state) c (error_log state) (shared_context state).
Proof. unfold apply_update. cbn. by rewrite app_nil_r. Qed.

Lemma keeps_completed_trans P1 P2 P3 :
  keeps_completed P1 P2 → keeps_completed P2 P3 → keeps_completed P1 P3.
Proof.
  apply Forall2_trans. intros a b c (? & ? & ?) (? & ? & ?).
  split_and!; [congruence..|auto].
Qed.

Lemma keeps_completed_unique P P' : keeps_completed P P' → unique_ids P → unique_ids P'.
Proof.
  intros H%keeps_completed_same_tasks%same_tasks_ids. unfold unique_ids.
  by rewrite (proj1 H).
Qed.

Lemma unfinished_zero ty P : unfinished ty P = 0 → next_task ty P = None.
Proof.
  unfold unfinished, next_task. rewrite find_head_filter.
  by destruct (List.filter _ _).
Qed.

Lemma unfinished_succ ty P u : unfinished ty P = S u → ∃ task, next_task ty P = Some task.
Proof.
  unfold unfinished, next_task. rewrite find_head_filter.
  destruct (List.filter _ _) as [|task ?]; [done|]. by exists task.
Qed.

(** Completing the item at [i], which was not completed, takes one task off
    the loop of its type and none off the other loops. *)
Lemma unfinished_completed ty (P : list PlanItem) i a b :
  P !! i = Some a → task_type b = task_type a → status a ≠ completed →
  status b = completed →
  unfinished ty (<[i := b]> P) + (if bool_decide (task_type a = ty) then 1 else 0)
  = unfinished ty P.
Proof.
  intros Hi Hty Ha Hb. unfold unfinished.
  pose proof (filter_insert_length (eligible ty) P i a b Hi) as Hlen.
  unfold eligible in Hlen at 2 4. rewrite Hty, Hb in Hlen.
  rewrite (bool_decide_eq_true_2 (completed = completed)) in Hlen by done.
  rewrite (bool_decide_eq_false_2 (status a = completed)) in Hlen by done.
  rewrite andb_false_r, andb_true_r in Hlen. cbn [negb] in Hlen.
  change (list PlanItem) with Plan in *. lia.
Qed.

(** The research executor on a task whose search and indexing return. *)
Lemma execute_research_task_succeeds (w : ResearchWorld) state id item idx
    (results : list SearchResult) :
  truthy_id (current_plan_item_id state) = Some id →
  _find_plan_item (plan state) id = Some (item, idx) →
  search_invoke w (description item) = Return (of_SearchResult <$> results) →
  add_search_results_to_index w (of_SearchResult <$> results) id = Return () →
  ∃ item',
    execute_research_task w state = update_plan (<[idx := item']> (plan state))
    ∧ item_id item' = item_id item ∧ task_type item' = task_type item
    ∧ status item' = completed ∧ content item' = research_content results.
Proof.
  intros Hid Hfind Hsearch Hindex.
  unfold execute_research_task. rewrite Hid, Hfind. unfold research_try.
  cbn [description set_status]. rewrite Hsearch. cbn [description log_append].
  rewrite Hindex, build_snippets_SearchResult, raw_content_of_blocks. by eexists.
Qed.

(** The writing executor on a task whose generation returns. *)
Lemma execute_writing_task_returns (ww : WritingWorld) state id item idx raw :
  answers_title (get_document ww) →
  registry_ok (shared_context state) →
  truthy_id (current_plan_item_id state) = Some id →
  _find_plan_item (plan state) id = Some (item, idx) →
  agent_executor_invoke ww (agent_input_of state item id) = Return raw →
  ∃ item' sc',
    execute_writing_task ww state
      = Return (mkUpdate (Some (<[idx := item']> (plan state))) None None [] (Some sc') None)
    ∧ item_id item' = item_id item ∧ task_type item' = task_type item
    ∧ status item' = completed ∧ registry_ok sc'.
Proof.
  intros Hanswers Hok Hid Hfind Hgen. unfold execute_writing_task.
  rewrite Hid, Hfind, Hgen. cbn [mbind outcome_bind].
  unfold _process_citations_and_update_state.
  destruct (rewrite_citations_ok (get_document ww) Hanswers raw (shared_context state) Hok)
    as (out & sc' & -> & Hok' & _). cbn [mbind outcome_bind].
  apply find_plan_item_Some in Hfind as (Hitem & _ & _).
  rewrite (alter_found _ _ _ _ Hitem). by eexists _, sc'.
Qed.

Lemma summarize_loop_returns llm :
  (∀ i req, ∃ s, llm i req = Return s) →
  ∀ todo P, ∃ P', summarize_loop llm todo P = Return P'.
Proof.
  intros Hllm. induction todo as [|i rest IH]; intros P; cbn [summarize_loop]; [by eexists|].
  destruct (P !! i) as [item|]; [|apply IH]. destruct (is_writing item); [|apply IH].
  destruct (negb _); [apply IH|].
  destruct (Hllm i (ResearchSummarizerPrompt (description item)
                      (join [10; 10]%N (research_content_of P (dependencies item)))))
    as [s ->].
  cbn [mbind outcome_bind]. apply IH.
Qed.

Lemma summarize_loop_restaged llm (P P' : list PlanItem) :
  summarize_loop llm (seq 0 (length P)) P = Return P' → Forall2 restaged P P'.
Proof.
  intros Hloop. apply summarize_loop_frame in Hloop as [Hlen Hrel].
  apply Forall2_same_length_lookup. split; [done|].
  intros j a b Ha Hb. destruct (Hrel j a Ha) as (b' & Hb' & Hre & _).
  assert (b' = b) as -> by (apply (inj Some); exact (eq_trans (eq_sym Hb') Hb)).
  done.
Qed.

Section Termination.
Context (W : World) (Hrel : reliable W).

Lemma research_loop : ∀ u t state,
  unique_ids (plan state) → ids_nonempty (plan state) →
  unfinished RESEARCH (plan state) = u →
  ∃ state',
    steps W (2 * u + 1) (mkConfig t n_research_supervisor state)
    = Return (mkConfig (t + (2 * u + 1)) n_plan_summarizer state')
    ∧ keeps_completed (plan state) (plan state')
    ∧ all_completed RESEARCH (plan state')
    ∧ unfinished WRITING (plan state') = unfinished WRITING (plan state)
    ∧ error_log state' = error_log state
    ∧ shared_context state' = shared_context state.
Proof.
  destruct Hrel as (Hsearch & Hindex & _).
  induction u as [|u IH]; intros t state Huniq Hne Hu.
  - apply unfinished_zero in Hu as Hnext.
    exists (apply_update (research_supervisor state) state).
    change (2 * 0 + 1) with 1. rewrite steps_one, step_research_supervisor.
    unfold route_research_action, research_supervisor. rewrite Hnext.
    cbn [fmap option_fmap option_map]. rewrite apply_update_current_id.
    cbn [current_plan_item_id truthy_id plan error_log shared_context].
    split_and!; [by rewrite Nat.add_1_r|apply keeps_completed_refl| |done..].
    exact (proj1 (find_eligible_None _ _) Hnext).
  - destruct (unfinished_succ _ _ _ Hu) as [task Hnext].
    destruct (find_eligible_Some _ _ _ Hnext) as (i & Hi & Hty & Hst & _).
    assert (item_id task ≠ []) as Hid by (apply Hne; by eapply list_elem_of_lookup_2).
    set (state1 := mkAgentState (input state) (overall_outline state) (plan state)
                     (final_answer state) (final_sources state) (Some (item_id task))
                     (error_log state) (shared_context state)).
    assert (step W (mkConfig t n_research_supervisor state)
            = Return (mkConfig (S t) n_research_executor state1)) as Hstep1.
    { rewrite step_research_supervisor. unfold research_supervisor, route_research_action.
      rewrite Hnext. cbn [fmap option_fmap option_map]. rewrite apply_update_current_id.
      cbn [current_plan_item_id]. by rewrite (truthy_id_nonempty _ Hid). }
    destruct (Hsearch (S t) (description task)) as [results Hres].
    destruct (execute_research_task_succeeds (research_world W (S t)) state1
                (item_id task) task i results)
      as (item' & Hexec & Hid' & Hty' & Hst' & _).
    { by apply truthy_id_nonempty. }
    { apply (find_from_unique 0 _ _ _ Huniq Hi). }
    { done. }
    { apply Hindex. }
    set (state2 := mkAgentState (input state) (overall_outline state)
                     (<[i := item']> (plan state))
                     (final_answer state) (final_sources state) (Some (item_id task))
                     (error_log state) (shared_context state)).
    assert (step W (mkConfig (S t) n_research_executor state1)
            = Return (mkConfig (S (S t)) n_research_supervisor state2)) as Hstep2.
    { by rewrite step_research_executor, Hexec, apply_update_plan. }
    pose proof (keeps_completed_insert _ _ _ _ Hi Hid' Hty' Hst') as Hkeep1.
    pose proof (unfinished_completed RESEARCH _ _ _ _ Hi Hty' Hst Hst') as Hr.
    pose proof (unfinished_completed WRITING _ _ _ _ Hi Hty' Hst Hst') as Hw.
    rewrite Hty in Hr, Hw.
    rewrite bool_decide_eq_true_2 in Hr by done.
    rewrite (bool_decide_eq_false_2 _ RESEARCH_neq_WRITING) in Hw.
    rewrite Hu, Nat.add_1_r in Hr. apply Nat.succ_inj in Hr. rewrite Nat.add_0_r in Hw.
    destruct (IH (S (S t)) state2) as (state' & Hsteps & Hkeep & Hall & Hw' & Hlog & Hsc).
    { by apply (keeps_completed_unique _ _ Hkeep1). }
    { apply (same_tasks_ids_nonempty (plan state)); [|done].
      by apply keeps_completed_same_tasks. }
    { exact Hr. }
    exists state'. split_and!.
    + replace (2 * S u + 1) with (1 + (1 + (2 * u + 1))) by lia.
      rewrite steps_app, steps_one, Hstep1. cbn [mbind outcome_bind].
      rewrite steps_app, steps_one, Hstep2. cbn [mbind outcome_bind].
      rewrite Hsteps. do 2 f_equal. lia.
    + by apply (keeps_completed_trans _ _ _ Hkeep1).
    + done.
    + rewrite Hw'. exact Hw.
    + by rewrite Hlog.
    + by rewrite Hsc.
Qed.

Lemma writing_loop : ∀ u t state,
  unique_ids (plan state) → ids_nonempty (plan state) →
  registry_ok (shared_context state) →
  unfinished WRITING (plan state) = u →
  ∃ state',
    steps W (2 * u + 1) (mkConfig t n_writing_supervisor state)
    = Return (mkConfig (t + (2 * u + 1)) n_final_assembler state')
    ∧ keeps_completed (plan state) (plan state')
    ∧ all_completed WRITING (plan state')
    ∧ error_log state' = error_log state.
Proof.
  destruct Hrel as (_ & _ & _ & Hgen & Hdoc).
  induction u as [|u IH]; intros t state Huniq Hne Hok Hu.
  - apply unfinished_zero in Hu as Hnext.
    exists (apply_update (writing_supervisor state) state).
    change (2 * 0 + 1) with 1. rewrite steps_one, step_writing_supervisor.
    unfold route_writing_action, writing_supervisor. rewrite Hnext.
    cbn [fmap option_fmap option_map]. rewrite apply_update_current_id.
    cbn [current_plan_item_id truthy_id plan error_log].
    split_and!; [by rewrite Nat.add_1_r|apply keeps_completed_refl| |done].
    exact (proj1 (find_eligible_None _ _) Hnext).
  - destruct (unfinished_succ _ _ _ Hu) as [task Hnext].
    destruct (find_eligible_Some _ _ _ Hnext) as (i & Hi & Hty & Hst & _).
    assert (item_id task ≠ []) as Hid by (apply Hne; by eapply list_elem_of_lookup_2).
    set (state1 := mkAgentState (input state) (overall_outline state) (plan state)
                     (final_answer state) (final_sources state) (Some (item_id task))
                     (error_log state) (shared_context state)).
    assert (step W (mkConfig t n_writing_supervisor state)
            = Return (mkConfig (S t) n_writing_executor state1)) as Hstep1.
    { rewrite step_writing_supervisor. unfold writing_supervisor, route_writing_action.
      rewrite Hnext. cbn [fmap option_fmap option_map]. rewrite apply_update_current_id.
      cbn [current_plan_item_id]. by rewrite (truthy_id_nonempty _ Hid). }
    destruct (Hgen (S t) (agent_input_of state1 task (item_id task))) as [raw Hraw].
    destruct (execute_writing_task_returns (writing_world W (S t)) state1
                (item_id task) task i raw)
      as (item' & sc' & Hexec & Hid' & Hty' & Hst' & Hok').
    { apply Hdoc. }
    { done. }
    { by apply truthy_id_nonempty. }
    { apply (find_from_unique 0 _ _ _ Huniq Hi). }
    { done. }
    set (state2 := mkAgentState (input state) (overall_outline state)
                     (<[i := item']> (plan state))
                     (final_answer state) (final_sources state) (Some (item_id task))
                     (error_log state) sc').
    assert (step W (mkConfig (S t) n_writing_executor state1)
            = Return (mkConfig (S (S t)) n_writing_supervisor state2)) as Hstep2.
    { rewrite step_writing_executor, Hexec. cbn [mbind outcome_bind].
      unfold apply_update, state2. cbn. by rewrite app_nil_r. }
    pose proof (keeps_completed_insert _ _ _ _ Hi Hid' Hty' Hst') as Hkeep1.
    pose proof (unfinished_completed WRITING _ _ _ _ Hi Hty' Hst Hst') as Hw.
    rewrite Hty in Hw. rewrite bool_decide_eq_true_2 in Hw by done.
    rewrite Hu, Nat.add_1_r in Hw. apply Nat.succ_inj in Hw.
    destruct (IH (S (S t)) state2) as (state' & Hsteps & Hkeep & Hall & Hlog).
    { by apply (keeps_completed_unique _ _ Hkeep1). }
    { apply (same_tasks_ids_nonempty (plan state)); [|done].
      by apply keeps_completed_same_tasks. }
    { done. }
    { exact Hw. }
    exists state'. split_and!.
    + replace (2 * S u + 1) with (1 + (1 + (2 * u + 1))) by lia.
      rewrite steps_app, steps_one, Hstep1. cbn [mbind outcome_bind].
      rewrite steps_app, steps_one, Hstep2. cbn [mbind outcome_bind].
      rewrite Hsteps. do 2 f_equal. lia.
    + by apply (keeps_completed_trans _ _ _ Hkeep1).
    + done.
    + by rewrite Hlog.
Qed.

Lemma summarizer_step t state :
  ∃ P',
    step W (mkConfig t n_plan_summarizer state)
    = Return (mkConfig (S t) n_generate_overall_summary
                (mkAgentState (input state) (overall_outline state) P' (final_answer state)
                   (final_sources state) (current_plan_item_id state) (error_log state)
                   (shared_context state)))
    ∧ keeps_completed (plan state) P'
    ∧ unfinished WRITING P' = unfinished WRITING (plan state).
Proof.
  destruct Hrel as (_ & _ & Hllm & _).
  destruct (summarize_loop_returns (llm_invoke W t) (Hllm t)
              (seq 0 (length (plan state))) (plan state)) as [P' Hloop].
  exists P'. split_and!.
  - unfold step. cbn [run_node clock at_node state_of]. unfold call_plan_summarizer.
    rewrite Hloop. cbn [mbind outcome_bind]. by rewrite apply_update_plan.
  - apply summarize_loop_restaged in Hloop.
    eapply Forall2_impl; [exact Hloop|]. intros a b ->. done.
  - apply summarize_loop_restaged in Hloop. apply filter_length_rel.
    eapply Forall2_impl; [exact Hloop|]. intros a b ->. done.
Qed.

Lemma overall_summary_step t state :
  ∃ o,
    step W (mkConfig t n_generate_overall_summary state)
    = Return (mkConfig (S t) n_writing_supervisor
                (mkAgentState (input state) o (plan state) (final_answer state)
                   (final_sources state) (current_plan_item_id state) (error_log state)
                   (shared_context state))).
Proof.
  destruct Hrel as (_ & _ & Hllm & _).
  unfold step. cbn [run_node clock at_node state_of]. unfold generate_overall_summary.
  destruct (List.filter is_writing (plan state)) as [|w ws].
  - exists (overall_outline state). cbn [mbind outcome_bind].
    rewrite apply_no_update. by destruct state.
  - destruct (Hllm t 0 (OverallSummarizerPrompt
                          (join chapter_separator (chapter_summary <$> w :: ws))))
      as [s ->].
    exists (Some s). cbn [mbind outcome_bind]. unfold apply_update. cbn.
    by rewrite app_nil_r.
Qed.

End Termination.

Lemma validated_item_status P it : status (validated_item P it) = status it.
Proof. unfold validated_item. by destruct (decide _). Qed.

Lemma planned_pending raw : Forall (fun it => status it = pending) (planned raw).
Proof.
  unfold planned. rewrite validate_spec. cbn [fst]. apply Forall_forall. intros it Hit.
  apply list_elem_of_fmap in Hit as (it0 & -> & Hit0).
  apply list_elem_of_fmap in Hit0 as (r & -> & Hr).
  by rewrite validated_item_status.
Qed.

Lemma planned_ids raw : item_id <$> planned raw = raw_item_id <$> raw.
Proof.
  unfold planned. rewrite validate_spec. cbn [fst]. rewrite <- !list_fmap_compose.
  apply list_fmap_ext. intros i r _. cbn. by rewrite validated_item_id.
Qed.

Lemma unfinished_pending ty P :
  Forall (fun it => status it = pending) P →
  unfinished ty P = length (List.filter (fun it => bool_decide (task_type it = ty)) P).
Proof.
  unfold unfinished. induction 1 as [|it P Hit _ IH]; [done|]. cbn [List.filter].
  unfold eligible at 1. rewrite Hit.
  rewrite (bool_decide_eq_false_2 (pending = completed)) by done.
  rewrite andb_true_r. destruct (bool_decide _); cbn [length]; by rewrite IH.
Qed.

Lemma final_assembler_keeps state :
  plan (apply_update (final_assembler state) state) = plan state
  ∧ error_log (apply_update (final_assembler state) state) = error_log state.
Proof.
  unfold final_assembler. destruct (citations (shared_context state)); split; try done;
    unfold apply_update; cbn [error_log upd_error_log]; apply app_nil_r.
Qed.

Lemma steps_split W a b c c' :
  steps W (a + b) c = Return c' →
  ∃ c1, steps W a c = Return c1 ∧ steps W b c1 = Return c'.
Proof.
  rewrite steps_app. destruct (steps W a c) as [c1|]; [|done]. cbn [mbind outcome_bind].
  by exists c1.
Qed.

(** A run that is not at [END] after [n] steps has no report with less fuel. *)
Lemma no_report_before W n c c' k :
  steps W n c = Return c' → at_node c' ≠ n_END → k ≤ n →
  report_of (run W k c) = None.
Proof.
  intros Hsteps Hnode Hk. replace n with (k + (n - k)) in Hsteps by lia.
  apply steps_split in Hsteps as (c1 & Hk1 & Hrest).
  assert (at_node c1 ≠ n_END) as Hc1.
  { intros Hend. apply Hnode. by eapply steps_from_END. }
  rewrite <- (Nat.add_0_r k). rewrite (run_steps W k c c1 0 Hk1 Hc1).
  cbn [run]. by destruct (at_node c1).
Qed.


Lemma demo_world_reliable raw text :
  reliable (demo_world raw (Return text) false).
Proof.
  split_and!.
  - intros t desc. by exists [].
  - done.
  - intros t i req. by eexists.
  - intros t inp. by eexists.
  - intros t u. by exists unknown_title.
Qed.


(** ** The rewriting on the source lookup of the repository *)

Lemma lit_marker_urls (l : str) : marker_urls (Lit <$> l) = [].
Proof. unfold marker_urls. by induction l. Qed.

Lemma lit_render m (l : str) : render m (Lit <$> l) = l.
Proof.
  unfold render. induction l as [|x l IH]; [done|]. rewrite !fmap_cons. cbn [concat app].
  by f_equal.
Qed.

Lemma render_marker m u toks :
  render m (Marker u :: toks) = citation_link (number_of m u) u ++ render m toks.
Proof. done. Qed.

Lemma render_lit m c toks : render m (Lit c :: toks) = c :: render m toks.
Proof. done. Qed.

(** Citation rewriting on the source lookup of the repository with the
    index set registers nothing: it returns exactly on the texts all of whose
    markers carry urls the registry already holds, with the registry as it
    was and the markers replaced by the numbers it held; on any other text it
    raises the [AttributeError] of the [.metadata] read. *)
Theorem indexed_lookup_registers_nothing (text : str) (sc : SharedContext) :
  match rewrite_citations (get_document_by_source_url true) text sc with
  | Return (out, sc') =>
      sc' = sc
      ∧ Forall (fun u => u ∈ known_urls sc) (markers text)
      ∧ out = render (citations sc) (tokens text)
  | Raise e =>
      e = attribute_error_metadata
      ∧ Exists (fun u => u ∉ known_urls sc) (markers text)
  end.
Proof.
  unfold rewrite_citations, markers, tokens. generalize (length text) as fuel.
  intros fuel. revert text sc.
  induction fuel as [|fuel IH]; intros text sc.
  - destruct text as [|c tl]; cbn [citation_sub tokenize]; [done|].
    by rewrite lit_marker_urls, lit_render.
  - destruct text as [|c tl]; cbn [citation_sub tokenize]; [done|].
    destruct (match_marker (c :: tl)) as [[u rest]|].
    + unfold replace_and_update_map.
      destruct (dict_get (citations sc) u) as [cit|] eqn:Hget.
      * cbn [mbind outcome_bind]. specialize (IH rest sc).
        destruct (citation_sub _ fuel rest sc) as [[out sc']|e]; cbn [mbind outcome_bind].
        -- destruct IH as (-> & Hall & ->). split_and!; [done| |].
           ++ apply Forall_cons. split; [by eapply dict_get_Some_known|done].
           ++ rewrite render_marker. unfold number_of. by rewrite Hget.
        -- destruct IH as [-> Hex]. split; [done|]. by apply Exists_cons_tl.
      * cbn [get_document_by_source_url resolve_title mbind outcome_bind].
        split; [done|]. apply Exists_cons_hd. by apply dict_get_None.
    + specialize (IH tl sc).
      destruct (citation_sub _ fuel tl sc) as [[out sc']|e]; cbn [mbind outcome_bind].
      * destruct IH as (-> & Hall & ->). by rewrite render_lit.
      * done.
Qed.

(** ** The context of a chapter *)

Lemma index_of_id_app i (l1 l2 : list PlanItem) t :
  (∀ x, x ∈ l1 → item_id x ≠ item_id t) →
  index_of_id i (l1 ++ t :: l2) (item_id t) = Some (i + length l1).
Proof.
  revert i. induction l1 as [|x l1 IH]; intros i Hne; cbn [app index_of_id length].
  - rewrite bool_decide_eq_true_2 by done. f_equal. lia.
  - rewrite bool_decide_eq_false_2 by (apply Hne; left).
    rewrite IH by (intros y Hy; apply Hne; by right). f_equal. lia.
Qed.

Lemma unique_ids_lookup (P : list PlanItem) i j a b :
  unique_ids P → P !! i = Some a → P !! j = Some b → item_id a = item_id b → i = j.
Proof.
  intros Huniq Ha Hb Hid. apply (NoDup_lookup (item_id <$> P) i j (item_id a)); [done|..].
  - by rewrite list_lookup_fmap, Ha.
  - by rewrite list_lookup_fmap, Hb, Hid.
Qed.

Lemma elem_of_filter_bool {A} (f : A → bool) (l : list A) x :
  x ∈ List.filter f l ↔ x ∈ l ∧ f x = true.
Proof. rewrite !list_elem_of_In. apply filter_In. Qed.

(** The context of a chapter in plan order.  When the writing
    supervisor's scan selects item [t] of a plan with unique ids, the
    previous-chapter content the executor hands to the generation is the
    content of the WRITING item that precedes [t] in the plan, and the
    first-chapter note when [t] is the first WRITING item. *)
Theorem chapter_context_follows_plan_order (pre post : Plan) (t : PlanItem) :
  unique_ids (pre ++ t :: post) →
  next_task WRITING (pre ++ t :: post) = Some t →
  previous_chapter_content (pre ++ t :: post) (item_id t)
  = from_option content first_chapter_note (last (List.filter is_writing pre)).
Proof.
  intros Huniq Hnext.
  destruct (find_eligible_Some _ _ _ Hnext) as (i & Hi & Hty & _ & Hbefore).
  assert ((pre ++ t :: post) !! length pre = Some t) as Hmid
    by (by rewrite list_lookup_middle).
  assert (i = length pre) as -> by (by eapply unique_ids_lookup).
  assert (∀ x, x ∈ pre → item_id x ≠ item_id t) as Hpre.
  { intros x [j Hj]%list_elem_of_lookup Hid.
    assert ((pre ++ t :: post) !! j = Some x) as Hj' by (by apply lookup_app_l_Some).
    pose proof (unique_ids_lookup _ _ _ _ _ Huniq Hj' Hmid Hid) as ->.
    apply lookup_lt_Some in Hj. lia. }
  unfold previous_chapter_content. rewrite List.filter_app. cbn [List.filter].
  unfold is_writing at 2. rewrite bool_decide_eq_true_2 by done.
  rewrite index_of_id_app
    by (intros x [Hx _]%elem_of_filter_bool; by apply Hpre).
  cbn [Nat.add]. rewrite last_lookup.
  destruct (List.filter is_writing pre) as [|w ws] eqn:Hf; [cbn; reflexivity|].
  cbn [length Nat.pred].
  rewrite lookup_app_l by (cbn [length]; lia).
  destruct ((w :: ws) !! length ws) as [prev|] eqn:Hprev; [|cbn; reflexivity].
  cbn [from_option].
  assert (prev ∈ pre ∧ is_writing prev = true) as [[j Hj]%list_elem_of_lookup Hw].
  { apply elem_of_filter_bool. rewrite Hf. by eapply list_elem_of_lookup_2. }
  assert ((pre ++ t :: post) !! j = Some prev) as Hj' by (by apply lookup_app_l_Some).
  unfold _find_plan_item. rewrite (find_from_unique 0 _ _ _ Huniq Hj').
  rewrite bool_decide_eq_true_2; [done|].
  apply (Hbefore j prev); [by apply lookup_lt_Some in Hj|done|].
  by apply bool_decide_eq_true_1 in Hw.
Qed.

Lemma chapter_context_follows_plan_order_witness :
  previous_chapter_content
    ([set_status completed (set_content (py "one") scenario_chapter)]
       ++ scenario_chapter_two :: [])
    (item_id scenario_chapter_two)
  = py "one".
Proof.
  refine (eq_trans (chapter_context_follows_plan_order
            [set_status completed (set_content (py "one") scenario_chapter)] []
            scenario_chapter_two _ _) _).
  - apply (bool_decide_unpack
             (unique_ids ([set_status completed (set_content (py "one") scenario_chapter)]
                            ++ scenario_chapter_two :: []))).
    vm_compute. reflexivity.
  - vm_compute. reflexivity.
  - vm_compute. reflexivity.
Defined.

(** ** Stripping *)

Lemma lstrip_starts_clean s : starts_clean (lstrip s).
Proof.
  induction s as [|c s IH]; [done|]. cbn [lstrip].
  by destruct (is_space c) eqn:Hc.
Qed.

Lemma lstrip_fixed s : starts_clean s → lstrip s = s.
Proof. destruct s as [|c s]; [done|]. cbn. by intros ->. Qed.

Lemma rstrip_head c s : is_space c = false → rstrip (c :: s) = c :: rstrip s.
Proof. intros Hc. cbn [rstrip]. rewrite Hc. by destruct (rstrip s). Qed.

Lemma rstrip_starts_clean s : starts_clean s → starts_clean (rstrip s).
Proof. destruct s as [|c s]; [done|]. intros Hc. by rewrite (rstrip_head _ _ Hc). Qed.

Lemma rstrip_idem s : rstrip (rstrip s) = rstrip s.
Proof.
  induction s as [|c s IH]; [done|]. cbn [rstrip].
  destruct (rstrip s) as [|r rs] eqn:Hr.
  - destruct (is_space c) eqn:Hc; [done|]. cbn [rstrip]. by rewrite Hc.
  - change (rstrip (c :: r :: rs)) with
      (match rstrip (r :: rs) with
       | [] => if is_space c then [] else [c]
       | x => c :: x
       end).
    by rewrite IH.
Qed.

Lemma strip_idem s : strip (strip s) = strip s.
Proof.
  unfold strip.
  rewrite (lstrip_fixed (rstrip (lstrip s)))
    by apply rstrip_starts_clean, lstrip_starts_clean.
  apply rstrip_idem.
Qed.

(** [validate_response] never returns the empty text: what it returns
    has no white space at either end, is the stripped response when that is
    not empty and the apology otherwise, and validating it again changes
    nothing. *)
Theorem validate_response_clean (response : option str) :
  validate_response response ≠ []
  ∧ strip (validate_response response) = validate_response response
  ∧ validate_response (Some (validate_response response)) = validate_response response
  ∧ (∀ r, response = Some r →
       validate_response response = if truthy (strip r) then strip r else no_valid_reply).
Proof.
  assert (strip no_valid_reply = no_valid_reply) as Hsorry by (by vm_compute).
  assert (no_valid_reply ≠ []) as Hne by (by vm_compute).
  assert (∀ v, v ≠ [] → strip v = v → validate_response (Some v) = v) as Hfix.
  { intros v Hv Hs. unfold validate_response. rewrite Hs. by destruct v. }
  enough (validate_response response ≠ []
          ∧ strip (validate_response response) = validate_response response
          ∧ (∀ r, response = Some r →
               validate_response response
               = if truthy (strip r) then strip r else no_valid_reply))
    as (H1 & H2 & H3) by (split_and!; [done|done|by apply Hfix|done]).
  destruct response as [r|]; cbn [validate_response]; [|done].
  destruct r as [|c r]; cbn [truthy negb orb].
  { split_and!; [done|done|]. by intros r [= <-]. }
  destruct (strip (c :: r)) as [|d v] eqn:Hstrip; cbn [truthy negb].
  - split_and!; [done|done|]. intros r' [= <-]. by rewrite Hstrip.
  - assert (strip (d :: v) = d :: v) as Hs by (rewrite <- Hstrip; apply strip_idem).
    split_and!; [done|done|]. intros r' [= <-]. by rewrite Hstrip.
Qed.

(** ** The fenced block of the planner's reply *)

Lemma strip_prefix_app p r : strip_prefix p (p ++ r) = Some r.
Proof. induction p as [|a p IH]; [by destruct r|]. cbn. by rewrite N.eqb_refl. Qed.

Lemma strip_prefix_Some p s r : strip_prefix p s = Some r → s = p ++ r.
Proof.
  revert s. induction p as [|a p IH]; intros s; cbn [strip_prefix].
  - by intros [= ->].
  - destruct s as [|b s]; [done|].
    destruct (a =? b)%N eqn:Hab; [|done]. apply N.eqb_eq in Hab as ->.
    intros ->%IH. done.
Qed.

Lemma fence_chars : fence = [backtick; backtick; backtick].
Proof. by vm_compute. Qed.

Lemma json_chars : py "json" = [106; 115; 111; 110]%N.
Proof. by vm_compute. Qed.

Lemma match_group_cons c s :
  match_group (c :: s)
  = match match_group s with
    | Some g => Some (c :: g)
    | None => match strip_prefix fence (c :: s) with Some _ => Some [] | None => None end
    end.
Proof. done. Qed.

Lemma match_group_sound s : ∀ g, match_group s = Some g → ∃ rest, s = g ++ fence ++ rest.
Proof.
  induction s as [|c s IH]; intros g; [done|]. rewrite match_group_cons.
  destruct (match_group s) as [g'|].
  - intros [= <-]. destruct (IH g' eq_refl) as [rest ->]. by exists rest.
  - destruct (strip_prefix fence (c :: s)) as [rest|] eqn:Hp; [|done].
    intros [= <-]. exists rest. by apply strip_prefix_Some in Hp.
Qed.

Lemma match_group_complete g rest : match_group (g ++ fence ++ rest) ≠ None.
Proof.
  induction g as [|c g IH]; cbn [app].
  - destruct (fence ++ rest) as [|x l] eqn:Hf; [by rewrite fence_chars in Hf|].
    rewrite match_group_cons. destruct (match_group l); [done|].
    by rewrite <- Hf, strip_prefix_app.
  - rewrite match_group_cons. by destruct (match_group (g ++ fence ++ rest)).
Qed.

(** No fence begins in a text without backticks, nor one or two characters
    before it. *)
Lemma match_group_short post :
  Forall (fun c => c ≠ backtick) post →
  match_group post = None
  ∧ match_group (backtick :: post) = None
  ∧ match_group (backtick :: backtick :: post) = None.
Proof.
  assert (∀ c, c ≠ backtick → (backtick =? c)%N = false) as Hneq
    by (intros c Hc; apply N.eqb_neq; congruence).
  induction 1 as [|c post Hc _ (IH0 & IH1 & IH2)].
  - by vm_compute.
  - assert (match_group (c :: post) = None) as H0.
    { rewrite match_group_cons, IH0, fence_chars. cbn [strip_prefix].
      by rewrite (Hneq c Hc). }
    assert (match_group (backtick :: c :: post) = None) as H1.
    { rewrite match_group_cons, H0, fence_chars. cbn [strip_prefix].
      by rewrite N.eqb_refl, (Hneq c Hc). }
    split_and!; [done|done|].
    rewrite match_group_cons, H1, fence_chars. cbn [strip_prefix].
    by rewrite !N.eqb_refl, (Hneq c Hc).
Qed.

Lemma match_group_longest g post :
  Forall (fun c => c ≠ backtick) post → match_group (g ++ fence ++ post) = Some g.
Proof.
  intros Hpost. induction g as [|c g IH]; cbn [app].
  - destruct (match_group_short post Hpost) as (_ & _ & H2).
    rewrite fence_chars. cbn [app]. rewrite match_group_cons, H2, fence_chars.
    cbn [strip_prefix]. by rewrite !N.eqb_refl.
  - by rewrite match_group_cons, IH.
Qed.

Lemma match_fenced_sound s g :
  match_fenced s = Some g →
  ∃ tag post, s = fence ++ tag ++ g ++ fence ++ post ∧ (tag = [] ∨ tag = py "json").
Proof.
  unfold match_fenced. destruct (strip_prefix fence s) as [s1|] eqn:Hs; [|done].
  apply strip_prefix_Some in Hs as ->. cbn [mbind option_bind].
  destruct (strip_prefix (py "json") s1) as [s2|] eqn:Hj; cbn [mbind option_bind].
  - apply strip_prefix_Some in Hj as ->.
    destruct (match_group s2) as [g2|] eqn:H2.
    + intros [= <-]. destruct (match_group_sound _ _ H2) as [post ->].
      exists (py "json"), post. split; [done|by right].
    + intros [post ->]%match_group_sound. exists [], post. split; [done|by left].
  - intros [post ->]%match_group_sound. exists [], post. split; [done|by left].
Qed.

Lemma re_search_fenced_sound s : ∀ g,
  re_search_fenced s = Some g →
  ∃ pre tag post, s = pre ++ fence ++ tag ++ g ++ fence ++ post ∧ (tag = [] ∨ tag = py "json").
Proof.
  induction s as [|c s IH]; intros g; cbn [re_search_fenced].
  - destruct (match_fenced []) eqn:Hm; [|done]. intros [= <-].
    destruct (match_fenced_sound _ _ Hm) as (tag & post & Hs & Htag). by exists [], tag, post.
  - destruct (match_fenced (c :: s)) as [g'|] eqn:Hm.
    + intros [= <-]. destruct (match_fenced_sound _ _ Hm) as (tag & post & Hs & Htag).
      by exists [], tag, post.
    + intros (pre & tag & post & -> & Htag)%IH. by exists (c :: pre), tag, post.
Qed.

Lemma match_fenced_complete body post : match_fenced (fence ++ body ++ fence ++ post) ≠ None.
Proof.
  unfold match_fenced. rewrite strip_prefix_app. cbn [mbind option_bind].
  destruct (strip_prefix (py "json") (body ++ fence ++ post) ≫= match_group); [done|].
  apply match_group_complete.
Qed.

Lemma re_search_fenced_complete pre body post :
  re_search_fenced (pre ++ fence ++ body ++ fence ++ post) ≠ None.
Proof.
  induction pre as [|c pre IH].
  - pose proof (match_fenced_complete body post) as Hm. cbn [app].
    destruct (fence ++ body ++ fence ++ post) as [|x l]; cbn [re_search_fenced];
      by destruct (match_fenced _).
  - cbn [app re_search_fenced]. by destruct (match_fenced _).
Qed.

Lemma strip_prefix_json_app body rest :
  strip_prefix (py "json") body = None →
  strip_prefix (py "json") (body ++ fence ++ rest) = None.
Proof.
  rewrite json_chars, fence_chars.
  destruct body as [|a [|b [|c [|d body]]]]; cbn [strip_prefix app];
    repeat (match goal with
            | |- context [(?x =? ?y)%N] => destruct (x =? y)%N eqn:?
            end; try done).
Qed.

Lemma match_fenced_block body post :
  Forall (fun c => c ≠ backtick) post →
  match_fenced (fence ++ body ++ fence ++ post) = Some (drop_json body).
Proof.
  intros Hpost. unfold match_fenced, drop_json. rewrite strip_prefix_app.
  cbn [mbind option_bind].
  destruct (strip_prefix (py "json") body) as [b|] eqn:Hj.
  - apply strip_prefix_Some in Hj as ->. rewrite <- app_assoc, strip_prefix_app.
    cbn [mbind option_bind]. by rewrite (match_group_longest _ _ Hpost).
  - rewrite (strip_prefix_json_app _ _ Hj). cbn [mbind option_bind].
    by apply match_group_longest.
Qed.

Lemma re_search_fenced_block pre body post :
  Forall (fun c => c ≠ backtick) pre → Forall (fun c => c ≠ backtick) post →
  re_search_fenced (pre ++ fence ++ body ++ fence ++ post) = Some (drop_json body).
Proof.
  intros Hpre Hpost. induction Hpre as [|c pre Hc _ IH].
  - pose proof (match_fenced_block body post Hpost) as Hm. cbn [app].
    destruct (fence ++ body ++ fence ++ post) as [|x l]; cbn [re_search_fenced];
      by rewrite Hm.
  - cbn [app re_search_fenced].
    assert (match_fenced (c :: pre ++ fence ++ body ++ fence ++ post) = None) as ->; [|done].
    unfold match_fenced. rewrite fence_chars at 1. cbn [strip_prefix].
    assert ((backtick =? c)%N = false) as -> by (apply N.eqb_neq; congruence). done.
Qed.

(** [_clean_json_from_llm] returns a text without white space at
    either end.  A reply that holds no two fences comes back stripped.  In a
    reply with backticks only in its fenced part, the result is what stands
    between the first fence and the last one, without a leading [json], and
    stripped; so a reply that fences its JSON after [json] gives back exactly
    the stripped JSON.  Whatever is found lies between two fences of the
    reply. *)
Theorem clean_json_extracts_fenced_block (s : str) :
  strip (_clean_json_from_llm s) = _clean_json_from_llm s
  ∧ ((∀ pre body post, s ≠ pre ++ fence ++ body ++ fence ++ post) →
     _clean_json_from_llm s = strip s)
  ∧ (∀ pre body post,
       s = pre ++ fence ++ body ++ fence ++ post →
       Forall (fun c => c ≠ backtick) pre → Forall (fun c => c ≠ backtick) post →
       _clean_json_from_llm s = strip (drop_json body))
  ∧ (∀ pre json post,
       s = pre ++ fence ++ py "json" ++ json ++ fence ++ post →
       Forall (fun c => c ≠ backtick) pre → Forall (fun c => c ≠ backtick) post →
       _clean_json_from_llm s = strip json)
  ∧ (∀ g, re_search_fenced s = Some g →
       _clean_json_from_llm s = strip g
       ∧ ∃ pre tag post,
           s = pre ++ fence ++ tag ++ g ++ fence ++ post ∧ (tag = [] ∨ tag = py "json")).
Proof.
  unfold _clean_json_from_llm. split_and!.
  - destruct (re_search_fenced s); apply strip_idem.
  - intros Hnone. destruct (re_search_fenced s) as [g|] eqn:Hg; [|done].
    destruct (re_search_fenced_sound _ _ Hg) as (pre & tag & post & Hs & _).
    exfalso. apply (Hnone pre (tag ++ g) post). by rewrite <- app_assoc.
  - intros pre body post -> Hpre Hpost.
    by rewrite (re_search_fenced_block _ _ _ Hpre Hpost).
  - intros pre json post -> Hpre Hpost.
    rewrite (app_assoc (py "json") json).
    rewrite (re_search_fenced_block _ _ _ Hpre Hpost).
    unfold drop_json. by rewrite strip_prefix_app.
  - intros g Hg. rewrite Hg. split; [done|]. by apply re_search_fenced_sound.
Qed.

(** ** The search tool and the index service of the repository *)

Lemma slice_to_length {A} (n : Z) (l : list A) :
  (0 ≤ n)%Z → length (slice_to n l) ≤ Z.to_nat n.
Proof.
  intros Hn. unfold slice_to. rewrite (proj2 (Z.ltb_ge n 0) Hn), length_take. lia.
Qed.

Lemma parse_link_well_formed l r :
  parse_link l = Return (Some r) → well_formed_result r.
Proof.
  destruct l as [link|e]; [|done]. unfold parse_link. cbn [mbind outcome_bind].
  destruct (strip (link_text link)) as [|c t] eqn:Ht; [done|].
  destruct (default [] (link_href link)) as [|d u] eqn:Hu; [done|].
  cbn [truthy andb]. intros [= <-]. unfold well_formed_result.
  cbn [sr_title sr_url sr_snippet]. split_and!; [done|done| |].
  - rewrite <- Ht. apply strip_idem.
  - destruct (link_snippet link); [apply strip_idem|done].
Qed.

Lemma parse_links_spec links : ∀ results,
  Forall well_formed_result results →
  Forall well_formed_result (parse_links links results)
  ∧ length (parse_links links results) ≤ length results + length links.
Proof.
  induction links as [|l links IH]; intros results Hres; cbn [parse_links length].
  - split; [done|lia].
  - destruct (parse_link l) as [[r|]|e] eqn:Hl; cbn [try_except].
    + destruct (IH (results ++ [r])) as [Hwf Hlen].
      { apply Forall_app. split; [done|]. apply Forall_singleton.
        by eapply parse_link_well_formed. }
      split; [done|]. rewrite length_app in Hlen. cbn [length] in Hlen. lia.
    + destruct (IH results Hres) as [Hwf Hlen]. split; [done|lia].
    + destruct (IH results Hres) as [Hwf Hlen]. split; [done|lia].
Qed.

Lemma search_spec (web : Web) (query : str) (num_results : Z) :
  ∃ results,
    search web query num_results = Return results
    ∧ Forall well_formed_result results
    ∧ ((0 ≤ num_results)%Z → length results ≤ Z.to_nat num_results)
    ∧ (request_fails web query → results = []).
Proof.
  unfold search, _duckduckgo_search, request_fails.
  destruct (http_get web (duckduckgo_url query)) as [[status body]|e];
    cbn [mbind outcome_bind try_except].
  2: { exists []. split_and!; [done|done|cbn; lia|done]. }
  destruct (Nat.eqb_spec status 200) as [->|Hstatus]; cbn [try_except].
  2: { exists []. split_and!; [done|done|cbn; lia|done]. }
  destruct body as [html|e]; cbn [mbind outcome_bind try_except].
  2: { exists []. split_and!; [done|done|cbn; lia|done]. }
  unfold _parse_duckduckgo_results.
  destruct (find_result_links web html) as [links|e];
    cbn [mbind outcome_bind try_except].
  2: { exists []. split_and!; [done|done|cbn; lia|done]. }
  destruct (parse_links_spec (slice_to num_results links) [] (Forall_nil_2 _))
    as [Hwf Hlen].
  eexists. split_and!; [done|done| |].
  - intros Hn. pose proof (slice_to_length num_results links Hn). cbn [length] in Hlen. lia.
  - by intros [|].
Qed.

Lemma index_search_results_returns insert_nodes search_results id :
  index_search_results insert_nodes search_results id = Return ().
Proof.
  unfold index_search_results. destruct search_results as [|r rs]; [done|].
  destruct (List.filter indexable (r :: rs)) as [|d ds]; [done|].
  by destruct (insert_nodes (d :: ds) id) as [[]|].
Qed.

(** The search tool never raises.  Whatever the network and the HTML
    parser do, [search] returns a list: empty when the request does not come
    back with status 200 and a page the parser reads, never longer than a
    non-negative [num_results], and made of results with a non-empty title
    and url whose title and snippet carry no white space at the ends.
    [invoke] returns the empty list on a missing or empty query and the at
    most five results of [search] otherwise. *)
Theorem search_tool_never_raises (web : Web) :
  (∀ query num_results,
     ∃ results,
       search web query num_results = Return results
       ∧ Forall well_formed_result results
       ∧ ((0 ≤ num_results)%Z → length results ≤ Z.to_nat num_results)
       ∧ (request_fails web query → results = []))
  ∧ invoke web None = Return []
  ∧ invoke web (Some []) = Return []
  ∧ (∀ query, query ≠ [] →
       invoke web (Some query) = search web query 5
       ∧ ∃ results, invoke web (Some query) = Return results ∧ length results ≤ 5).
Proof.
  split_and!; [apply search_spec|done|done|].
  intros query Hq.
  assert (invoke web (Some query) = search web query 5) as Hinv
    by (by destruct query).
  split; [done|]. rewrite Hinv.
  destruct (search_spec web query 5) as (results & -> & _ & Hlen & _).
  exists results. split; [done|]. apply Hlen. lia.
Qed.

(** With the search tool and the index service of the repository a
    research task cannot fail: whatever the network, the parser and the index
    do, the executor completes the task it finds, with the content built from
    the results of [invoke] and no error entry; a request that fails, like an
    empty description, leaves the task completed with the "no information
    found" text as its content. *)
Theorem repo_research_task_completes (web : Web)
    (insert_nodes : list pyrecord → str → outcome unit) state id item idx :
  truthy_id (current_plan_item_id state) = Some id →
  _find_plan_item (plan state) id = Some (item, idx) →
  ∃ results item',
    invoke web (Some (description item)) = Return results
    ∧ execute_research_task (repo_research_world web insert_nodes) state
      = update_plan (<[idx := item']> (plan state))
    ∧ status item' = completed
    ∧ content item' = research_content results
    ∧ (request_fails web (description item) ∨ description item = [] →
       content item' = sentinel_no_information).
Proof.
  intros Hid Hfind.
  assert (∃ results, invoke web (Some (description item)) = Return results
                     ∧ (request_fails web (description item) ∨ description item = [] →
                        results = [])) as (results & Hinv & Hfail).
  { destruct (description item) as [|c d] eqn:Hd.
    - exists []. by split.
    - destruct (search_spec web (c :: d) 5) as (results & Hs & _ & _ & Hfail).
      exists results. split; [done|]. by intros [?|?]; [apply Hfail|]. }
  destruct (execute_research_task_succeeds (repo_research_world web insert_nodes)
              state id item idx results Hid Hfind)
    as (item' & Hexec & _ & _ & Hst & Hcontent).
  { cbn [search_invoke repo_research_world]. by rewrite Hinv. }
  { apply index_search_results_returns. }
  exists results, item'. split_and!; [done..|].
  intros Hf. by rewrite Hcontent, (Hfail Hf).
Qed.

Lemma repo_research_task_completes_witness :
  ∃ results item',
    invoke (mkWeb (fun _ => Raise timeout_error) (fun _ => Return []))
      (Some (description scenario_r1)) = Return results
    ∧ execute_research_task
        (repo_research_world (mkWeb (fun _ => Raise timeout_error) (fun _ => Return []))
           (fun _ _ => Return ()))
        (state_with [scenario_r1] (Some (py "r1")))
      = update_plan (<[0 := item']> [scenario_r1])
    ∧ status item' = completed.
Proof.
  destruct (repo_research_task_completes
              (mkWeb (fun _ => Raise timeout_error) (fun _ => Return []))
              (fun _ _ => Return ()) (state_with [scenario_r1] (Some (py "r1")))
              (py "r1") scenario_r1 0)
    as (results & item' & Hinv & Hexec & Hst & _).
  - vm_compute. reflexivity.
  - vm_compute. reflexivity.
  - exists results, item'. split_and!; [exact Hinv|exact Hexec|exact Hst].
Defined.

(** ** Plans behind references *)

Section References.
Import Store.

Lemma read_item_spec l h it h' :
  read_item l h = Some (it, h') ↔
  h' = h ∧ ∃ o log, dicts h !! l = Some o ∧ lists h !! o_execution_log o = Some log
                    ∧ it = item_of o log.
Proof.
  unfold read_item, hbind, get_dict, get_list, hret. split.
  - destruct (dicts h !! l) as [o|] eqn:Ho; [|done]. cbn.
    destruct (lists h !! o_execution_log o) as [v|] eqn:Hv; [|done]. cbn.
    intros [= <- <-]. split; [done|]. by exists o, v.
  - intros (-> & o & log & -> & Hlog & ->). cbn. by rewrite Hlog.
Qed.

Lemma read_plan_nil h : read_plan [] h = Some ([], h).
Proof. done. Qed.

Lemma read_plan_cons_Some l p h it P :
  read_item l h = Some (it, h) → read_plan p h = Some (P, h) →
  read_plan (l :: p) h = Some (it :: P, h).
Proof.
  intros Hit HP. unfold read_plan in *. cbn [hmap]. unfold hbind at 1. rewrite Hit.
  unfold hbind at 1. by rewrite HP.
Qed.

Lemma read_plan_pure p : ∀ h P h', read_plan p h = Some (P, h') → h' = h.
Proof.
  induction p as [|l p IH]; intros h P h'.
  - by intros [= _ <-].
  - intros (it & P' & -> & _ & Hrest)%read_plan_cons. by eapply IH.
Qed.

Lemma read_item_keeps h h' l it :
  heap_keeps h h' → read_item l h = Some (it, h) → read_item l h' = Some (it, h').
Proof.
  intros [Hd Hl] (_ & o & log & Ho & Hlog & ->)%read_item_spec.
  apply read_item_spec. split; [done|]. exists o, log.
  split_and!; [by eapply lookup_weaken|by eapply lookup_weaken|done].
Qed.

Lemma read_plan_keeps h h' p : ∀ P,
  heap_keeps h h' → read_plan p h = Some (P, h) → read_plan p h' = Some (P, h').
Proof.
  induction p as [|l p IH]; intros P Hkeep.
  - by intros [= <-].
  - intros Hread. apply read_plan_cons in Hread as Hc.
    destruct Hc as (it & P' & -> & Hit & Hrest).
    apply read_plan_cons_Some; [by eapply read_item_keeps|]. by apply IH.
Qed.

Lemma snapshot_Some h p P : snapshot h p = Some P ↔ read_plan p h = Some (P, h).
Proof.
  unfold snapshot. split.
  - destruct (read_plan p h) as [[P' h']|] eqn:Hread; [|done]. cbn. intros [= ->].
    by rewrite (read_plan_pure _ _ _ _ Hread).
  - by intros ->.
Qed.

Lemma snapshot_keeps h h' p P :
  heap_keeps h h' → snapshot h p = Some P → snapshot h' p = Some P.
Proof. rewrite !snapshot_Some. apply read_plan_keeps. Qed.

Lemma heap_keeps_refl h : heap_keeps h h.
Proof. by split. Qed.

Lemma heap_keeps_trans h1 h2 h3 : heap_keeps h1 h2 → heap_keeps h2 h3 → heap_keeps h1 h3.
Proof. intros [? ?] [? ?]. split; by etrans. Qed.

(** [[p.copy() for p in plan]]: new dicts, the old ones untouched. *)
Lemma copy_plan_frame p : ∀ h p' h',
  hmap copy_dict p h = Some (p', h') →
  heap_keeps h h' ∧ lists h' = lists h
  ∧ Forall (fun l' => l' ∉ dom (dicts h)) p'
  ∧ Forall (fun l' => l' ∈ dom (dicts h')) p'
  ∧ NoDup p'.
Proof.
  induction p as [|l p IH]; intros h p' h'; cbn [hmap].
  - intros [= <- <-]. split_and!; [apply heap_keeps_refl|done|done|done|constructor].
  - unfold hbind at 1. unfold copy_dict at 1. unfold hbind at 1, get_dict at 1.
    destruct (dicts h !! l) as [o|] eqn:Ho; [|done]. cbn [mbind option_bind].
    unfold new_dict at 1. cbn beta iota zeta.
    set (l' := fresh (dom (dicts h))).
    assert (l' ∉ dom (dicts h)) as Hfresh by apply is_fresh.
    set (h1 := mkHeap (<[l' := o]> (dicts h)) (lists h)).
    unfold hbind at 1.
    destruct (hmap copy_dict p h1) as [[p1 h2]|] eqn:Hrest; [|done].
    unfold hret. intros [= <- <-].
    destruct (IH _ _ _ Hrest) as ((Hd & Hl) & Hlists & Hnew & Hin & Hnd).
    assert (dicts h ⊆ dicts h1) as Hd1.
    { apply insert_subseteq. by apply not_elem_of_dom. }
    split_and!.
    + split; [by etrans|done].
    + done.
    + constructor; [done|]. eapply Forall_impl; [exact Hnew|].
      intros x Hx Hx'. apply Hx. cbn [dicts h1]. rewrite dom_insert. set_solver.
    + constructor.
      * apply elem_of_dom. exists o. eapply lookup_weaken; [|exact Hd].
        cbn [dicts h1]. apply lookup_insert_eq.
      * done.
    + constructor; [|done]. intros Hl'.
      apply (proj1 (Forall_forall _ _) Hnew) in Hl'. apply Hl'.
      cbn [dicts h1]. rewrite dom_insert. set_solver.
Qed.

(** ... and each copy reads as the dict it was copied from. *)
Lemma copy_plan_reads p : ∀ h P,
  read_plan p h = Some (P, h) →
  ∃ p' h', hmap copy_dict p h = Some (p', h') ∧ read_plan p' h' = Some (P, h').
Proof.
  induction p as [|l p IH]; intros h P Hread; cbn [hmap].
  - injection Hread as <-. by exists [], h.
  - apply read_plan_cons in Hread as Hc. destruct Hc as (it & P' & -> & Hit & Hrest).
    apply read_item_spec in Hit as (_ & o & log & Ho & Hlog & ->).
    unfold hbind at 1. unfold copy_dict at 1. unfold hbind at 1, get_dict at 1.
    rewrite Ho. cbn [mbind option_bind]. unfold new_dict at 1. cbn beta iota zeta.
    set (l' := fresh (dom (dicts h))).
    assert (l' ∉ dom (dicts h)) as Hfresh by apply is_fresh.
    set (h1 := mkHeap (<[l' := o]> (dicts h)) (lists h)).
    assert (heap_keeps h h1) as Hk1.
    { split; [|done]. apply insert_subseteq. by apply not_elem_of_dom. }
    destruct (IH h1 P' (read_plan_keeps h h1 p P' Hk1 Hrest)) as (p1 & h2 & Hcopy & Hr).
    unfold hbind at 1. rewrite Hcopy. unfold hret. exists (l' :: p1), h2.
    split; [done|].
    destruct (copy_plan_frame _ _ _ _ Hcopy) as ((Hd & Hl) & Hlists & _).
    apply read_plan_cons_Some; [|done].
    apply read_item_spec. split; [done|]. exists o, log. split_and!; [| |done].
    + eapply lookup_weaken; [|exact Hd]. cbn [dicts h1]. apply lookup_insert_eq.
    + eapply lookup_weaken; [|exact Hl]. done.
Qed.

Lemma read_plan_length p : ∀ h P h', read_plan p h = Some (P, h') → length P = length p.
Proof.
  induction p as [|l p IH]; intros h P h'.
  - by intros [= <- _].
  - intros (it & P' & -> & _ & Hrest)%read_plan_cons. cbn [length]. f_equal. by eapply IH.
Qed.

(** An assignment to a key of one dict of a plan that names distinct dicts
    shows in the item read behind it, and nowhere else in the plan. *)
Lemma modify_dict_reads (g : item_obj → item_obj) (g' : PlanItem → PlanItem) cur p :
  (∀ o log, item_of (g o) log = g' (item_of o log)) →
  (∀ o, o_execution_log (g o) = o_execution_log o) →
  ∀ h P idx,
  NoDup p → p !! idx = Some cur → read_plan p h = Some (P, h) →
  ∃ h', modify_dict g cur h = Some (tt, h')
        ∧ lists h' = lists h
        ∧ (∀ l, l ≠ cur → dicts h' !! l = dicts h !! l)
        ∧ read_plan p h' = Some (alter g' idx P, h').
Proof.
  intros Hg Hlog. induction p as [|l p IH]; intros h P idx Hnd Hidx Hread; [done|].
  apply NoDup_cons in Hnd as [Hl Hnd].
  apply read_plan_cons in Hread as Hc. destruct Hc as (it & P' & -> & Hit & Hrest).
  assert (∀ cur o h, dicts h !! cur = Some o →
            modify_dict g cur h = Some (tt, mkHeap (<[cur := g o]> (dicts h)) (lists h)))
    as Hmod.
  { intros c o h0 Ho. unfold modify_dict, hbind, get_dict, put_dict. by rewrite Ho. }
  assert (∀ (q : plan_ref) c o h0 Q, c ∉ q → read_plan q h0 = Some (Q, h0) →
            read_plan q (mkHeap (<[c := g o]> (dicts h0)) (lists h0))
            = Some (Q, mkHeap (<[c := g o]> (dicts h0)) (lists h0))) as Hother.
  { intros q c o h0. induction q as [|x q IHq]; intros Q Hc Hq.
    - by injection Hq as <-.
    - apply read_plan_cons in Hq as Hq'. destruct Hq' as (a & Q' & -> & Ha & Hq').
      apply not_elem_of_cons in Hc as [Hx Hc].
      apply read_plan_cons_Some; [|by apply IHq].
      apply read_item_spec in Ha as (_ & ox & lx & Hox & Hlx & ->).
      apply read_item_spec. split; [done|]. exists ox, lx.
      split_and!; [|done|done]. cbn [dicts]. by rewrite lookup_insert_ne. }
  destruct idx as [|idx]; cbn [lookup list_lookup] in Hidx.
  - injection Hidx as ->.
    apply read_item_spec in Hit as (_ & o & log & Ho & Hlg & ->).
    exists (mkHeap (<[cur := g o]> (dicts h)) (lists h)).
    split_and!; [by apply Hmod|done| |].
    + intros l Hne. cbn [dicts]. by rewrite lookup_insert_ne.
    + cbn [alter list_alter]. apply read_plan_cons_Some; [|by apply Hother].
      apply read_item_spec. split; [done|]. exists (g o), log.
      split_and!; [cbn [dicts]; apply lookup_insert_eq|by rewrite Hlog|by rewrite Hg].
  - destruct (IH h P' idx Hnd Hidx Hrest) as (h' & Hm & Hlists & Hd & Hr).
    exists h'. split_and!; [done|done|done|].
    cbn [alter list_alter]. apply read_plan_cons_Some; [|done].
    assert (l ≠ cur) as Hne.
    { intros ->. apply Hl. by eapply list_elem_of_lookup_2. }
    apply read_item_spec in Hit as (_ & o & log & Ho & Hlg & ->).
    apply read_item_spec. split; [done|]. exists o, log.
    split_and!; [by rewrite Hd|by rewrite Hlists|done].
Qed.

(** The writing executor on a plan behind references, the generated
    text already rewritten.  On a plan that reads as [P] it returns; every
    object the heap held is as it was, so every snapshot taken before, of
    this plan or of another, reads as it read; when the current id names an
    item of [P] the plan it returns is made of new dicts and reads as [P] with
    that item completed and holding the text, and otherwise the heap is the
    same and a [ValueError] is raised. *)
Theorem writing_executor_copies_plan (processed_content : str) (plan : plan_ref)
    (cur : option str) (h : heap) (P : Plan) :
  snapshot h plan = Some P →
  ∃ r h',
    execute_writing_task_ref processed_content plan cur h = Some (r, h')
    ∧ heap_keeps h h'
    ∧ (∀ q Q, snapshot h q = Some Q → snapshot h' q = Some Q)
    ∧ match truthy_id cur with
      | Some id =>
          match _find_plan_item P id with
          | Some (item, idx) =>
              ∃ p', r = Return p'
                ∧ Forall (fun l => l ∉ dom (dicts h)) p'
                ∧ snapshot h' p'
                  = Some (<[idx := set_status completed
                                     (set_content processed_content item)]> P)
          | None => h' = h ∧ ∃ msg, r = Raise (ValueError msg)
          end
      | None => h' = h ∧ ∃ msg, r = Raise (ValueError msg)
      end.
Proof.
  intros Hsnap.
  enough (∃ r h',
    execute_writing_task_ref processed_content plan cur h = Some (r, h')
    ∧ heap_keeps h h'
    ∧ match truthy_id cur with
      | Some id =>
          match _find_plan_item P id with
          | Some (item, idx) =>
              ∃ p', r = Return p'
                ∧ Forall (fun l => l ∉ dom (dicts h)) p'
                ∧ snapshot h' p'
                  = Some (<[idx := set_status completed
                                     (set_content processed_content item)]> P)
          | None => h' = h ∧ ∃ msg, r = Raise (ValueError msg)
          end
      | None => h' = h ∧ ∃ msg, r = Raise (ValueError msg)
      end) as (r & h' & Hrun & Hkeep & Hres).
  { exists r, h'. split_and!; [done|done| |done].
    intros q Q. by apply snapshot_keeps. }
  unfold execute_writing_task_ref.
  destruct (truthy_id cur) as [id|].
  2: { eexists _, h. split_and!; [done|apply heap_keeps_refl|done|by eexists]. }
  destruct (find_ref_snapshot plan 0 id h P Hsnap) as (found & Hfound & Hidx).
  unfold hbind at 1. rewrite Hfound. unfold _find_plan_item.
  destruct (find_from 0 P id) as [[item idx]|] eqn:Hfind; destruct found as [[l idx']|];
    try done.
  2: { eexists _, h. split_and!; [done|apply heap_keeps_refl|done|by eexists]. }
  injection Hidx as ->.
  apply find_plan_item_Some in Hfind as (Hitem & _ & Hlt).
  apply snapshot_Some in Hsnap.
  destruct (copy_plan_reads plan h P Hsnap) as (p' & h1 & Hcopy & Hread1).
  destruct (copy_plan_frame _ _ _ _ Hcopy) as (Hk1 & Hlists1 & Hnew & _ & Hnd).
  unfold hbind at 1. rewrite Hcopy.
  destruct (lookup_lt_is_Some_2 p' idx) as [c Hc].
  { by rewrite <- (read_plan_length _ _ _ _ Hread1). }
  rewrite Hc.
  destruct (modify_dict_reads (o_set_content processed_content)
              (set_content processed_content) c p' (fun _ _ => eq_refl) (fun _ => eq_refl)
              h1 P idx Hnd Hc Hread1) as (h2 & Hm2 & Hlists2 & Hd2 & Hread2).
  destruct (modify_dict_reads (o_set_status completed) (set_status completed) c p'
              (fun _ _ => eq_refl) (fun _ => eq_refl) h2 _ idx Hnd Hc Hread2)
    as (h3 & Hm3 & Hlists3 & Hd3 & Hread3).
  unfold hbind at 1. rewrite Hm2. unfold hbind at 1. rewrite Hm3. unfold hret.
  assert (c ∉ dom (dicts h)) as Hcnew.
  { apply (proj1 (Forall_forall _ _) Hnew). by eapply list_elem_of_lookup_2. }
  exists (Return p'), h3. split_and!; [done| |].
  - destruct Hk1 as [Hkd Hkl]. split.
    + apply map_subseteq_spec. intros x o Hx.
      assert (x ≠ c) as Hne by (intros ->; apply Hcnew, elem_of_dom; by exists o).
      rewrite (Hd3 x Hne), (Hd2 x Hne). by eapply lookup_weaken.
    + by rewrite Hlists3, Hlists2.
  - exists p'. split_and!; [done|done|]. apply snapshot_Some. rewrite Hread3.
    do 2 f_equal. etrans; [apply list_alter_alter_eq|].
    exact (alter_found _ _ _ _ Hitem).
Qed.

Lemma writing_executor_copies_plan_witness :
  ∃ p h0 r h',
    store_plan [scenario_chapter] empty_heap = Some (p, h0)
    ∧ execute_writing_task_ref (py "text") p (Some (py "w1")) h0 = Some (r, h')
    ∧ heap_keeps h0 h'.
Proof.
  destruct (store_plan [scenario_chapter] empty_heap) as [[p h0]|] eqn:Hstore.
  - assert (snapshot h0 p = Some [scenario_chapter]) as Hsnap.
    { revert Hstore. vm_compute. intros [= <- <-]. reflexivity. }
    destruct (writing_executor_copies_plan (py "text") p (Some (py "w1")) h0
                [scenario_chapter] Hsnap) as (r & h' & Hrun & Hkeep & _).
    exists p, h0, r, h'. split_and!; [reflexivity|exact Hrun|exact Hkeep].
  - exfalso. revert Hstore. vm_compute. discriminate.
Defined.

End References.

Section ValidatorOnReferences.
Import Store.

Lemma read_plan_insert_other (q : plan_ref) c (o' : item_obj) h Q :
  c ∉ q → read_plan q h = Some (Q, h) →
  read_plan q (mkHeap (<[c := o']> (dicts h)) (lists h))
  = Some (Q, mkHeap (<[c := o']> (dicts h)) (lists h)).
Proof.
  revert Q. induction q as [|x q IH]; intros Q Hc Hq.
  - by injection Hq as <-.
  - apply read_plan_cons in Hq as Hq'. destruct Hq' as (a & Q' & -> & Ha & Hq').
    apply not_elem_of_cons in Hc as [Hx Hc].
    apply read_plan_cons_Some; [|by apply IH].
    apply read_item_spec in Ha as (_ & ox & lx & Hox & Hlx & ->).
    apply read_item_spec. split; [done|]. exists ox, lx.
    split_and!; [|done|done]. cbn [dicts]. by rewrite lookup_insert_ne.
Qed.

Lemma get_dicts_reads p : ∀ h P,
  read_plan p h = Some (P, h) →
  ∃ items, hmap get_dict p h = Some (items, h)
           ∧ Forall2 (fun o it => ∃ log, it = item_of o log) items P.
Proof.
  induction p as [|l p IH]; intros h P Hread.
  - injection Hread as <-. by exists [].
  - apply read_plan_cons in Hread as Hc. destruct Hc as (it & P' & -> & Hit & Hrest).
    apply read_item_spec in Hit as (_ & o & log & Ho & Hlog & ->).
    destruct (IH h P' Hrest) as (items & Hitems & Hrel).
    exists (o :: items). split.
    + cbn [hmap]. unfold hbind at 1, get_dict at 1. rewrite Ho. cbn [mbind option_bind].
      unfold hbind at 1. by rewrite Hitems.
    + constructor; [by exists log|done].
Qed.

Lemma id_sets_read items P :
  Forall2 (fun o it => ∃ log, it = item_of o log) items P →
  list_to_set (C := gset str)
    (o_item_id <$> List.filter (fun o => bool_decide (o_task_type o = RESEARCH)) items)
  = research_task_ids P
  ∧ list_to_set (C := gset str) (o_item_id <$> items) = all_task_ids P.
Proof.
  unfold research_task_ids, all_task_ids.
  induction 1 as [|o it items P [log ->] _ [IHr IHa]]; [done|].
  cbn [List.filter fmap list_fmap list_to_set item_of task_type item_id].
  split; [|by rewrite <- IHa].
  destruct (bool_decide (o_task_type o = RESEARCH)); [|done].
  cbn [fmap list_fmap list_to_set]. by rewrite <- IHr.
Qed.

Lemma correct_items_ref_spec rids aids p : ∀ h P,
  NoDup p → read_plan p h = Some (P, h) →
  ∃ h', correct_items_ref rids aids p h = Some ((correct_items rids aids P).2, h')
        ∧ read_plan p h' = Some ((correct_items rids aids P).1, h')
        ∧ lists h' = lists h
        ∧ (∀ l, l ∉ p → dicts h' !! l = dicts h !! l).
Proof.
  induction p as [|l p IH]; intros h P Hnd Hread.
  - injection Hread as <-. by exists h.
  - apply NoDup_cons in Hnd as [Hl Hnd].
    apply read_plan_cons in Hread as Hc. destruct Hc as (it & P' & -> & Hit & Hrest).
    apply read_item_spec in Hit as (_ & o & log & Ho & Hlog & ->).
    cbn [correct_items_ref correct_items].
    unfold hbind at 1, get_dict at 1. rewrite Ho. cbn [mbind option_bind].
    cbn [task_type item_of item_id dependencies].
    destruct (bool_decide (o_task_type o = WRITING)).
    + destruct (correct_deps rids aids (o_item_id o) (o_dependencies o))
        as [kept errs] eqn:Hdeps.
      set (o' := o_set_dependencies kept o).
      set (h1 := mkHeap (<[l := o']> (dicts h)) (lists h)).
      destruct (IH h1 P' Hnd (read_plan_insert_other p l o' h P' Hl Hrest))
        as (h' & Hloop & Hread' & Hlists & Hd).
      destruct (correct_items rids aids P') as [rest' errs_rest].
      cbn [fst snd] in *.
      exists h'. split_and!.
      * unfold hbind at 1. unfold hbind at 1. unfold modify_dict, hbind at 1, get_dict.
        rewrite Ho. cbn [mbind option_bind]. unfold put_dict, hret.
        fold o' h1. unfold hbind at 1. by rewrite Hloop.
      * apply read_plan_cons_Some; [|done].
        apply read_item_spec. split; [done|]. exists o', log.
        split_and!; [|by rewrite Hlists|done].
        rewrite (Hd l Hl). cbn [dicts h1]. apply lookup_insert_eq.
      * done.
      * intros x Hx. apply not_elem_of_cons in Hx as [Hxl Hx].
        rewrite (Hd x Hx). cbn [dicts h1]. by rewrite lookup_insert_ne.
    + destruct (IH h P' Hnd Hrest) as (h' & Hloop & Hread' & Hlists & Hd).
      destruct (correct_items rids aids P') as [rest' errs_rest].
      cbn [fst snd] in *.
      exists h'. split_and!.
      * unfold hbind at 1. unfold hret at 1. unfold hbind at 1. by rewrite Hloop.
      * apply read_plan_cons_Some; [|done].
        apply read_item_spec. split; [done|]. exists o, log.
        split_and!; [by rewrite (Hd l Hl)|by rewrite Hlists|done].
      * done.
      * intros x Hx. apply not_elem_of_cons in Hx as [Hxl Hx]. by apply Hd.
Qed.

(** The validator on a plan behind references, the dicts distinct.  It
    returns the list it was given and the errors of the validator on the
    plan read; afterwards that list reads as the corrected plan: the
    correction is made in the caller's dicts.  No list object changes, and no
    dict outside the plan. *)
Theorem validator_corrects_in_place (plan : plan_ref) (h : heap) (P : Plan) :
  snapshot h plan = Some P → NoDup plan →
  ∃ h',
    _validate_and_correct_plan_ref plan h
    = Some ((plan, (_validate_and_correct_plan P).2), h')
    ∧ snapshot h' plan = Some (_validate_and_correct_plan P).1
    ∧ lists h' = lists h
    ∧ (∀ l, l ∉ plan → dicts h' !! l = dicts h !! l).
Proof.
  intros Hsnap%snapshot_Some Hnd.
  destruct (get_dicts_reads plan h P Hsnap) as (items & Hitems & Hrel).
  destruct (id_sets_read items P Hrel) as [Hrids Haids].
  destruct (correct_items_ref_spec (research_task_ids P) (all_task_ids P) plan h P
              Hnd Hsnap) as (h' & Hloop & Hread & Hlists & Hd).
  exists h'. split_and!; [|by apply snapshot_Some|done|done].
  unfold _validate_and_correct_plan_ref. unfold hbind at 1. rewrite Hitems.
  rewrite Hrids, Haids. unfold hbind at 1. by rewrite Hloop.
Qed.

Lemma validator_corrects_in_place_witness :
  ∃ p h0 h',
    store_plan [scenario_r1; scenario_w1] empty_heap = Some (p, h0)
    ∧ snapshot h' p = Some (_validate_and_correct_plan [scenario_r1; scenario_w1]).1.
Proof.
  destruct (store_plan [scenario_r1; scenario_w1] empty_heap) as [[p h0]|] eqn:Hstore.
  - assert (snapshot h0 p = Some [scenario_r1; scenario_w1] ∧ NoDup p) as [Hsnap Hnd].
    { revert Hstore. vm_compute. intros [= <- <-]. split; [reflexivity|].
      apply (bool_decide_unpack (NoDup [0; 1])). reflexivity. }
    destruct (validator_corrects_in_place p h0 [scenario_r1; scenario_w1] Hsnap Hnd)
      as (h' & _ & Hafter & _).
    exists p, h0, h'. split; [reflexivity|exact Hafter].
  - exfalso. revert Hstore. vm_compute. discriminate.
Defined.

End ValidatorOnReferences.

Section ResearchOnReferences.
Import Store.

Lemma touches_only_refl c h : touches_only c h h.
Proof. split; [done|]. intros l v Hv. exists []. by rewrite app_nil_r. Qed.

Lemma touches_only_trans c h1 h2 h3 :
  touches_only c h1 h2 → touches_only c h2 h3 → touches_only c h1 h3.
Proof.
  intros [Hd1 Hl1] [Hd2 Hl2]. split.
  - intros l Hl. by rewrite (Hd2 l Hl), (Hd1 l Hl).
  - intros l v Hv. destruct (Hl1 l v Hv) as [a1 H1]. destruct (Hl2 l _ H1) as [a2 H2].
    exists (a1 ++ a2). by rewrite H2, app_assoc.
Qed.

Lemma writes_only_ret {A} c (a : A) : writes_only c (hret a).
Proof. intros h a' h' [= _ <-]. apply touches_only_refl. Qed.

Lemma writes_only_bind {A B} c (m : H A) (k : A → H B) :
  writes_only c m → (∀ a, writes_only c (k a)) → writes_only c (hbind m k).
Proof.
  intros Hm Hk h b h'. unfold hbind. destruct (m h) as [[a h1]|] eqn:Hmh; [|done].
  intros Hkh. eapply touches_only_trans; [by eapply Hm|by eapply Hk].
Qed.

Lemma writes_only_get_dict c l : writes_only c (get_dict l).
Proof.
  intros h a h'. unfold get_dict. destruct (dicts h !! l); [|done].
  intros [= _ <-]. apply touches_only_refl.
Qed.

Lemma writes_only_list_append c l x : writes_only c (list_append l x).
Proof.
  intros h a h'. unfold list_append. destruct (lists h !! l) as [v|] eqn:Hv; [|done].
  intros [= _ <-]. split; [done|]. intros l' v' Hv'. cbn [lists].
  destruct (decide (l' = l)) as [->|Hne].
  - rewrite lookup_insert_eq. exists [x]. congruence.
  - rewrite lookup_insert_ne by done. exists []. by rewrite app_nil_r.
Qed.

Lemma writes_only_modify_dict c g : writes_only c (modify_dict g c).
Proof.
  intros h a h'. unfold modify_dict, hbind, get_dict, put_dict.
  destruct (dicts h !! c) as [o|]; [|done]. intros [= _ <-]. split.
  - intros l Hl. cbn [dicts]. by rewrite lookup_insert_ne.
  - intros l v Hv. exists []. by rewrite app_nil_r.
Qed.

Lemma writes_only_research_try w id cur : writes_only cur (research_try_ref w id cur).
Proof.
  unfold research_try_ref. apply writes_only_bind; [apply writes_only_get_dict|].
  intros o. destruct (search_invoke w _); [|apply writes_only_ret].
  apply writes_only_bind; [apply writes_only_list_append|]. intros _.
  destruct (add_search_results_to_index w _ _); [|apply writes_only_ret].
  destruct (build_snippets _); [|apply writes_only_ret].
  repeat (apply writes_only_bind; [first [apply writes_only_modify_dict
                                         |apply writes_only_list_append]|]; intros _).
  apply writes_only_ret.
Qed.

Lemma find_ref_pure p : ∀ i id h r h', find_ref i p id h = Some (r, h') → h' = h.
Proof.
  induction p as [|l p IH]; intros i id h r h'; cbn [find_ref].
  - by intros [= _ <-].
  - unfold hbind, get_dict. destruct (dicts h !! l) as [o|]; [|done]. cbn.
    destruct (bool_decide _); [by intros [= _ <-]|apply IH].
Qed.

Lemma read_item_grown h h' l it :
  dicts h ⊆ dicts h' →
  (∀ l v, lists h !! l = Some v → ∃ added, lists h' !! l = Some (v ++ added)) →
  read_item l h = Some (it, h) →
  ∃ it', read_item l h' = Some (it', h') ∧ log_grown it it'.
Proof.
  intros Hd Hl (_ & o & log & Ho & Hlog & ->)%read_item_spec.
  destruct (Hl _ _ Hlog) as [added Hadded].
  exists (item_of o (log ++ added)). split.
  - apply read_item_spec. split; [done|]. exists o, (log ++ added).
    split_and!; [by eapply lookup_weaken|done|done].
  - by exists added.
Qed.

Lemma read_plan_grown h h' p : ∀ P,
  dicts h ⊆ dicts h' →
  (∀ l v, lists h !! l = Some v → ∃ added, lists h' !! l = Some (v ++ added)) →
  read_plan p h = Some (P, h) →
  ∃ P', read_plan p h' = Some (P', h') ∧ Forall2 log_grown P P'.
Proof.
  induction p as [|l p IH]; intros P Hd Hl Hread.
  - injection Hread as <-. by exists [].
  - apply read_plan_cons in Hread as Hc. destruct Hc as (it & P0 & -> & Hit & Hrest).
    destruct (read_item_grown h h' l it Hd Hl Hit) as (it' & Hit' & Hg).
    destruct (IH P0 Hd Hl Hrest) as (P' & HP' & HF).
    exists (it' :: P'). split; [by apply read_plan_cons_Some|by constructor].
Qed.

(** The research executor on a plan behind references writes to the
    dicts it has copied and appends to log lists, nothing else: every dict
    the heap held is as it was, every list it held has at most grown at the
    end, and a snapshot taken before, of this plan or of another, reads
    afterwards as it read but for lines added to execution logs. *)
Theorem research_executor_touches_logs_only (w : ResearchWorld) (plan : plan_ref)
    (cur : option str) (h h' : heap) (r : update_ref) :
  execute_research_task_ref w plan cur h = Some (r, h') →
  dicts h ⊆ dicts h'
  ∧ (∀ l v, lists h !! l = Some v → ∃ added, lists h' !! l = Some (v ++ added))
  ∧ ∀ q Q, snapshot h q = Some Q →
      ∃ Q', snapshot h' q = Some Q' ∧ Forall2 log_grown Q Q'.
Proof.
  intros Hrun.
  enough (dicts h ⊆ dicts h'
          ∧ (∀ l v, lists h !! l = Some v → ∃ added, lists h' !! l = Some (v ++ added)))
    as [Hd Hl].
  { split_and!; [done|done|]. intros q Q HQ%snapshot_Some.
    destruct (read_plan_grown h h' q Q Hd Hl HQ) as (Q' & HQ' & HF).
    exists Q'. split; [by apply snapshot_Some|done]. }
  assert (dicts h ⊆ dicts h
          ∧ (∀ l v, lists h !! l = Some v → ∃ added, lists h !! l = Some (v ++ added)))
    as Hsame.
  { split; [done|]. intros l v Hv. exists []. by rewrite app_nil_r. }
  revert Hrun. unfold execute_research_task_ref.
  destruct (truthy_id cur) as [id|]; [|by intros [= _ <-]].
  unfold hbind at 1. destruct (find_ref 0 plan id h) as [[found h0]|] eqn:Hfind; [|done].
  apply find_ref_pure in Hfind as ->.
  destruct found as [[item idx]|]; [|by intros [= _ <-]].
  unfold hbind at 1.
  destruct (hmap copy_dict plan h) as [[p' h1]|] eqn:Hcopy; [|done].
  destruct (copy_plan_frame _ _ _ _ Hcopy) as ((Hd1 & _) & Hlists1 & Hnew & _).
  destruct (p' !! idx) as [c|] eqn:Hc; [|done].
  assert (c ∉ dom (dicts h)) as Hcnew.
  { apply (proj1 (Forall_forall _ _) Hnew). by eapply list_elem_of_lookup_2. }
  intros Hrest.
  assert (touches_only c h1 h') as [Hd Hl].
  { revert Hrest. apply writes_only_bind; [apply writes_only_modify_dict|]. intros _.
    apply writes_only_bind; [apply writes_only_research_try|]. intros [e|].
    - repeat (apply writes_only_bind;
                [first [apply writes_only_modify_dict|apply writes_only_get_dict]|];
              intros ?).
      apply writes_only_bind; [apply writes_only_list_append|]. intros _.
      apply writes_only_ret.
    - apply writes_only_ret. }
  split.
  - apply map_subseteq_spec. intros x o Hx.
    assert (x ≠ c) as Hne by (intros ->; apply Hcnew, elem_of_dom; by exists o).
    rewrite (Hd x Hne). by eapply lookup_weaken.
  - intros l v Hv. apply Hl. by rewrite Hlists1.
Qed.

Lemma research_executor_touches_logs_only_witness :
  ∃ p h0 r h',
    store_plan [scenario_r1] empty_heap = Some (p, h0)
    ∧ execute_research_task_ref (search_returns []) p (Some (py "r1")) h0 = Some (r, h')
    ∧ ∃ Q', snapshot h' p = Some Q' ∧ Forall2 log_grown [scenario_r1] Q'.
Proof.
  destruct (store_plan [scenario_r1] empty_heap) as [[p h0]|] eqn:Hstore.
  - assert (snapshot h0 p = Some [scenario_r1]
            ∧ ∃ r h', execute_research_task_ref (search_returns []) p (Some (py "r1")) h0
                      = Some (r, h')) as (Hsnap & r & h' & Hrun).
    { vm_compute in Hstore. injection Hstore as <- <-.
      split; [vm_compute; reflexivity|]. eexists _, _. vm_compute. reflexivity. }
    destruct (research_executor_touches_logs_only _ _ _ _ _ _ Hrun) as (_ & _ & Hq).
    exists p, h0, r, h'. split_and!; [reflexivity|exact Hrun|].
    exact (Hq p [scenario_r1] Hsnap).
  - exfalso. revert Hstore. vm_compute. discriminate.
Defined.

End ResearchOnReferences.

(** ** What a run never undoes *)

Lemma replace_and_update_map_keeps gd u sc link sc' :
  registry_ok sc → replace_and_update_map gd u sc = Return (link, sc') →
  registry_ok sc' ∧ extends sc sc'.
Proof.
  intros (Hnext & Hnums & Hnodup & Hurls). unfold replace_and_update_map.
  destruct (dict_get (citations sc) u) as [c|] eqn:Hget.
  - intros [= _ <-]. split; [done|apply extends_refl].
  - destruct (resolve_title (gd u)) as [t|e]; [|done]. cbn [mbind outcome_bind].
    intros [= _ <-]. split; [|by eexists].
    split_and!; cbn [citations next_citation_number].
    + rewrite length_app. cbn. lia.
    + rewrite fmap_app, length_app, Hnums. cbn [length fmap list_fmap snd number].
      by rewrite Nat.add_1_r, seq_S, Hnext.
    + unfold known_urls. cbn [citations]. rewrite fmap_app. cbn.
      apply NoDup_app. split_and!; [done| |apply NoDup_singleton].
      intros v Hv ->%list_elem_of_singleton. by apply dict_get_None in Hget.
    + apply Forall_app. split; [done|]. by apply Forall_singleton.
Qed.

Lemma citation_sub_keeps gd fuel : ∀ text sc out sc',
  registry_ok sc → citation_sub gd fuel text sc = Return (out, sc') →
  registry_ok sc' ∧ extends sc sc'.
Proof.
  induction fuel as [|fuel IH]; intros text sc out sc' Hok.
  - destruct text; intros [= _ <-]; (split; [done|apply extends_refl]).
  - destruct text as [|c tl]; cbn [citation_sub].
    { intros [= _ <-]. split; [done|apply extends_refl]. }
    destruct (match_marker (c :: tl)) as [[u rest]|].
    + destruct (replace_and_update_map gd u sc) as [[link sc1]|] eqn:H1; [|done].
      cbn [mbind outcome_bind].
      destruct (citation_sub gd fuel rest sc1) as [[o sc2]|] eqn:H2; [|done].
      cbn [mbind outcome_bind]. intros [= _ <-].
      destruct (replace_and_update_map_keeps _ _ _ _ _ Hok H1) as [Hok1 Hext1].
      destruct (IH _ _ _ _ Hok1 H2) as [Hok2 Hext2].
      split; [done|by eapply extends_trans].
    + destruct (citation_sub gd fuel tl sc) as [[o sc2]|] eqn:H2; [|done].
      cbn [mbind outcome_bind]. intros [= _ <-]. by eapply IH.
Qed.

Lemma run_node_registry W t n state u :
  registry_ok (shared_context state) → run_node W t n state = Return u →
  registry_ok (shared_context (apply_update u state))
  ∧ extends (shared_context state) (shared_context (apply_update u state)).
Proof.
  intros Hok.
  assert (∀ u, upd_shared_context u = None →
            registry_ok (shared_context (apply_update u state))
            ∧ extends (shared_context state) (shared_context (apply_update u state)))
    as Hsame.
  { intros u' Hu. unfold apply_update. cbn [shared_context]. rewrite Hu.
    split; [done|apply extends_refl]. }
  destruct n; cbn [run_node].
  - unfold call_planner. destruct (planner_reply W (input state)) as [[|raw outline]|e];
      cbn [mbind outcome_bind]; [| |done].
    + intros [= <-]. by apply Hsame.
    + destruct (_validate_and_correct_plan _) as [P verrs]. intros [= <-]. by apply Hsame.
  - intros [= <-]. by apply Hsame.
  - intros [= <-]. apply Hsame. unfold execute_research_task.
    destruct (truthy_id _); [|done]. destruct (_find_plan_item _ _) as [[item idx]|]; [|done].
    by destruct (research_try _ _ _) as [? [?|]].
  - unfold call_plan_summarizer. destruct (summarize_loop _ _ _); [|done].
    cbn [mbind outcome_bind]. intros [= <-]. by apply Hsame.
  - unfold generate_overall_summary. destruct (List.filter is_writing (plan state)).
    + intros [= <-]. by apply Hsame.
    + destruct (llm_invoke W t 0 _); [|done]. cbn [mbind outcome_bind].
      intros [= <-]. by apply Hsame.
  - intros [= <-]. by apply Hsame.
  - unfold execute_writing_task. destruct (truthy_id _); [|done].
    destruct (_find_plan_item _ _) as [[item idx]|]; [|done].
    destruct (agent_executor_invoke _ _) as [raw|]; [|done]. cbn [mbind outcome_bind].
    unfold _process_citations_and_update_state.
    destruct (rewrite_citations _ raw (shared_context state)) as [[out sc']|] eqn:Hrw; [|done].
    cbn [mbind outcome_bind]. intros [= <-]. unfold apply_update.
    cbn [shared_context upd_shared_context default from_option id].
    by eapply citation_sub_keeps.
  - intros [= <-]. apply Hsame. unfold final_assembler.
    by destruct (citations (shared_context state)).
  - intros [= <-]. by apply Hsame.
Qed.

Lemma steps_registry W k : ∀ c c',
  registry_ok (shared_context (state_of c)) → steps W k c = Return c' →
  registry_ok (shared_context (state_of c'))
  ∧ extends (shared_context (state_of c)) (shared_context (state_of c'))
  ∧ (∃ es, error_log (state_of c') = error_log (state_of c) ++ es)
  ∧ input (state_of c') = input (state_of c).
Proof.
  induction k as [|k IH]; intros c c' Hok; cbn [steps].
  - intros [= <-]. split_and!; [done|apply extends_refl| |done].
    exists []. by rewrite app_nil_r.
  - unfold step at 1.
    destruct (run_node W (clock c) (at_node c) (state_of c)) as [u|] eqn:Hnode; [|done].
    cbn [mbind outcome_bind].
    destruct (run_node_registry _ _ _ _ _ Hok Hnode) as [Hok1 Hext1].
    intros Hrest.
    destruct (IH (mkConfig (S (clock c))
                    (next_node (at_node c) (apply_update u (state_of c)))
                    (apply_update u (state_of c))) c' Hok1 Hrest)
      as (Hok' & Hext' & [es Hes] & Hin).
    split_and!; [done|by eapply extends_trans| |done].
    exists (upd_error_log u ++ es). rewrite Hes. cbn [state_of]. unfold apply_update at 1.
    cbn [error_log]. by rewrite app_assoc.
Qed.

(** What a run never undoes.  Whatever the collaborators do, between any two
    points of a run the citation registry keeps its numbering invariant and
    only gains entries, so a number once given to a url is the number of
    that url for the rest of the run; the error list only gains entries at
    its end; and the query stays the query. *)
Theorem run_never_renumbers (W : World) (query : str) (k k' : nat) (c c' : config) :
  steps W k (initial_config query) = Return c →
  steps W k' c = Return c' →
  registry_ok (shared_context (state_of c'))
  ∧ extends (shared_context (state_of c)) (shared_context (state_of c'))
  ∧ (∀ u n, u ∈ known_urls (shared_context (state_of c)) →
       number_of (citations (shared_context (state_of c))) u = n →
       number_of (citations (shared_context (state_of c'))) u = n)
  ∧ (∃ es, error_log (state_of c') = error_log (state_of c) ++ es)
  ∧ input (state_of c') = query.
Proof.
  intros Hk Hk'.
  destruct (steps_registry W k (initial_config query) c fresh_registry_ok Hk)
    as (Hok & _ & _ & Hin).
  destruct (steps_registry W k' c c' Hok Hk') as (Hok' & Hext & Hes & Hin').
  split_and!; [done|done| |done|].
  - intros u n Hu <-. by apply extends_number_of.
  - by rewrite Hin', Hin.
Qed.

Lemma run_never_renumbers_witness :
  ∃ c c',
    steps (demo_world [raw_r1; raw_chapter] (Return citation_scenario) false) 7
      (initial_config (py "q")) = Return c
    ∧ steps (demo_world [raw_r1; raw_chapter] (Return citation_scenario) false) 3 c
      = Return c'
    ∧ registry_ok (shared_context (state_of c')).
Proof.
  destruct (steps (demo_world [raw_r1; raw_chapter] (Return citation_scenario) false) 7
              (initial_config (py "q"))) as [c|e] eqn:Hk.
  - destruct (steps (demo_world [raw_r1; raw_chapter] (Return citation_scenario) false) 3 c)
      as [c'|e] eqn:Hk'.
    + exists c, c'. split_and!; [reflexivity|exact Hk'|].
      exact (proj1 (run_never_renumbers _ _ _ _ _ _ Hk Hk')).
    + exfalso. revert Hk'. vm_compute in Hk. injection Hk as <-. vm_compute. discriminate.
  - exfalso. revert Hk. vm_compute. discriminate.
Defined.

Section SummarizerOnReferences.
Import Store.

Lemma read_plan_lookup p : ∀ h P i l,
  read_plan p h = Some (P, h) → p !! i = Some l →
  ∃ it, P !! i = Some it ∧ read_item l h = Some (it, h).
Proof.
  induction p as [|x p IH]; intros h P i l Hread Hl; [done|].
  apply read_plan_cons in Hread as (it & P' & -> & Hit & Hrest).
  destruct i as [|i]; cbn [lookup list_lookup] in *.
  - injection Hl as <-. by exists it.
  - by eapply IH.
Qed.

Lemma dep_field_ref_reads (f : item_obj → str) (f' : PlanItem → str) p :
  (∀ o log, f' (item_of o log) = f o) →
  ∀ h P dep_id,
  read_plan p h = Some (P, h) →
  dep_field_ref f p dep_id h = Some (dep_field f' P dep_id, h).
Proof.
  intros Hf. unfold dep_field, _find_plan_item. generalize 0 as i.
  induction p as [|l p IH]; intros i h P dep_id Hread.
  - by injection Hread as <-.
  - apply read_plan_cons in Hread as (it & P' & -> & Hit & Hrest).
    apply read_item_spec in Hit as (_ & o & log & Ho & Hlog & ->).
    cbn [dep_field_ref find_from item_of item_id]. unfold hbind, get_dict. rewrite Ho.
    cbn [mbind option_bind]. destruct (bool_decide (o_item_id o = dep_id)).
    + unfold hret. by rewrite <- (Hf o log).
    + by apply IH.
Qed.

Lemma research_content_ref_reads p h P deps :
  read_plan p h = Some (P, h) →
  research_content_ref p deps h = Some (research_content_of P deps, h).
Proof.
  intros Hread. unfold research_content_ref, research_content_of.
  induction deps as [|d deps IH]; [done|]. cbn [hmap fmap list_fmap].
  unfold hbind at 1. unfold hbind at 1.
  rewrite (dep_field_ref_reads o_description description p (fun _ _ => eq_refl) h P d Hread).
  unfold hbind at 1.
  rewrite (dep_field_ref_reads o_content content p (fun _ _ => eq_refl) h P d Hread).
  unfold hret at 1. unfold hbind at 1. by rewrite IH.
Qed.

Lemma summarize_loop_ref_spec llm plan : ∀ todo i h P,
  NoDup plan → read_plan plan h = Some (P, h) → todo = drop i plan →
  ∃ r h',
    summarize_loop_ref llm plan i todo h = Some (r, h')
    ∧ lists h' = lists h
    ∧ (∀ l, l ∉ plan → dicts h' !! l = dicts h !! l)
    ∧ match summarize_loop llm (seq i (length todo)) P with
      | Return P' => r = None ∧ read_plan plan h' = Some (P', h')
      | Raise e => r = Some e
      end.
Proof.
  induction todo as [|l rest IH]; intros i h P Hnd Hread Htodo.
  - by exists None, h.
  - assert (plan !! i = Some l ∧ rest = drop (S i) plan) as [Hl Hrest].
    { assert (plan !! i = Some l) as Hl.
      { rewrite <- (Nat.add_0_r i), <- lookup_drop, <- Htodo. done. }
      split; [done|]. rewrite (drop_S _ _ _ Hl) in Htodo. by injection Htodo. }
    destruct (read_plan_lookup _ _ _ _ _ Hread Hl) as (it & Hit & Hread_it).
    apply read_item_spec in Hread_it as (_ & o & log & Ho & Hlog & ->).
    assert (∀ c, ∃ h1,
              modify_dict (o_set_content c) l h = Some (tt, h1)
              ∧ lists h1 = lists h
              ∧ (∀ x, x ∉ plan → dicts h1 !! x = dicts h !! x)
              ∧ read_plan plan h1 = Some (<[i := set_content c (item_of o log)]> P, h1))
      as Hstage.
    { intros c.
      destruct (modify_dict_reads (o_set_content c) (set_content c) l plan
                  (fun _ _ => eq_refl) (fun _ => eq_refl) h P i Hnd Hl Hread)
        as (h1 & Hm & Hlists & Hd & Hr).
      exists h1. split_and!; [done|done| |].
      - intros x Hx. apply Hd. intros ->. apply Hx. by eapply list_elem_of_lookup_2.
      - rewrite Hr. do 2 f_equal. exact (alter_found _ _ _ _ Hit). }
    cbn [length seq summarize_loop summarize_loop_ref]. rewrite Hit.
    unfold hbind at 1, get_dict at 1. rewrite Ho. cbn [mbind option_bind].
    change (is_writing (item_of o log)) with (bool_decide (o_task_type o = WRITING)).
    destruct (bool_decide (o_task_type o = WRITING)).
    + unfold hbind at 1. rewrite (research_content_ref_reads plan h P _ Hread).
      cbn [dependencies item_of description].
      destruct (negb (any_truthy (research_content_of P (o_dependencies o)))).
      * destruct (Hstage (no_material_stub (o_description o)))
          as (h1 & Hm & Hlists & Hd & Hr).
        destruct (IH (S i) h1 _ Hnd Hr Hrest) as (r & h' & Hloop & Hlists' & Hd' & Hres).
        exists r, h'. split_and!; [|congruence| |done].
        -- unfold hbind at 1. by rewrite Hm.
        -- intros x Hx. by rewrite (Hd' x Hx), (Hd x Hx).
      * destruct (llm i _) as [response|e]; cbn [mbind outcome_bind].
        -- destruct (Hstage response) as (h1 & Hm & Hlists & Hd & Hr).
           destruct (IH (S i) h1 _ Hnd Hr Hrest)
             as (r & h' & Hloop & Hlists' & Hd' & Hres).
           exists r, h'. split_and!; [|congruence| |done].
           ++ unfold hbind at 1. by rewrite Hm.
           ++ intros x Hx. by rewrite (Hd' x Hx), (Hd x Hx).
        -- by exists (Some e), h.
    + destruct (IH (S i) h P Hnd Hread Hrest) as (r & h' & Hloop & Hlists' & Hd' & Hres).
      by exists r, h'.
Qed.

(** The summarizer on a plan behind references, the dicts distinct.  It
    writes the staged contents into the caller's dicts: when the loop of the
    summarizer on the plan read returns a plan, it returns the list it was
    given, and that list then reads as this plan; when a call of the model
    raises, it raises the same exception.  No list object changes, and no
    dict outside the plan. *)
Theorem summarizer_stages_in_place (llm : nat → LlmRequest → outcome str)
    (plan : plan_ref) (h : heap) (P : Plan) :
  snapshot h plan = Some P → NoDup plan →
  ∃ r h',
    call_plan_summarizer_ref llm plan h = Some (r, h')
    ∧ lists h' = lists h
    ∧ (∀ l, l ∉ plan → dicts h' !! l = dicts h !! l)
    ∧ match summarize_loop llm (seq 0 (length P)) P with
      | Return P' => r = Return plan ∧ snapshot h' plan = Some P'
      | Raise e => r = Raise e
      end.
Proof.
  intros Hsnap%snapshot_Some Hnd.
  destruct (summarize_loop_ref_spec llm plan plan 0 h P Hnd Hsnap eq_refl)
    as (r & h' & Hloop & Hlists & Hd & Hres).
  rewrite <- (read_plan_length _ _ _ _ Hsnap) in Hres.
  unfold call_plan_summarizer_ref. unfold hbind. rewrite Hloop.
  destruct (summarize_loop llm (seq 0 (length P)) P) as [P'|e].
  - destruct Hres as [-> Hread]. exists (Return plan), h'.
    split_and!; [done|done|done|done|by apply snapshot_Some].
  - subst r. by exists (Raise e), h'.
Qed.

Lemma summarizer_stages_in_place_witness :
  ∃ p h0 r h',
    store_plan [scenario_chapter] empty_heap = Some (p, h0)
    ∧ call_plan_summarizer_ref model_says_summary p h0 = Some (r, h')
    ∧ lists h' = lists h0.
Proof.
  destruct (store_plan [scenario_chapter] empty_heap) as [[p h0]|] eqn:Hstore.
  - assert (snapshot h0 p = Some [scenario_chapter] ∧ NoDup p) as [Hsnap Hnd].
    { vm_compute in Hstore. injection Hstore as <- <-. split; [vm_compute; reflexivity|].
      apply (bool_decide_unpack (NoDup [0])). reflexivity. }
    destruct (summarizer_stages_in_place model_says_summary p h0 [scenario_chapter]
                Hsnap Hnd) as (r & h' & Hrun & Hlists & _).
    exists p, h0, r, h'. split_and!; [reflexivity|exact Hrun|exact Hlists].
  - exfalso. revert Hstore. vm_compute. discriminate.
Defined.

End SummarizerOnReferences.
